(** * zypper: package specifiers, installed-state query and reconciliation

    A shallow embedding of [packaging/os/zypper.py]: the [PkgSpec] class
    (specifier parsing and matching), [get_installed_versions], and the
    three reconciliation functions [package_present], [package_latest] and
    [package_absent], together with the properties stated about them. *)

From Stdlib Require Import ZArith Lia Ascii.
From stdpp Require Import base option list strings gmap.

Open Scope Z_scope.

(** ** Strings and character classes *)

(** Every character of the string is in the class. *)
Fixpoint all_chars (p : ascii -> bool) (s : string) : bool :=
  match s with
  | EmptyString => true
  | String c s' => p c && all_chars p s'
  end.

(** The string is empty or starts with a character outside the class. *)
Definition head_fails (p : ascii -> bool) (s : string) : bool :=
  match s with
  | EmptyString => true
  | String c _ => negb (p c)
  end.

(** ** Python's [re], as far as the module uses it

    A backtracking matcher in continuation-passing style.  Alternatives are
    tried in the order Python tries them: the left branch of [|] first, a
    greedy [?] with its operand first and the empty match second, a greedy
    [+] with the longest run first.  Named groups are recorded on the way
    and forgotten on backtracking, since every alternative restarts from the
    groups it was entered with. *)
Module Re.

(** Groups that took part in the match, most recent first. *)
Definition groups := list (string * string).

Fixpoint group (g : groups) (name : string) : option string :=
  match g with
  | [] => None
  | (n, v) :: g' => if String.eqb n name then Some v else group g' name
  end.

Inductive regex :=
| Bol                                 (* ^ *)
| Eol                                 (* $ *)
| Class (p : ascii -> bool)           (* one character of a class *)
| Lit (s : string)                    (* literal text *)
| Seq (r1 r2 : regex)
| Alt (r1 r2 : regex)                 (* r1|r2 *)
| Opt (r : regex)                     (* r? *)
| Plus (p : ascii -> bool)            (* [class]+ *)
| Group (name : string) (r : regex).  (* (?P<name>r) *)

(** A continuation receives the text consumed by the sub-pattern, the rest
    of the subject and the groups so far. *)
Definition cont := string -> string -> groups -> option groups.

Definition orelse (a b : option groups) : option groups :=
  match a with Some r => Some r | None => b end.

Definition is_empty (s : string) : bool :=
  match s with EmptyString => true | String _ _ => false end.

Definition newline : ascii := "010"%char.

(** [$] without MULTILINE: at the end of the subject, or just before a
    newline that ends it. *)
Definition at_eol (s : string) : bool :=
  match s with
  | EmptyString => true
  | String c EmptyString => Ascii.eqb c newline
  | String _ (String _ _) => false
  end.

Fixpoint strip_prefix (l s : string) : option string :=
  match l with
  | EmptyString => Some s
  | String c l' =>
      match s with
      | EmptyString => None
      | String d s' => if Ascii.eqb c d then strip_prefix l' s' else None
      end
  end.

(** Greedy [+] over a character class: the longest run first, then ever
    shorter ones, down to a single character. *)
Fixpoint plus_class (p : ascii -> bool) (s : string)
    (k : string -> string -> option groups) : option groups :=
  match s with
  | EmptyString => None
  | String c s' =>
      if p c then
        orelse (plus_class p s' (fun a rest => k (String c a) rest))
               (k (String c EmptyString) s')
      else None
  end.

(** [start] tells whether the position is the beginning of the subject. *)
Fixpoint rmatch (r : regex) (start : bool) (s : string) (g : groups)
    (k : cont) : option groups :=
  match r with
  | Bol => if start then k EmptyString s g else None
  | Eol => if at_eol s then k EmptyString s g else None
  | Class p =>
      match s with
      | EmptyString => None
      | String c s' => if p c then k (String c EmptyString) s' g else None
      end
  | Lit l =>
      match strip_prefix l s with
      | Some s' => k l s' g
      | None => None
      end
  | Seq r1 r2 =>
      rmatch r1 start s g (fun c1 s1 g1 =>
        rmatch r2 (start && is_empty c1) s1 g1 (fun c2 s2 g2 =>
          k (c1 +:+ c2) s2 g2))
  | Alt r1 r2 => orelse (rmatch r1 start s g k) (rmatch r2 start s g k)
  | Opt r1 => orelse (rmatch r1 start s g k) (k EmptyString s g)
  | Plus p => plus_class p s (fun c s' => k c s' g)
  | Group name r1 =>
      rmatch r1 start s g (fun c s' g' => k c s' ((name, c) :: g'))
  end.

(** [pattern.match(s)]: anchored at the start of [s], free at its end. *)
Definition re_match (r : regex) (s : string) : option groups :=
  rmatch r true s [] (fun _ _ g => Some g).

(** Character classes of the module's two patterns. *)
Definition not_operator (c : ascii) : bool :=          (* [^=><] *)
  negb (Ascii.eqb c "="%char || Ascii.eqb c ">"%char || Ascii.eqb c "<"%char).
Definition not_dash (c : ascii) : bool :=              (* [^-] *)
  negb (Ascii.eqb c "-"%char).
Definition dot (c : ascii) : bool :=                   (* . *)
  negb (Ascii.eqb c newline).
Definition non_space (c : ascii) : bool :=             (* \S *)
  negb (Ascii.eqb c " "%char || Ascii.eqb c "009"%char
        || Ascii.eqb c "010"%char || Ascii.eqb c "011"%char
        || Ascii.eqb c "012"%char || Ascii.eqb c "013"%char).

(** [Matches r start c rest g g']: at a position followed by [c +:+ rest],
    the pattern [r] can consume [c] and turn the groups [g] into [g']. *)
Fixpoint Matches (r : regex) (start : bool) (c rest : string)
    (g g' : groups) : Prop :=
  match r with
  | Bol => start = true /\ c = "" /\ g' = g
  | Eol => at_eol rest = true /\ c = "" /\ g' = g
  | Class p => exists x, c = String x "" /\ p x = true /\ g' = g
  | Lit l => c = l /\ g' = g
  | Seq r1 r2 =>
      exists c1 c2 g1, c = c1 +:+ c2
        /\ Matches r1 start c1 (c2 +:+ rest) g g1
        /\ Matches r2 (start && is_empty c1) c2 rest g1 g'
  | Alt r1 r2 => Matches r1 start c rest g g' \/ Matches r2 start c rest g g'
  | Opt r1 => Matches r1 start c rest g g' \/ (c = "" /\ g' = g)
  | Plus p => c <> "" /\ all_chars p c = true /\ g' = g
  | Group name r1 =>
      exists g1, Matches r1 start c rest g g1 /\ g' = (name, c) :: g1
  end.

End Re.

(** ** Exceptions and results *)

Inductive exn :=
| Exception (msg : string)
| NameError (name : string)
| KeyError (key : string)
| AttributeError (attr : string).

Definition result (A : Type) : Type := exn + A.

(** ** class PkgSpec *)

Record PkgSpec := mkPkgSpec {
  rawspec : string;
  pkg : string;
  op : option string;
  version : option string;
  release : option string
}.

(** [_spec_parse_re]:
    ^(?P<pkg>[^=><]+)(?P<op>>=|<=|=|>|<)?(?P<ver>[^-]+)?-?(?P<rel>.+)?$ *)
Definition _spec_parse_re : Re.regex :=
  Re.Seq Re.Bol
 (Re.Seq (Re.Group "pkg" (Re.Plus Re.not_operator))
 (Re.Seq (Re.Opt (Re.Group "op"
            (Re.Alt (Re.Lit ">=") (Re.Alt (Re.Lit "<=") (Re.Alt (Re.Lit "=")
            (Re.Alt (Re.Lit ">") (Re.Lit "<")))))))
 (Re.Seq (Re.Opt (Re.Group "ver" (Re.Plus Re.not_dash)))
 (Re.Seq (Re.Opt (Re.Lit "-"))
 (Re.Seq (Re.Opt (Re.Group "rel" (Re.Plus Re.dot)))
         Re.Eol))))).

(** Truth value of a Python [str]-or-[None]. *)
Definition truthy (v : option string) : bool :=
  match v with
  | Some s => negb (Re.is_empty s)
  | None => false
  end.

(** [PkgSpec.__init__]. *)
Definition PkgSpec_init (pkgspec : string) : result PkgSpec :=
  match Re.re_match _spec_parse_re pkgspec with
  | None => inl (Exception ("invalid package spec: " +:+ pkgspec))
  | Some m =>
      let pkg := default "" (Re.group m "pkg") in
      let op := Re.group m "op" in
      if truthy op && negb (bool_decide (op = Some "=")) then
        inl (Exception ("unsupported package spec operator " +:+ default "" op))
      else
        inr {| rawspec := pkgspec; pkg := pkg; op := op;
               version := Re.group m "ver"; release := Re.group m "rel" |}
  end.

(** *** The pattern in parts: name, operator, and what follows *)

Definition op_alts : Re.regex :=
  Re.Alt (Re.Lit ">=") (Re.Alt (Re.Lit "<=") (Re.Alt (Re.Lit "=")
  (Re.Alt (Re.Lit ">") (Re.Lit "<")))).

Definition tail_part : Re.regex :=
  Re.Seq (Re.Opt (Re.Group "ver" (Re.Plus Re.not_dash)))
 (Re.Seq (Re.Opt (Re.Lit "-"))
 (Re.Seq (Re.Opt (Re.Group "rel" (Re.Plus Re.dot)))
         Re.Eol)).

(** What the matcher does after the operator, and after the name. *)
Definition tail_k (st : bool) : Re.cont :=
  fun c1 s1 g1 =>
    Re.rmatch tail_part (st && Re.is_empty c1) s1 g1 (fun _ _ g2 => Some g2).

Definition after_pkg (c s' : string) : option Re.groups :=
  Re.orelse
    (Re.rmatch (Re.Group "op" op_alts) (Re.is_empty c) s' [("pkg", c)]
               (tail_k (Re.is_empty c)))
    (tail_k (Re.is_empty c) "" s' [("pkg", c)]).

(** The strings on which [tail_part] can succeed: a dash-free run, an
    optional dash, a run without line feed, and the end of the subject. *)
Definition tail_lang (s : string) : Prop :=
  exists v d r e, s = v +:+ d +:+ r +:+ e
    /\ all_chars Re.not_dash v = true /\ (d = "" \/ d = "-")
    /\ all_chars Re.dot r = true /\ Re.at_eol e = true.

Definition operators : list string := [">="; "<="; "="; ">"; "<"].
Definition unsupported_operators : list string := [">="; "<="; ">"; "<"].

(** ** The version comparator

    [satisfies_spec] compares versions with [LooseVersion], which the module
    imports from [distutils.version] (line 31). *)
Module LooseVersion.

(** Modelled from the spec: a segment of the Version Comparator
    (section 4.2), numeric or alphabetic. *)
Inductive segment :=
| Num (n : N)
| Alpha (s : string).

Definition is_digit (c : ascii) : bool :=
  (48 <=? N_of_ascii c)%N && (N_of_ascii c <=? 57)%N.
Definition is_alpha (c : ascii) : bool :=
  ((65 <=? N_of_ascii c)%N && (N_of_ascii c <=? 90)%N)
  || ((97 <=? N_of_ascii c)%N && (N_of_ascii c <=? 122)%N).
Definition digit_value (c : ascii) : N := (N_of_ascii c - 48)%N.

(** The segment being read. *)
Inductive pending :=
| PNone
| PNum (n : N)
| PAlpha (s : string).

Definition flush (p : pending) : list segment :=
  match p with
  | PNone => []
  | PNum n => [Num n]
  | PAlpha s => [Alpha s]
  end.

(** Modelled from the spec: the segmentation of the Version Comparator
    (section 4.2), whose code is [distutils.version.LooseVersion] and not
    part of the module. The string is segmented on non-alphanumeric
    boundaries; a segment is a run of digits (numeric) or a run of letters
    (alphabetic). *)
Fixpoint segments_from (p : pending) (s : string) : list segment :=
  match s with
  | EmptyString => flush p
  | String c s' =>
      if is_digit c then
        match p with
        | PNum n => segments_from (PNum (10 * n + digit_value c)%N) s'
        | _ => flush p ++ segments_from (PNum (digit_value c)) s'
        end
      else if is_alpha c then
        match p with
        | PAlpha t => segments_from (PAlpha (t +:+ String c EmptyString)) s'
        | _ => flush p ++ segments_from (PAlpha (String c EmptyString)) s'
        end
      else flush p ++ segments_from PNone s'
  end.

Definition segments (s : string) : list segment := segments_from PNone s.

(** Modelled from the spec: the comparison of two segments of the Version
    Comparator (section 4.2): numeric segments compare numerically,
    alphabetic segments lexically. The spec orders no numeric segment
    against an alphabetic one; the numeric one is taken as the smaller, so
    that the comparison is total as section 4.2 requires. *)
Definition compare_segment (a b : segment) : comparison :=
  match a, b with
  | Num x, Num y => (x ?= y)%N
  | Alpha x, Alpha y => String.compare x y
  | Num _, Alpha _ => Lt
  | Alpha _, Num _ => Gt
  end.

(** Modelled from the spec: the segment-by-segment comparison of the
    Version Comparator (section 4.2); a sequence that is a proper prefix
    of the other is the smaller. *)
Fixpoint compare_segments (a b : list segment) : comparison :=
  match a, b with
  | [], [] => Eq
  | [], _ :: _ => Lt
  | _ :: _, [] => Gt
  | x :: a', y :: b' =>
      match compare_segment x y with
      | Eq => compare_segments a' b'
      | c => c
      end
  end.

(** Modelled from the spec: [compare(a, b)] of the Version Comparator
    (section 4.2), with [Lt], [Eq] and [Gt] for Less, Equal and Greater. *)
Definition compare (a b : string) : comparison :=
  compare_segments (segments a) (segments b).

(** Modelled from the spec: two versions are equal when the Version
    Comparator (section 4.2) says Equal. *)
Definition eqb (a b : string) : bool :=
  match compare a b with Eq => true | _ => false end.

End LooseVersion.

(** [%s] applied to a [str] or to [None]. *)
Definition pystr (v : option string) : string :=
  match v with
  | Some s => s
  | None => "None"
  end.

(** [LooseVersion(a) == LooseVersion(b)]. The constructor parses its
    argument only when it is true ([if vstring:]): an instance built from
    [None] or from the empty string carries no parsed version, and
    comparing it raises. *)
Definition LooseVersion_eq (a b : option string) : result bool :=
  if truthy a && truthy b
  then inr (LooseVersion.eqb (default "" a) (default "" b))
  else inl (AttributeError "version").

(** [PkgSpec.satisfies_spec]; each argument is a [str] or [None]. *)
Definition satisfies_spec (self : PkgSpec) :
    option string -> option string -> option string -> result bool :=
  let self_pkg := pkg self in
  let self_version := version self in
  let self_release := release self in
  fun packagename version release =>
    if bool_decide (Some self_pkg ≠ packagename) then inr false
    else if truthy self_version && truthy self_release then
      LooseVersion_eq
        (Some (pystr self_version +:+ "-" +:+ pystr self_release))
        (Some (pystr version +:+ "-" +:+ pystr release))
    else if truthy self_version then
      LooseVersion_eq self_version version
    else inr true.

(** ** Strings *)

(** [str.splitlines()] of a byte string: lines end at a line feed, a
    carriage return, or a carriage return followed by a line feed; the line
    ends are dropped and no empty line follows the last line end. *)
Fixpoint splitlines_from (line : string) (s : string) : list string :=
  match s with
  | EmptyString => if Re.is_empty line then [] else [line]
  | String c s' =>
      if Ascii.eqb c "010"%char then line :: splitlines_from "" s'
      else if Ascii.eqb c "013"%char then
        match s' with
        | String d s'' =>
            if Ascii.eqb d "010"%char then line :: splitlines_from "" s''
            else line :: splitlines_from "" s'
        | EmptyString => line :: splitlines_from "" s'
        end
      else splitlines_from (line +:+ String c EmptyString) s'
  end.

Definition splitlines (s : string) : list string := splitlines_from "" s.

(** [s.find(sub)]: the index of the first occurrence of [sub], or -1. *)
Fixpoint find_from (i : Z) (sub s : string) : Z :=
  if String.prefix sub s then i
  else match s with
       | EmptyString => -1
       | String _ s' => find_from (i + 1) sub s'
       end.

Definition str_find (s sub : string) : Z := find_from 0 sub s.

(** ** The module object, the command driver and the module state *)

Record AnsibleModule := mkModule { check_mode : bool }.

(** A message handed to [write_debug]: the format string and the command
    list that [%] renders into it. *)
Inductive debug_msg := DebugCmd (fmt : string) (cmd : list string).

(** The installed state: package name to [(version, release)] or [None]. *)
Abbreviation installed := (gmap string (option (string * string))).

Section Engine.

(** The host, and what [m.run_command(cmd)] does to it and returns:
    [(rc, stdout, stderr)]. *)
Variable World : Type.
Variable driver : list string -> World -> (Z * string * string) * World.

(** What the global name [package_type], read at line 200, is bound to
    in the module's namespace when the function runs; [None] when nothing
    binds it. *)
Variable package_type : option string.

Record state := mkState {
  world : World;
  calls : list (list string);         (* commands run so far, oldest first *)
  debug_to_stderr : bool;
  debug_messages : list debug_msg;
  stderr_written : list debug_msg
}.

(** Computations that read and write the state and may raise. *)
Definition M (A : Type) : Type := state -> result A * state.

Definition ret {A} (a : A) : M A := fun st => (inr a, st).
Definition raise {A} (e : exn) : M A := fun st => (inl e, st).
Definition bind {A B} (c : M A) (k : A -> M B) : M B :=
  fun st =>
    match c st with
    | (inr a, st') => k a st'
    | (inl e, st') => (inl e, st')
    end.
Definition lift {A} (r : result A) : M A :=
  match r with inr a => ret a | inl e => raise e end.

Notation "'let*' p ':=' c 'in' k" := (bind c (fun p => k))
  (at level 10, p pattern, c at level 200, k at level 200, only parsing).

Definition run_command (cmd : list string) : M (Z * string * string) :=
  fun st =>
    let '(r, w) := driver cmd (world st) in
    (inr r, mkState w (calls st ++ [cmd]) (debug_to_stderr st)
                    (debug_messages st) (stderr_written st)).

Definition write_debug (msg : debug_msg) : M unit :=
  fun st =>
    (inr tt, mkState (world st) (calls st) (debug_to_stderr st)
                     (debug_messages st ++ [msg])
                     (if debug_to_stderr st then stderr_written st ++ [msg]
                      else stderr_written st)).

(** Reading a global name. *)
Definition load_global (name : string) (binding : option string) : M string :=
  match binding with
  | Some v => ret v
  | None => raise (NameError name)
  end.

(** [rpmoutput_re]:
    ^package (?P<pkg>\S+) is installed version (?P<ver>\S+) release (?P<rel>\S+)$ *)
Definition rpmoutput_re : Re.regex :=
  Re.Seq Re.Bol
 (Re.Seq (Re.Lit "package ")
 (Re.Seq (Re.Group "pkg" (Re.Plus Re.non_space))
 (Re.Seq (Re.Lit " is installed version ")
 (Re.Seq (Re.Group "ver" (Re.Plus Re.non_space))
 (Re.Seq (Re.Lit " release ")
 (Re.Seq (Re.Group "rel" (Re.Plus Re.non_space))
         Re.Eol)))))).

(** The loop of [get_installed_versions] over
    [zip(stdout.splitlines(), pkgspecs)]. *)
Fixpoint current_versions_loop (pairs : list (string * PkgSpec))
    (current_versions : installed) : result installed :=
  match pairs with
  | [] => inr current_versions
  | (stdoutline, pkgspec) :: rest =>
      match Re.re_match rpmoutput_re stdoutline with
      | None =>
          current_versions_loop rest (<[pkg pkgspec := None]> current_versions)
      | Some m =>
          let rpmpackage := default "" (Re.group m "pkg") in
          let rpmversion := default "" (Re.group m "ver") in
          let rpmrelease := default "" (Re.group m "rel") in
          if bool_decide (pkg pkgspec ≠ rpmpackage) then
            inl (Exception ("package mismatch (expected " +:+ pkg pkgspec
                            +:+ ", got " +:+ rpmpackage +:+ ")"))
          else
            current_versions_loop rest
              (<[pkg pkgspec := Some (rpmversion, rpmrelease)]> current_versions)
      end
  end.

Definition rpm_query_format : string :=
  "package %{NAME} is installed version %{VERSION} release %{RELEASE}"
  +:+ String "010"%char EmptyString.

Definition get_installed_versions (m : AnsibleModule) (pkgspecs : list PkgSpec)
    : M installed :=
  let cmd := ["/bin/rpm"; "-q"; "--qf"; rpm_query_format] ++ map pkg pkgspecs in
  let* (rc, stdout, stderr) := run_command cmd in
  let* _ := write_debug (DebugCmd "rpm command: %s" cmd) in
  lift (current_versions_loop (zip (splitlines stdout) pkgspecs) ∅).

(** The loop of [package_present] that collects the specifiers to install. *)
Fixpoint present_loop (pkgspecs : list PkgSpec) (installed_state : installed)
    (packages_to_install : list string) : result (list string) :=
  match pkgspecs with
  | [] => inr packages_to_install
  | pkgspec :: rest =>
      match installed_state !! pkg pkgspec with
      | None => inl (KeyError (pkg pkgspec))
      | Some pkgstate =>
          let installedpkg :=
            match pkgstate with Some _ => Some (pkg pkgspec) | None => None end in
          let installedver :=
            match pkgstate with Some t => Some (fst t) | None => None end in
          let installedrel :=
            match pkgstate with Some t => Some (snd t) | None => None end in
          match satisfies_spec pkgspec installedpkg installedver installedrel with
          | inl e => inl e
          | inr true => present_loop rest installed_state packages_to_install
          | inr false =>
              present_loop rest installed_state
                (packages_to_install ++ [rawspec pkgspec])
          end
      end
  end.

Definition package_present (m : AnsibleModule) (pkgspecs : list PkgSpec)
    (installed_state : installed)
    (disable_gpg_check disable_recommends old_zypper : bool)
    : M (Z * string * string * bool) :=
  let* packages_to_install := lift (present_loop pkgspecs installed_state []) in
  if (0 <? length packages_to_install)%nat then
    let cmd := ["/usr/bin/zypper"; "--non-interactive"] in
    let cmd := if disable_gpg_check then cmd ++ ["--no-gpg-checks"] else cmd in
    let* type := load_global "package_type" package_type in
    let cmd := cmd ++ ["install"; "--auto-agree-with-licenses"; "-t"; type;
                       "--oldpackage"] in
    let cmd := if disable_recommends && negb old_zypper
               then cmd ++ ["--no-recommends"] else cmd in
    let cmd := cmd ++ packages_to_install in
    let* _ := write_debug (DebugCmd "zypper install command: %s" cmd) in
    let* (rc, stdout, stderr) :=
      (if negb (check_mode m) then run_command cmd else ret (0, "", "")) in
    ret (rc, stdout, stderr, bool_decide (rc = 0))
  else ret (0, "", "", false).

Definition package_latest (m : AnsibleModule) (pkgspecs : list PkgSpec)
    (installed_state : installed)
    (disable_gpg_check disable_recommends old_zypper : bool)
    : M (Z * string * string * bool) :=
  let* (rc, stdout, stderr, changed) :=
    package_present m pkgspecs installed_state disable_gpg_check
                    disable_recommends old_zypper in
  let* pre_upgrade_versions :=
    (if negb changed
     then let* v := get_installed_versions m pkgspecs in ret (Some v)
     else ret None) in
  let cmd := ["/usr/bin/zypper"; "--non-interactive"] in
  let cmd := if disable_gpg_check then cmd ++ ["--no-gpg-checks"] else cmd in
  let cmd := if old_zypper
             then cmd ++ ["install"; "--auto-agree-with-licenses"]
             else cmd ++ ["update"; "--auto-agree-with-licenses"] in
  let cmd := if check_mode m then cmd ++ ["--dry-run"] else cmd in
  let cmd := cmd ++ map pkg pkgspecs in
  let* _ := write_debug (DebugCmd "zypper latest command: %s" cmd) in
  let* (rc, stdout, stderr) := run_command cmd in
  if check_mode m && negb changed then
    ret (rc, stdout, stderr,
         bool_decide (str_find stdout "is going to be upgraded" >= 0))
  else if negb changed then
    let* post_upgrade_versions := get_installed_versions m pkgspecs in
    ret (rc, stdout, stderr,
         if bool_decide (pre_upgrade_versions ≠ Some post_upgrade_versions)
         then true else changed)
  else ret (rc, stdout, stderr, changed).

(** The loop of [package_absent] that collects the names to remove. *)
Fixpoint absent_loop (pkgspecs : list PkgSpec) (installed_state : installed)
    (packages_to_remove : list string) : result (list string) :=
  match pkgspecs with
  | [] => inr packages_to_remove
  | pkgspec :: rest =>
      match installed_state !! pkg pkgspec with
      | None => inl (KeyError (pkg pkgspec))
      | Some (Some _) =>
          absent_loop rest installed_state (packages_to_remove ++ [pkg pkgspec])
      | Some None => absent_loop rest installed_state packages_to_remove
      end
  end.

Definition package_absent (m : AnsibleModule) (pkgspecs : list PkgSpec)
    (installed_state : installed) (old_zypper : bool)
    : M (Z * string * string * bool) :=
  let* packages_to_remove := lift (absent_loop pkgspecs installed_state []) in
  if (0 <? length packages_to_remove)%nat then
    let cmd := ["/usr/bin/zypper"; "--non-interactive"; "remove"]
               ++ packages_to_remove in
    let* _ := write_debug (DebugCmd "zypper remove command: %s" cmd) in
    let* (rc, stdout, stderr) :=
      (if negb (check_mode m) then run_command cmd else ret (0, "", "")) in
    ret (rc, stdout, stderr, bool_decide (rc = 0))
  else ret (0, "", "", false).

End Engine.

Arguments mkState {World}.
Arguments world {World}.
Arguments calls {World}.
Arguments debug_to_stderr {World}.
Arguments debug_messages {World}.
Arguments stderr_written {World}.
Arguments get_installed_versions {World}.
Arguments package_present {World}.
Arguments package_latest {World}.
Arguments package_absent {World}.

(** The module namespace binds [re], [sys], [LooseVersion], [DOCUMENTATION],
    [EXAMPLES], [debug_messages], [debug_to_stderr], [PkgSpec], the seven
    functions, and what line 386 imports from [ansible.module_utils.basic];
    [package_type] is not among them. *)
Definition zypper_package_type : option string := None.

(** A command that changes the installed packages: a [zypper] invocation
    other than the version probe. *)
Definition is_mutation (cmd : list string) : bool :=
  match cmd with
  | prog :: args =>
      String.eqb prog "/usr/bin/zypper" && negb (bool_decide (args = ["-V"]))
  | [] => false
  end.

Definition mutations (cmds : list (list string)) : list (list string) :=
  List.filter is_mutation cmds.

Arguments run_command {World}.
Arguments write_debug {World}.

(** A driver for examples: the host is the list of the results still to
    come, one for each command run, whatever the command. *)
Definition scripted (cmd : list string) (w : list (Z * string * string))
    : (Z * string * string) * list (Z * string * string) :=
  match w with
  | r :: w' => (r, w')
  | [] => ((0, "", ""), [])
  end.

Definition initial {World} (w : World) : state World := mkState w [] false [] [].

(** What [rpmoutput_re] reads off a line: name, version and release. *)
Definition rpm_line (line : string) : option (string * (string * string)) :=
  match Re.re_match rpmoutput_re line with
  | Some m => Some (default "" (Re.group m "pkg"),
                    (default "" (Re.group m "ver"), default "" (Re.group m "rel")))
  | None => None
  end.

(** The command that [package_latest] builds. *)
Definition latest_cmd (m : AnsibleModule) (pkgspecs : list PkgSpec)
    (disable_gpg_check old_zypper : bool) : list string :=
  ((((["/usr/bin/zypper"; "--non-interactive"]
      ++ (if disable_gpg_check then ["--no-gpg-checks"] else []))
     ++ (if old_zypper then ["install"; "--auto-agree-with-licenses"]
         else ["update"; "--auto-agree-with-licenses"]))
    ++ (if check_mode m then ["--dry-run"] else []))
   ++ map pkg pkgspecs).

(** The command that [package_present] builds when [package_type] is bound
    to [type]. *)
Definition install_cmd (type : string) (batch : list string)
    (disable_gpg_check disable_recommends old_zypper : bool) : list string :=
  ((((["/usr/bin/zypper"; "--non-interactive"]
      ++ (if disable_gpg_check then ["--no-gpg-checks"] else []))
     ++ ["install"; "--auto-agree-with-licenses"; "-t"; type; "--oldpackage"])
    ++ (if disable_recommends && negb old_zypper then ["--no-recommends"] else []))
   ++ batch).

Definition rpm_cmd (pkgspecs : list PkgSpec) : list string :=
  ["/bin/rpm"; "-q"; "--qf"; rpm_query_format] ++ map pkg pkgspecs.

(** The state after [run_command cmd], and after [write_debug msg]. *)
Definition ran {World}
    (driver : list string -> World -> (Z * string * string) * World)
    (cmd : list string) (st : state World) : state World :=
  (run_command driver cmd st).2.
Definition logged {World} (msg : debug_msg) (st : state World) : state World :=
  (write_debug msg st).2.

(** ** Scenarios *)

(** The specifier of the scenario [foo=2.0]. *)
Definition foo_2_0 : PkgSpec :=
  mkPkgSpec "foo=2.0" "foo" (Some "=") (Some "2.0") None.

(** Scenario of C10: package [A], installed at 1.0-1 before the upgrade. *)
Definition spec_A : PkgSpec := mkPkgSpec "A" "A" None None None.
Definition A_1_0 : installed := {["A" := Some ("1.0", "1")]}.
Definition A_1_1 : installed := {["A" := Some ("1.1", "1")]}.
Definition rpm_says (ver : string) : Z * string * string :=
  (0, "package A is installed version " +:+ ver +:+ " release 1"
      +:+ String "010"%char "", "").

(** Scenario of removal: [bar], installed at 3.0-1. *)
Definition spec_bar : PkgSpec := mkPkgSpec "bar" "bar" None None None.
Definition bar_3_0 : installed := {["bar" := Some ("3.0", "1")]}.

(** Two name-only specifiers and two query outputs for them. *)
Definition spec_a : PkgSpec := mkPkgSpec "a" "a" None None None.
Definition spec_b : PkgSpec := mkPkgSpec "b" "b" None None None.
Definition line_feed : string := String "010"%char "".
Definition out_b_only : string :=
  "package b is installed version 1 release 1" +:+ line_feed.
Definition out_a_missing_b_installed : string :=
  "package a is not installed" +:+ line_feed
  +:+ "package b is installed version 1 release 1" +:+ line_feed.

(** ** The entry point *)

(** Character classes of the pattern of [main]. *)
Definition white_space (c : ascii) : bool :=             (* \s *)
  negb (Re.non_space c).
Definition decimal (c : ascii) : bool :=                 (* \d *)
  (48 <=? N_of_ascii c)%N && (N_of_ascii c <=? 57)%N.

(** The pattern of line 351: zypper\s+(\d+)\.(\d+)\.(\d+), its three groups
    named by their numbers. *)
Definition version_re : Re.regex :=
  Re.Seq (Re.Lit "zypper")
 (Re.Seq (Re.Plus white_space)
 (Re.Seq (Re.Group "1" (Re.Plus decimal))
 (Re.Seq (Re.Lit ".")
 (Re.Seq (Re.Group "2" (Re.Plus decimal))
 (Re.Seq (Re.Lit ".")
         (Re.Group "3" (Re.Plus decimal))))))).

(** [int(s)] for a string of decimal digits. *)
Fixpoint int_from (n : N) (s : string) : N :=
  match s with
  | EmptyString => n
  | String c s' => int_from (10 * n + (N_of_ascii c - 48))%N s'
  end.

Definition int (s : string) : N := int_from 0%N s.

(** Lines 351-355 of [main]: whether the probed [zypper] is an old one. *)
Definition old_zypper_of (out : string) : bool :=
  let match_ := Re.re_match version_re out in
  if negb (bool_decide (is_Some match_))
     || (0 <? int (default "" (match_ ≫= fun m => Re.group m "1")))%N
  then false else true.

(** The choices of the parameter [state]. *)
Inductive desired_state :=
| St_absent
| St_installed
| St_latest
| St_present
| St_removed.

(** [module.params], as [AnsibleModule] hands them over. *)
Record params := mkParams {
  p_name : list string;
  p_state : desired_state;
  p_disable_gpg_check : bool;
  p_disable_recommends : bool;
  p_debug_in_result : bool;
  p_debug_in_stderr : bool
}.

(** The dict [result] that [main] passes to [exit_json]. *)
Record exit_result := mkResult {
  r_name : list string;
  r_state : desired_state;
  r_changed : bool;
  r_debug_output : option (list debug_msg)
}.

(** How [main] ends when nothing is raised. *)
Inductive outcome :=
| exit_json (r : exit_result)
| fail_json (msg : string).

(** [[PkgSpec(p) for p in names]]. *)
Fixpoint parse_all (names : list string) : result (list PkgSpec) :=
  match names with
  | [] => inr []
  | p :: rest =>
      match PkgSpec_init p with
      | inl e => inl e
      | inr spec =>
          match parse_all rest with
          | inl e => inl e
          | inr specs => inr (spec :: specs)
          end
      end
  end.

Section Main.

Variable World : Type.
Variable driver : list string -> World -> (Z * string * string) * World.
Variable package_type : option string.

(** What [%s] receives for a dict of installed versions: [debug_msg] keeps
    the argument of a message as a list of strings, and how the dict is
    shown is left open. *)
Variable show_versions : installed -> list string.

Notation "'let*' p ':=' c 'in' k" := (bind World c (fun p => k))
  (at level 10, p pattern, c at level 200, k at level 200, only parsing).

(** The assignment to the global [debug_to_stderr], and a read of the
    global [debug_messages]. *)
Definition set_debug_to_stderr (b : bool) : M World unit :=
  fun st =>
    (inr tt, mkState (world st) (calls st) b (debug_messages st)
                     (stderr_written st)).
Definition read_debug_messages : M World (list debug_msg) :=
  fun st => (inr (debug_messages st), st).

Definition zypper_version (module : AnsibleModule) : M World (Z * string) :=
  let cmd := ["/usr/bin/zypper"; "-V"] in
  let* (rc, stdout, stderr) := run_command driver cmd in
  if bool_decide (rc = 0) then ret World (rc, stdout)
  else ret World (rc, stderr).

Definition main (module : AnsibleModule) (params : params) : M World outcome :=
  let* _ := set_debug_to_stderr (p_debug_in_stderr params) in
  let debug_in_result := p_debug_in_result params in
  let* parsed_pkgspecs := lift World (parse_all (p_name params)) in
  let state := p_state params in
  let disable_gpg_check := p_disable_gpg_check params in
  let disable_recommends := p_disable_recommends params in
  let* (rc, out) := zypper_version module in
  let old_zypper := old_zypper_of out in
  let* installed_versions := get_installed_versions driver module parsed_pkgspecs in
  let* _ := write_debug (DebugCmd ("pre run versions:" +:+ String "010"%char "%s")
                                  (show_versions installed_versions)) in
  let* (rc, stdout, stderr, changed) :=
    match state with
    | St_installed | St_present =>
        package_present driver package_type module parsed_pkgspecs
          installed_versions disable_gpg_check disable_recommends old_zypper
    | St_absent | St_removed =>
        package_absent driver module parsed_pkgspecs installed_versions
          old_zypper
    | St_latest =>
        package_latest driver package_type module parsed_pkgspecs
          installed_versions disable_gpg_check disable_recommends old_zypper
    end in
  if negb (bool_decide (rc = 0)) then
    if negb (Re.is_empty stderr) then ret World (fail_json stderr)
    else ret World (fail_json stdout)
  else
    let* installed_versions := get_installed_versions driver module parsed_pkgspecs in
    let* _ := write_debug (DebugCmd ("post run versions: " +:+ String "010"%char "%s")
                                    (show_versions installed_versions)) in
    let* debug_output :=
      (if debug_in_result
       then let* d := read_debug_messages in ret World (Some d)
       else ret World None) in
    ret World (exit_json (mkResult (p_name params) state changed debug_output)).

End Main.

Arguments zypper_version {World}.
Arguments main {World}.
Arguments set_debug_to_stderr {World}.

(** The operation that [main] picks for a state (lines 362-367). *)
Definition operation {World}
    (driver : list string -> World -> (Z * string * string) * World)
    (package_type : option string) (module : AnsibleModule)
    (state : desired_state) (pkgspecs : list PkgSpec)
    (installed_versions : installed)
    (disable_gpg_check disable_recommends old_zypper : bool)
    : M World (Z * string * string * bool) :=
  match state with
  | St_installed | St_present =>
      package_present driver package_type module pkgspecs installed_versions
        disable_gpg_check disable_recommends old_zypper
  | St_absent | St_removed =>
      package_absent driver module pkgspecs installed_versions old_zypper
  | St_latest =>
      package_latest driver package_type module pkgspecs installed_versions
        disable_gpg_check disable_recommends old_zypper
  end.

(** The state after the assignment to [debug_to_stderr]. *)
Definition flagged {World} (b : bool) (st : state World) : state World :=
  mkState (world st) (calls st) b (debug_messages st) (stderr_written st).

(** What [zypper_version] returns as text: the output of the probe, or
    its error output when the exit code is not 0. *)
Definition probe_text (r : Z * string * string) : string :=
  if bool_decide (r.1.1 = 0) then r.1.2 else r.2.

(** The two messages of [main]. *)
Definition pre_msg (shown : list string) : debug_msg :=
  DebugCmd ("pre run versions:" +:+ String "010"%char "%s") shown.
Definition post_msg (shown : list string) : debug_msg :=
  DebugCmd ("post run versions: " +:+ String "010"%char "%s") shown.

(** Scenarios of whole runs: the parameters, a probe answer, and the
    query answers for [bar] and [foo]. *)
Definition run_params (names : list string) (state : desired_state) : params :=
  mkParams names state false true false false.
Definition probe_says : Z * string * string := (0, "zypper 1.9.8", "").
Definition bar_installed : Z * string * string :=
  (0, "package bar is installed version 3.0 release 1" +:+ String "010"%char "",
   "").
Definition bar_missing : Z * string * string :=
  (0, "package bar is not installed" +:+ String "010"%char "", "").
Definition foo_missing : Z * string * string :=
  (0, "package foo is not installed" +:+ String "010"%char "", "").
Definition show_nothing (d : installed) : list string := [].

(** ** The query output of [rpm] *)

(** A line in the format that [get_installed_versions] asks for with
    [--qf], and the line [rpm -q] prints for a package it does not find. *)
Definition installed_line (n v r : string) : string :=
  "package " +:+ n +:+ " is installed version " +:+ v +:+ " release " +:+ r.
Definition missing_line (n : string) : string :=
  "package " +:+ n +:+ " is not installed".

(** The line for a package in a given state. *)
Definition query_line (n : string) (pkgstate : option (string * string)) : string :=
  match pkgstate with
  | Some (v, r) => installed_line n v r
  | None => missing_line n
  end.

(** Lines, each ended by a line feed. *)
Fixpoint unlines (lines : list string) : string :=
  match lines with
  | [] => ""
  | l :: rest => l +:+ String "010"%char (unlines rest)
  end.

(** A string that [splitlines] leaves whole. *)
Definition no_line_end (c : ascii) : bool :=
  negb (Ascii.eqb c "010"%char || Ascii.eqb c "013"%char).

(** A non-empty string without white space. *)
Definition token (s : string) : bool :=
  negb (Re.is_empty s) && all_chars Re.non_space s.

(** The line of the query output for the package of a specifier, on a
    host where [host] tells what is installed, and the condition that the
    name of the package and what is installed of it are non-empty and free
    of white space. *)
Definition host_line (host : string -> option (string * string))
    (spec : PkgSpec) : string :=
  query_line (pkg spec) (host (pkg spec)).
Definition host_well_formed (host : string -> option (string * string))
    (spec : PkgSpec) : Prop :=
  token (pkg spec) = true
  /\ forall v r, host (pkg spec) = Some (v, r) -> token v = true /\ token r = true.

(** ** What the loops of the operations compute *)

(** The specifier is satisfied by what the mapping says of its package. *)
Definition satisfied_in (installed_state : installed) (spec : PkgSpec) : bool :=
  match installed_state !! pkg spec with
  | Some (Some (v, r)) =>
      match satisfies_spec spec (Some (pkg spec)) (Some v) (Some r) with
      | inr true => true
      | _ => false
      end
  | _ => false
  end.

(** The mapping has an entry for the package of the specifier. *)
Definition installed_in_keys (installed_state : installed) (spec : PkgSpec) : bool :=
  match installed_state !! pkg spec with
  | Some _ => true
  | None => false
  end.

(** The mapping says that the package of the specifier is installed. *)
Definition installed_in (installed_state : installed) (spec : PkgSpec) : bool :=
  match installed_state !! pkg spec with
  | Some (Some _) => true
  | _ => false
  end.

(** The version that the mapping holds for the package of the specifier,
    if it holds one, is not the empty string. [get_installed_versions]
    returns no other mapping, since the pattern it reads a version with
    takes at least one character. *)
Definition version_parsed (installed_state : installed) (spec : PkgSpec) : bool :=
  match installed_state !! pkg spec with
  | Some (Some (v, _)) => negb (Re.is_empty v)
  | _ => true
  end.

(** The command that [package_absent] builds. *)
Definition remove_cmd (names : list string) : list string :=
  ["/usr/bin/zypper"; "--non-interactive"; "remove"] ++ names.

Definition probe_cmd : list string := ["/usr/bin/zypper"; "-V"].

(** ** What a computation adds to the state *)

(** [st'] is [st] after the commands [cmds] were run and the messages
    [msgs] were handed to [write_debug], in this order and after what was
    there: the flag [debug_to_stderr] is as before, and the messages went
    to [stderr] exactly when the flag is set. *)
Definition extends {World} (st st' : state World)
    (cmds : list (list string)) (msgs : list debug_msg) : Prop :=
  calls st' = calls st ++ cmds
  /\ debug_messages st' = debug_messages st ++ msgs
  /\ debug_to_stderr st' = debug_to_stderr st
  /\ stderr_written st'
     = stderr_written st ++ (if debug_to_stderr st then msgs else []).

(** From every state, the computation only adds to the state, and at most
    [n] of the commands it runs are mutations. *)
Definition traced {World A} (n : nat) (c : M World A) : Prop :=
  forall st, exists cmds msgs,
    extends st (c st).2 cmds msgs /\ (length (mutations cmds) <= n)%nat.

(** The most mutations a run can issue: the upgrade of [package_latest]
    comes after the install of its install phase only where
    [package_type] is bound. *)
Definition mutation_bound (package_type : option string)
    (state : desired_state) : nat :=
  match package_type, state with
  | Some _, St_latest => 2
  | _, _ => 1
  end.

(** ** Requests by name only *)

(** A name without white space and without operator character, and the
    specifier it parses to. *)
Definition plain_name (n : string) : bool :=
  token n && all_chars Re.not_operator n.
Definition name_only (name : string) : PkgSpec :=
  mkPkgSpec name name None None None.

(** A host that answers the query by what [host] tells, in the format of
    the query, and the probe by a version; no command changes it. *)
Definition answering (host : string -> option (string * string))
    (cmd : list string) (w : unit) : (Z * string * string) * unit :=
  match cmd with
  | prog :: _ :: _ :: _ :: names =>
      if String.eqb prog "/bin/rpm"
      then ((0, unlines (map (fun n => query_line n (host n)) names), ""), w)
      else ((0, "zypper 1.9.8", ""), w)
  | _ => ((0, "zypper 1.9.8", ""), w)
  end.

(** Scenario: [bar] is installed at 3.0-1 and nothing else is. *)
Definition only_bar (n : string) : option (string * string) :=
  if String.eqb n "bar" then Some ("3.0", "1") else None.

(** * Properties *)

(** ** Strings *)

Lemma app_cons c (a b : string) : String c a +:+ b = String c (a +:+ b).
Proof. reflexivity. Qed.

Lemma app_empty_l (s : string) : "" +:+ s = s.
Proof. reflexivity. Qed.

Lemma app_empty_r (s : string) : s +:+ "" = s.
Proof. induction s as [|c s IH]; [reflexivity|]. rewrite app_cons, IH. reflexivity. Qed.

Lemma app_assoc_s (a b c : string) : (a +:+ b) +:+ c = a +:+ (b +:+ c).
Proof.
  induction a as [|x a IH]; [reflexivity|].
  rewrite !app_cons, IH. reflexivity.
Qed.

Lemma all_chars_app p (a b : string) :
  all_chars p (a +:+ b) = all_chars p a && all_chars p b.
Proof.
  induction a as [|x a IH]; [reflexivity|].
  rewrite app_cons. simpl. rewrite IH. apply andb_assoc.
Qed.

Lemma is_empty_true (s : string) : Re.is_empty s = true <-> s = "".
Proof. destruct s; simpl; split; congruence. Qed.

(** ** The matcher against a declarative reading of the patterns *)
Module ReFacts.
Import Re.

Lemma orelse_Some a b r :
  orelse a b = Some r -> a = Some r \/ (a = None /\ b = Some r).
Proof. destruct a; simpl; intros; [left|right]; auto. Qed.

Lemma orelse_is_Some a b : is_Some a \/ is_Some b -> is_Some (orelse a b).
Proof. destruct a; simpl; intros [H|H]; eauto. destruct H; discriminate. Qed.

Lemma strip_prefix_app l s : strip_prefix l (l +:+ s) = Some s.
Proof.
  induction l as [|c l IH]; [reflexivity|].
  rewrite app_cons. simpl. rewrite Ascii.eqb_refl. exact IH.
Qed.

Lemma strip_prefix_Some l s s' : strip_prefix l s = Some s' -> s = l +:+ s'.
Proof.
  revert s. induction l as [|c l IH]; intros s H; simpl in H.
  - injection H as ->. reflexivity.
  - destruct s as [|d s]; [discriminate|].
    destruct (Ascii.eqb_spec c d) as [->|]; [|discriminate].
    rewrite app_cons. f_equal. auto.
Qed.

(** The longest run is tried first: when the continuation accepts it,
    that is the match. *)
Lemma plus_class_greedy p (a b : string) k r :
  a <> "" -> all_chars p a = true -> head_fails p b = true ->
  k a b = Some r -> plus_class p (a +:+ b) k = Some r.
Proof.
  revert k. induction a as [|c a IH]; intros k Hne Hall Hb Hk; [done|].
  simpl in Hall. apply andb_prop in Hall as [Hc Hall].
  rewrite app_cons. simpl. rewrite Hc.
  destruct a as [|d a].
  - rewrite app_empty_l.
    assert (plus_class p b (fun a rest => k (String c a) rest) = None) as ->.
    { destruct b as [|x b]; [reflexivity|]. simpl in *.
      destruct (p x); [discriminate|reflexivity]. }
    exact Hk.
  - rewrite (IH (fun a rest => k (String c a) rest)); auto; discriminate.
Qed.

Lemma plus_class_sound p s k r :
  plus_class p s k = Some r ->
  exists a b, s = a +:+ b /\ a <> "" /\ all_chars p a = true /\ k a b = Some r.
Proof.
  revert k. induction s as [|c s IH]; intros k H; simpl in H; [discriminate|].
  destruct (p c) eqn:Hc; [|discriminate].
  apply orelse_Some in H as [H|[_ H]].
  - apply IH in H as (a & b & -> & _ & Hall & Hk).
    exists (String c a), b. simpl. rewrite Hc, Hall. auto.
  - exists (String c ""), s. simpl. rewrite Hc. auto.
Qed.

Lemma plus_class_complete p (a b : string) k :
  a <> "" -> all_chars p a = true -> is_Some (k a b) ->
  is_Some (plus_class p (a +:+ b) k).
Proof.
  revert k. induction a as [|c a IH]; intros k Hne Hall Hk; [done|].
  simpl in Hall. apply andb_prop in Hall as [Hc Hall].
  rewrite app_cons. simpl. rewrite Hc. apply orelse_is_Some.
  destruct a as [|d a]; [right; exact Hk|].
  left. apply IH; auto; discriminate.
Qed.

(** Whatever the matcher returns comes from a match of the pattern. *)
Lemma rmatch_sound r : forall start s g k res,
  rmatch r start s g k = Some res ->
  exists c s' g', s = c +:+ s' /\ Matches r start c s' g g'
                  /\ k c s' g' = Some res.
Proof.
  induction r as [| |p|l|r1 IH1 r2 IH2|r1 IH1 r2 IH2|r1 IH1|p|name r1 IH1];
    intros start s g k res H; simpl in H.
  - destruct start; [|discriminate]. exists "", s, g. simpl. auto.
  - destruct (at_eol s) eqn:He; [|discriminate]. exists "", s, g. simpl. auto.
  - destruct s as [|c s]; [discriminate|].
    destruct (p c) eqn:Hc; [|discriminate].
    exists (String c ""), s, g. simpl. eauto 6.
  - destruct (strip_prefix l s) as [s'|] eqn:Hs; [|discriminate].
    apply strip_prefix_Some in Hs. exists l, s', g. simpl. auto.
  - apply IH1 in H as (c1 & s1 & g1 & -> & M1 & H).
    apply IH2 in H as (c2 & s2 & g2 & -> & M2 & H).
    exists (c1 +:+ c2), s2, g2. rewrite app_assoc_s. simpl. eauto 10.
  - apply orelse_Some in H as [H|[_ H]].
    + apply IH1 in H as (c & s' & g' & ? & ? & ?). exists c, s', g'. simpl. auto.
    + apply IH2 in H as (c & s' & g' & ? & ? & ?). exists c, s', g'. simpl. auto.
  - apply orelse_Some in H as [H|[_ H]].
    + apply IH1 in H as (c & s' & g' & ? & ? & ?). exists c, s', g'. simpl. auto.
    + exists "", s, g. simpl. auto.
  - apply plus_class_sound in H as (a & b & -> & ? & ? & ?).
    exists a, b, g. simpl. auto.
  - apply IH1 in H as (c & s' & g' & ? & ? & ?).
    exists c, s', ((name, c) :: g'). simpl. eauto.
Qed.

(** A match of the pattern that the continuation accepts makes the matcher
    succeed (possibly with another match, tried earlier). *)
Lemma rmatch_complete r : forall start c s' g g' k,
  Matches r start c s' g g' -> is_Some (k c s' g') ->
  is_Some (rmatch r start (c +:+ s') g k).
Proof.
  induction r as [| |p|l|r1 IH1 r2 IH2|r1 IH1 r2 IH2|r1 IH1|p|name r1 IH1];
    intros start c s' g g' k M Hk; simpl in M; simpl.
  - destruct M as (-> & -> & ->). exact Hk.
  - destruct M as (He & -> & ->). rewrite app_empty_l, He. exact Hk.
  - destruct M as (x & -> & Hx & ->). rewrite app_cons, Hx. exact Hk.
  - destruct M as (-> & ->). rewrite strip_prefix_app. exact Hk.
  - destruct M as (c1 & c2 & g1 & -> & M1 & M2). rewrite app_assoc_s.
    eapply IH1; [exact M1|]. eapply IH2; [exact M2|]. exact Hk.
  - apply orelse_is_Some. destruct M as [M|M]; [left; eauto|right; eauto].
  - apply orelse_is_Some. destruct M as [M|(-> & ->)]; [left; eauto|right].
    exact Hk.
  - destruct M as (Hne & Hall & ->). apply plus_class_complete; auto.
  - destruct M as (g1 & M & ->). eapply IH1; [exact M|]. exact Hk.
Qed.

End ReFacts.

(** ** Parsing specifiers *)

Lemma re_match_name_only (name : string) :
  name <> "" -> all_chars Re.not_operator name = true ->
  Re.re_match _spec_parse_re (name +:+ "") = Some [("pkg", name)].
Proof.
  intros Hne Hall. unfold Re.re_match, _spec_parse_re. simpl.
  apply ReFacts.plus_class_greedy; auto.
Qed.

Lemma re_match_name_version_release (name V R : string) :
  name <> "" -> all_chars Re.not_operator name = true ->
  V <> "" -> all_chars Re.not_dash V = true ->
  R <> "" -> all_chars Re.dot R = true ->
  Re.re_match _spec_parse_re (name +:+ String "=" (V +:+ String "-" (R +:+ "")))
  = Some [("rel", R); ("ver", V); ("op", "="); ("pkg", name)].
Proof.
  intros Hn1 Hn2 HV1 HV2 HR1 HR2. unfold Re.re_match, _spec_parse_re. simpl.
  apply ReFacts.plus_class_greedy; auto. simpl.
  erewrite ReFacts.plus_class_greedy; [reflexivity|auto..]. simpl.
  erewrite ReFacts.plus_class_greedy; [reflexivity|auto..].
Qed.

(** *** The pattern in parts: name, operator, and what follows *)

Lemma spec_parse_re_parts :
  _spec_parse_re =
  Re.Seq Re.Bol (Re.Seq (Re.Group "pkg" (Re.Plus Re.not_operator))
                (Re.Seq (Re.Opt (Re.Group "op" op_alts)) tail_part)).
Proof. reflexivity. Qed.

Lemma re_match_spec_unfold (s : string) :
  Re.re_match _spec_parse_re s = Re.plus_class Re.not_operator s after_pkg.
Proof. reflexivity. Qed.

Lemma tail_lang_no_newline (s : string) :
  all_chars Re.dot s = true -> tail_lang s.
Proof.
  intros H. exists "", "", s, "". rewrite app_empty_r. simpl. auto 6.
Qed.

Lemma tail_lang_tl x (s : string) : tail_lang (String x s) -> tail_lang s.
Proof.
  intros (v & d & r & e & Hs & Hv & Hd & Hr & He).
  destruct v as [|y v].
  - rewrite app_empty_l in Hs. destruct Hd as [->| ->].
    + rewrite app_empty_l in Hs. destruct r as [|y r].
      * rewrite app_empty_l in Hs. subst e.
        destruct s; [|simpl in He; destruct (Ascii.eqb x Re.newline); discriminate].
        exists "", "", "", "". simpl. auto 6.
      * rewrite app_cons in Hs. injection Hs as -> ->.
        simpl in Hr. apply andb_prop in Hr as [_ Hr].
        exists "", "", r, e. simpl. auto 6.
    + change ("-" +:+ r +:+ e) with (String "-" (r +:+ e)) in Hs.
      injection Hs as -> ->. exists "", "", r, e. simpl. auto 6.
  - rewrite app_cons in Hs. injection Hs as -> ->.
    simpl in Hv. apply andb_prop in Hv as [_ Hv].
    exists v, d, r, e. auto 6.
Qed.

Lemma tail_lang_suffix (a s : string) : tail_lang (a +:+ s) -> tail_lang s.
Proof.
  induction a as [|x a IH]; [auto|]. rewrite app_cons.
  intros H. apply IH. eapply tail_lang_tl, H.
Qed.

Lemma tail_part_sound st (s : string) g k res :
  Re.rmatch tail_part st s g k = Some res ->
  tail_lang s /\ exists c s' g', k c s' g' = Some res
                               /\ Re.group g' "op" = Re.group g "op".
Proof.
  intros H. apply ReFacts.rmatch_sound in H as (c & s' & g' & -> & M & Hk).
  simpl in M.
  destruct M as (c1 & c2 & g1 & -> & M1 & c3 & c4 & g2 & -> & M2
                 & c5 & c6 & g3 & -> & M3 & He & -> & ->).
  assert (Hv : all_chars Re.not_dash c1 = true /\ Re.group g1 "op" = Re.group g "op").
  { destruct M1 as [(g0 & (_ & ? & ->) & ->)|[-> ->]]; auto. }
  assert (Hd : (c3 = "" \/ c3 = "-") /\ g2 = g1).
  { destruct M2 as [[-> ->]|[-> ->]]; auto. }
  assert (Hr : all_chars Re.dot c5 = true /\ Re.group g3 "op" = Re.group g2 "op").
  { destruct M3 as [(g0 & (_ & ? & ->) & ->)|[-> ->]]; auto. }
  destruct Hv as [Hv Hg1], Hd as [Hd ->], Hr as [Hr Hg3]. split.
  - exists c1, c3, c5, s'. rewrite !app_assoc_s. auto 6.
  - exists (c1 +:+ c3 +:+ c5 +:+ ""), s', g3. split; [exact Hk|congruence].
Qed.

Lemma tail_part_complete st (s : string) g k :
  tail_lang s -> (forall c s' g', is_Some (k c s' g')) ->
  is_Some (Re.rmatch tail_part st s g k).
Proof.
  intros (v & d & r & e & -> & Hv & Hd & Hr & He) Hk.
  set (g1 := if Re.is_empty v then g else ("ver", v) :: g).
  set (g3 := if Re.is_empty r then g1 else ("rel", r) :: g1).
  replace (v +:+ d +:+ r +:+ e) with ((v +:+ d +:+ r +:+ "") +:+ e)
    by (rewrite !app_assoc_s; reflexivity).
  apply (ReFacts.rmatch_complete tail_part st _ e g g3); [|apply Hk].
  simpl. exists v, (d +:+ r +:+ ""), g1. split; [reflexivity|]. split.
  { subst g1. destruct v; simpl; [right; auto|left].
    eexists. split; [|reflexivity]. split; [discriminate|auto]. }
  exists d, (r +:+ ""), g1. split; [reflexivity|]. split.
  { destruct Hd as [->| ->]; [right|left]; auto. }
  exists r, "", g3. split; [reflexivity|]. split; [|auto].
  subst g3. destruct r; simpl; [right; auto|left].
  eexists. split; [|reflexivity]. split; [discriminate|auto].
Qed.

Lemma op_branch_sound st st2 (s' : string) g m :
  Re.rmatch (Re.Group "op" op_alts) st s' g (tail_k st2) = Some m ->
  exists o' s1, s' = o' +:+ s1 /\ In o' operators
                /\ Re.group m "op" = Some o' /\ tail_lang s1.
Proof.
  intros H. apply ReFacts.rmatch_sound in H as (c & s1 & g' & -> & M & Hk).
  destruct M as (g1 & M & ->). unfold tail_k in Hk.
  apply tail_part_sound in Hk as (Ht & c2 & s2 & g2 & Hk & Hop).
  injection Hk as <-. exists c, s1. split; [reflexivity|]. split.
  - unfold op_alts in M. simpl in M. unfold operators. simpl.
    destruct M as [[-> _]|[[-> _]|[[-> _]|[[-> _]|[-> _]]]]]; tauto.
  - split; [exact Hop|exact Ht].
Qed.

Lemma op_branch_complete st st2 o (rest : string) g :
  o = ">"%char \/ o = "<"%char -> tail_lang rest ->
  is_Some (Re.rmatch (Re.Group "op" op_alts) st (String o rest) g (tail_k st2)).
Proof.
  intros Ho Ht. change (String o rest) with (String o "" +:+ rest).
  apply (ReFacts.rmatch_complete _ st _ rest g (("op", String o "") :: g)).
  - exists g. split; [|reflexivity]. unfold op_alts. simpl.
    destruct Ho as [->| ->]; tauto.
  - unfold tail_k. apply tail_part_complete; [exact Ht|]. intros; eauto.
Qed.

(** A run of the class that starts a string ends no later than the first
    character outside the class. *)
Lemma class_prefix_split p (a b name rest : string) o :
  all_chars p a = true -> all_chars p name = true -> p o = false ->
  a +:+ b = name +:+ String o rest ->
  exists a2, name = a +:+ a2 /\ b = a2 +:+ String o rest.
Proof.
  revert name. induction a as [|x a IH]; intros name Ha Hn Ho H.
  - exists name. auto.
  - simpl in Ha. apply andb_prop in Ha as [Hx Ha].
    destruct name as [|y name].
    + rewrite app_cons, app_empty_l in H. injection H as -> _. congruence.
    + rewrite !app_cons in H. injection H as -> H.
      simpl in Hn. apply andb_prop in Hn as [_ Hn].
      destruct (IH name Ha Hn Ho H) as (a2 & -> & ->).
      exists a2. auto.
Qed.

Lemma In_operators_head o' (s1 : string) x (b : string) :
  In o' operators -> o' +:+ s1 = String x b ->
  Re.not_operator x = false
  /\ (x = ">"%char \/ x = "<"%char -> In o' unsupported_operators).
Proof.
  unfold operators, unsupported_operators. simpl.
  intros [<-|[<-|[<-|[<-|[<-|[]]]]]] H; injection H as <- _;
    (split; [reflexivity|]); intros [?|?]; try discriminate; tauto.
Qed.

(** After a name and [>] or [<], the first match, if there is one, has
    captured one of the operators other than [=]. *)
Lemma re_match_noneq_operator (name : string) o (rest : string) :
  all_chars Re.not_operator name = true -> o = ">"%char \/ o = "<"%char ->
  match Re.re_match _spec_parse_re (name +:+ String o rest) with
  | None => name = "" \/ ~ tail_lang rest
  | Some m => exists o', Re.group m "op" = Some o' /\ In o' unsupported_operators
  end.
Proof.
  intros Hn Ho. rewrite re_match_spec_unfold.
  assert (Hoc : Re.not_operator o = false) by (destruct Ho as [->| ->]; reflexivity).
  destruct name as [|y name].
  { rewrite app_empty_l. simpl. rewrite Hoc. auto. }
  set (nm := String y name) in *.
  destruct (after_pkg nm (String o rest)) as [r|] eqn:HX.
  - rewrite (ReFacts.plus_class_greedy _ nm (String o rest) _ r).
    2:{ subst nm. discriminate. }
    2:{ exact Hn. }
    2:{ simpl. rewrite Hoc. reflexivity. }
    2:{ exact HX. }
    unfold after_pkg in HX. apply ReFacts.orelse_Some in HX as [HX|[HN HX]].
    + apply op_branch_sound in HX as (o' & s1 & Hs & Hin & Hop & _).
      exists o'. split; [exact Hop|].
      symmetry in Hs. eapply In_operators_head in Hs as [_ Hs]; eauto.
    + unfold tail_k in HX. apply tail_part_sound in HX as [Ht _].
      apply tail_lang_tl in Ht.
      destruct (op_branch_complete (Re.is_empty nm) (Re.is_empty nm) o rest
                  [("pkg", nm)] Ho Ht) as [? E].
      congruence.
  - destruct (Re.plus_class Re.not_operator (nm +:+ String o rest) after_pkg)
      as [m|] eqn:H.
    2:{ right. intros Ht.
        destruct (op_branch_complete (Re.is_empty nm) (Re.is_empty nm) o rest
                    [("pkg", nm)] Ho Ht) as [? E].
        unfold after_pkg in HX. rewrite E in HX. discriminate. }
    exfalso.
    apply ReFacts.plus_class_sound in H as (a & b & Hs & Hane & Ha & Hk).
    symmetry in Hs.
    destruct (class_prefix_split _ _ _ _ _ _ Ha Hn Hoc Hs) as (a2 & Hnm & ->).
    assert (Ht : tail_lang rest -> False).
    { intros Ht.
      destruct (op_branch_complete (Re.is_empty nm) (Re.is_empty nm) o rest
                  [("pkg", nm)] Ho Ht) as [? E].
      unfold after_pkg in HX. rewrite E in HX. discriminate. }
    destruct a2 as [|z a2].
    + rewrite app_empty_r in Hnm. subst a. rewrite app_empty_l in Hk. congruence.
    + unfold after_pkg in Hk. apply ReFacts.orelse_Some in Hk as [Hk|[_ Hk]].
      * apply op_branch_sound in Hk as (o' & s1 & Hs' & Hin & _ & _).
        rewrite app_cons in Hs'. symmetry in Hs'.
        eapply In_operators_head in Hs' as [Hz _]; eauto.
        rewrite Hnm, all_chars_app in Hn. apply andb_prop in Hn as [_ Hn].
        simpl in Hn. apply andb_prop in Hn as [Hn _]. congruence.
      * unfold tail_k in Hk. apply tail_part_sound in Hk as [Hk _].
        apply tail_lang_suffix, tail_lang_tl in Hk. auto.
Qed.

Lemma PkgSpec_init_unsupported (s : string) m o' :
  Re.re_match _spec_parse_re s = Some m -> Re.group m "op" = Some o' ->
  In o' unsupported_operators ->
  PkgSpec_init s = inl (Exception ("unsupported package spec operator " +:+ o')).
Proof.
  intros Hm Hop Hin. unfold PkgSpec_init. rewrite Hm, Hop.
  unfold unsupported_operators in Hin. simpl in Hin.
  destruct Hin as [<-|[<-|[<-|[<-|[]]]]]; reflexivity.
Qed.

(** C7. A non-empty specifier without any of the operator characters [=],
    [>] and [<] parses to a [PkgSpec] whose name is the whole raw string,
    dashes included, and whose operator, version and release are absent. *)
Theorem C7_parse_name_only (name : string) :
  name <> "" -> all_chars Re.not_operator name = true ->
  PkgSpec_init name = inr (mkPkgSpec name name None None None).
Proof.
  intros Hne Hall. unfold PkgSpec_init.
  rewrite <- (app_empty_r name) at 1. rewrite re_match_name_only by assumption.
  reflexivity.
Qed.

Lemma C7_parse_name_only_witness :
  PkgSpec_init "my-package-name"
  = inr (mkPkgSpec "my-package-name" "my-package-name" None None None).
Proof. apply C7_parse_name_only; [discriminate|reflexivity]. Defined.

(** C6, as the code has it. For a specifier [name=V-R] with a non-empty
    name free of operator characters, a non-empty [V] free of dashes and a
    non-empty [R] free of line feeds, parsing yields the name, version [V]
    and release [R]: the release is everything after the first dash that
    follows the operator, so [R] may hold further dashes and [V] none. *)
Theorem C6_parse_name_version_release (name V R : string) :
  name <> "" -> all_chars Re.not_operator name = true ->
  V <> "" -> all_chars Re.not_dash V = true ->
  R <> "" -> all_chars Re.dot R = true ->
  PkgSpec_init (name +:+ "=" +:+ V +:+ "-" +:+ R)
  = inr (mkPkgSpec (name +:+ "=" +:+ V +:+ "-" +:+ R) name (Some "=")
                   (Some V) (Some R)).
Proof.
  intros Hn1 Hn2 HV1 HV2 HR1 HR2. unfold PkgSpec_init.
  replace (name +:+ "=" +:+ V +:+ "-" +:+ R)
    with (name +:+ String "=" (V +:+ String "-" (R +:+ "")))
    by (rewrite app_empty_r; reflexivity).
  rewrite re_match_name_version_release by assumption. reflexivity.
Qed.

Lemma C6_parse_name_version_release_witness :
  PkgSpec_init "foo=1.2-3-4"
  = inr (mkPkgSpec "foo=1.2-3-4" "foo" (Some "=") (Some "1.2") (Some "3-4")).
Proof.
  apply (C6_parse_name_version_release "foo" "1.2" "3-4");
    solve [discriminate | reflexivity].
Defined.

(** C6 as stated fails: in [foo=1.2-3-4] the version is not [1.2-3] and the
    release is not [4]; the split is at the first dash. *)
Lemma C6_counterexample :
  PkgSpec_init "foo=1.2-3-4"
  = inr (mkPkgSpec "foo=1.2-3-4" "foo" (Some "=") (Some "1.2") (Some "3-4"))
  /\ ~ (exists p, PkgSpec_init "foo=1.2-3-4" = inr p
                  /\ version p = Some "1.2-3" /\ release p = Some "4").
Proof.
  split; [reflexivity|]. intros (p & Hp & Hv & _).
  vm_compute in Hp. injection Hp as <-. discriminate.
Qed.

(** C8. A specifier whose first operator character is [>] or [<] is never
    parsed into a [PkgSpec]: [PkgSpec_init] raises, either because the
    pattern does not match at all or, with the captured operator [>=],
    [<=], [>] or [<], as an unsupported operator; the latter whenever the
    name is non-empty and no line feed follows the operator. This differs
    from a specifier without operator, which is accepted (C7). In
    particular [pkg>=1.0] is rejected for its operator [>=]. *)
Theorem C8_non_equality_operator_rejected :
  (forall (name : string) (o : ascii) (rest : string),
      all_chars Re.not_operator name = true ->
      o = ">"%char \/ o = "<"%char ->
      let s := name +:+ String o rest in
      (PkgSpec_init s = inl (Exception ("invalid package spec: " +:+ s))
       \/ exists o', In o' unsupported_operators
            /\ PkgSpec_init s
               = inl (Exception ("unsupported package spec operator " +:+ o')))
      /\ (name <> "" -> all_chars Re.dot rest = true ->
          exists o', In o' unsupported_operators
            /\ PkgSpec_init s
               = inl (Exception ("unsupported package spec operator " +:+ o'))))
  /\ PkgSpec_init "pkg>=1.0"
     = inl (Exception "unsupported package spec operator >=").
Proof.
  split; [|reflexivity]. intros name o rest Hn Ho s.
  pose proof (re_match_noneq_operator name o rest Hn Ho) as H. fold s in H.
  destruct (Re.re_match _spec_parse_re s) as [m|] eqn:Hm.
  - destruct H as (o' & Hop & Hin).
    pose proof (PkgSpec_init_unsupported s m o' Hm Hop Hin). split; eauto.
  - split.
    + left. unfold PkgSpec_init. rewrite Hm. reflexivity.
    + intros Hne Hr. destruct H as [H|H]; [contradiction|].
      destruct H. apply tail_lang_no_newline, Hr.
Qed.

Lemma C8_non_equality_operator_rejected_witness :
  exists o', In o' unsupported_operators
    /\ PkgSpec_init ("pkg" +:+ String ">" "=1.0")
       = inl (Exception ("unsupported package spec operator " +:+ o')).
Proof.
  destruct C8_non_equality_operator_rejected as [H _].
  apply (H "pkg" ">"%char "=1.0");
    [reflexivity | left; reflexivity | discriminate | reflexivity].
Defined.

(** ** The version comparator *)
Module LooseVersionFacts.
Import LooseVersion.





















End LooseVersionFacts.



(** ** Matching a specifier against the installed state *)

(** C5, as the code has it. A [PkgSpec] without version is satisfied
    whenever [satisfies_spec] is given the package name of the specifier,
    whatever version and release come with it. [package_present] gives the
    name exactly when the package is installed: every installed state with
    a version and release satisfies the specifier, but for "not installed"
    no name is given, [satisfies_spec] returns false, and the specifier is
    put on the install list. *)
Theorem C5_versionless_spec (self : PkgSpec) :
  truthy (version self) = false ->
  (forall ver rel : option string,
      satisfies_spec self (Some (pkg self)) ver rel = inr true)
  /\ satisfies_spec self None None None = inr false
  /\ (forall (installed_state : installed) ver rel,
         installed_state !! pkg self = Some (Some (ver, rel)) ->
         present_loop [self] installed_state [] = inr [])
  /\ (forall installed_state : installed,
         installed_state !! pkg self = Some None ->
         present_loop [self] installed_state [] = inr [rawspec self]).
Proof.
  intros Hv.
  assert (H1 : forall ver rel : option string,
             satisfies_spec self (Some (pkg self)) ver rel = inr true).
  { intros ver rel. unfold satisfies_spec.
    rewrite bool_decide_eq_false_2 by (intros H; apply H; reflexivity).
    rewrite Hv. reflexivity. }
  assert (H2 : satisfies_spec self None None None = inr false).
  { unfold satisfies_spec. rewrite bool_decide_eq_true_2 by discriminate.
    reflexivity. }
  split; [exact H1|]. split; [exact H2|]. split.
  - intros st ver rel Hst. simpl. rewrite Hst. simpl. rewrite H1. reflexivity.
  - intros st Hst. simpl. rewrite Hst, H2. reflexivity.
Qed.

Lemma C5_versionless_spec_witness :
  satisfies_spec (mkPkgSpec "foo" "foo" None None None)
                 (Some "foo") (Some "1.0") (Some "1") = inr true
  /\ satisfies_spec (mkPkgSpec "foo" "foo" None None None) None None None
     = inr false.
Proof.
  destruct (C5_versionless_spec (mkPkgSpec "foo" "foo" None None None)
              eq_refl) as (H1 & H2 & _).
  split; [apply H1|apply H2].
Defined.

(** C5 as stated fails: the name-only specifier [foo] is not satisfied by
    the state "not installed", and [package_present] schedules it. *)
Lemma C5_counterexample :
  PkgSpec_init "foo" = inr (mkPkgSpec "foo" "foo" None None None)
  /\ version (mkPkgSpec "foo" "foo" None None None) = None
  /\ satisfies_spec (mkPkgSpec "foo" "foo" None None None) None None None
     <> inr true
  /\ present_loop [mkPkgSpec "foo" "foo" None None None] {["foo" := None]} []
     = inr ["foo"].
Proof.
  split; [reflexivity|]. split; [reflexivity|]. split; [discriminate|].
  vm_compute. reflexivity.
Qed.

(** ** The engine *)

Section EngineFacts.

Context {World : Type}.
Variable driver : list string -> World -> (Z * string * string) * World.
Implicit Types (st : state World) (cmd : list string) (msg : debug_msg).

Lemma calls_ran cmd st : calls (ran driver cmd st) = calls st ++ [cmd].
Proof. unfold ran, run_command. destruct (driver cmd (world st)). reflexivity. Qed.

Lemma calls_logged msg st : calls (logged msg st) = calls st.
Proof. reflexivity. Qed.

Lemma world_logged msg st : world (logged msg st) = world st.
Proof. reflexivity. Qed.

Lemma run_command_eq cmd st :
  run_command driver cmd st = (inr (driver cmd (world st)).1, ran driver cmd st).
Proof. unfold ran, run_command. destruct (driver cmd (world st)). reflexivity. Qed.

(** [get_installed_versions] runs one [rpm] query and reads its output. *)
Lemma get_installed_versions_eq m pkgspecs st :
  get_installed_versions driver m pkgspecs st
  = let out := (driver (rpm_cmd pkgspecs) (world st)).1.1.2 in
    let st' := logged (DebugCmd "rpm command: %s" (rpm_cmd pkgspecs))
                      (ran driver (rpm_cmd pkgspecs) st) in
    (current_versions_loop (zip (splitlines out) pkgspecs) ∅, st').
Proof.
  unfold get_installed_versions, bind. fold (rpm_cmd pkgspecs).
  rewrite run_command_eq.
  destruct (driver (rpm_cmd pkgspecs) (world st)) as [[[rc out] err] w] eqn:E.
  simpl. unfold lift, logged.
  destruct (current_versions_loop _ _); reflexivity.
Qed.

Lemma calls_get_installed_versions m pkgspecs st :
  calls (get_installed_versions driver m pkgspecs st).2
  = calls st ++ [rpm_cmd pkgspecs].
Proof. rewrite get_installed_versions_eq. simpl. apply calls_ran. Qed.

Section Present.

Variable package_type : option string.
Variables (m : AnsibleModule) (pkgspecs : list PkgSpec)
          (installed_state : installed)
          (disable_gpg_check disable_recommends old_zypper : bool).

Let present :=
  package_present driver package_type m pkgspecs installed_state
                  disable_gpg_check disable_recommends old_zypper.

Lemma package_present_error e st :
  present_loop pkgspecs installed_state [] = inl e ->
  present st = (inl e, st).
Proof.
  intros H. unfold present, package_present, bind. rewrite H. reflexivity.
Qed.

Lemma package_present_satisfied st :
  present_loop pkgspecs installed_state [] = inr [] ->
  present st = (inr (0, "", "", false), st).
Proof.
  intros H. unfold present, package_present, bind. rewrite H. reflexivity.
Qed.

(** With [package_type] unbound, a non-empty install list ends in a
    [NameError] before anything is logged or run. *)
Lemma package_present_unbound batch st :
  package_type = None ->
  present_loop pkgspecs installed_state [] = inr batch -> batch <> [] ->
  present st = (inl (NameError "package_type"), st).
Proof.
  intros Hpt H Hne. unfold present, package_present, bind.
  rewrite H, Hpt. destruct batch; [done|reflexivity].
Qed.


Let latest :=
  package_latest driver package_type m pkgspecs installed_state
                 disable_gpg_check disable_recommends old_zypper.

Let cmd := latest_cmd m pkgspecs disable_gpg_check old_zypper.
Let msg := DebugCmd "zypper latest command: %s" cmd.

Lemma latest_cmd_eq :
  ltac:(let t := eval cbv zeta in
  (let c := ["/usr/bin/zypper"; "--non-interactive"] in
   let c := if disable_gpg_check then c ++ ["--no-gpg-checks"] else c in
   let c := if old_zypper
            then c ++ ["install"; "--auto-agree-with-licenses"]
            else c ++ ["update"; "--auto-agree-with-licenses"] in
   let c := if check_mode m then c ++ ["--dry-run"] else c in
   c ++ map pkg pkgspecs) in exact t) = cmd.
Proof.
  unfold cmd, latest_cmd.
  destruct disable_gpg_check, old_zypper, (check_mode m); reflexivity.
Qed.

Lemma package_latest_error e st st1 :
  present st = (inl e, st1) -> latest st = (inl e, st1).
Proof.
  intros H. unfold latest, package_latest, bind. fold present.
  rewrite H. reflexivity.
Qed.

(** After an install phase that changed something: the upgrade command,
    and no query. *)
Lemma package_latest_changed rc0 out0 err0 st st1 :
  present st = (inr (rc0, out0, err0, true), st1) ->
  latest st =
    let r := (driver cmd (world st1)).1 in
    (inr (r.1.1, r.1.2, r.2, true), ran driver cmd (logged msg st1)).
Proof.
  intros H. unfold latest, package_latest, bind. fold present.
  rewrite H. cbn [negb ret]. cbv zeta. rewrite latest_cmd_eq. fold msg.
  change (write_debug msg st1) with (inr tt : result unit, logged msg st1).
  cbv iota beta. rewrite run_command_eq.
  change (world (logged msg st1)) with (world st1).
  destruct (driver cmd (world st1)) as [[[rc out] err] w]. simpl.
  rewrite andb_false_r. reflexivity.
Qed.

(** After an install phase that changed nothing: a query, the upgrade
    command, and outside check mode a second query. *)
Lemma package_latest_unchanged rc0 out0 err0 st st1 :
  present st = (inr (rc0, out0, err0, false), st1) ->
  latest st =
    match get_installed_versions driver m pkgspecs st1 with
    | (inl e, st2) => (inl e, st2)
    | (inr pre, st2) =>
        let st3 := ran driver cmd (logged msg st2) in
        let r := (driver cmd (world st2)).1 in
        if check_mode m then
          (inr (r.1.1, r.1.2, r.2,
                bool_decide (str_find r.1.2 "is going to be upgraded" >= 0)),
           st3)
        else
          match get_installed_versions driver m pkgspecs st3 with
          | (inl e, st4) => (inl e, st4)
          | (inr post, st4) =>
              (inr (r.1.1, r.1.2, r.2, bool_decide (pre ≠ post)), st4)
          end
    end.
Proof.
  intros H. unfold latest, package_latest, bind. fold present.
  rewrite H. cbn [negb].
  destruct (get_installed_versions driver m pkgspecs st1) as [[e|pre] st2];
    [reflexivity|].
  cbn [ret]. cbv zeta. rewrite latest_cmd_eq. fold msg.
  change (write_debug msg st2) with (inr tt : result unit, logged msg st2).
  cbv iota beta. rewrite run_command_eq.
  change (world (logged msg st2)) with (world st2).
  destruct (driver cmd (world st2)) as [[[rc out] err] w]. cbn [fst snd].
  rewrite andb_true_r. destruct (check_mode m); [reflexivity|].
  destruct (get_installed_versions driver m pkgspecs _) as [[e|post] st4];
    [reflexivity|].
  unfold ret. do 2 f_equal. f_equal.
  destruct (decide (pre = post)) as [->|Hne].
  - rewrite !bool_decide_eq_false_2; [reflexivity| |]; intros Hx; apply Hx;
      reflexivity.
  - rewrite !bool_decide_eq_true_2; [reflexivity|exact Hne|congruence].
Qed.

Let absent := package_absent driver m pkgspecs installed_state old_zypper.

(** [package_absent] runs at most one command, a [zypper remove]. *)
Lemma calls_package_absent st :
  exists new, calls (absent st).2 = calls st ++ new /\ (length new <= 1)%nat.
Proof.
  unfold absent, package_absent, bind.
  destruct (absent_loop pkgspecs installed_state []) as [e|batch].
  { exists []. rewrite app_nil_r. split; [reflexivity|simpl; lia]. }
  destruct batch as [|b batch].
  { exists []. rewrite app_nil_r. split; [reflexivity|simpl; lia]. }
  cbn [lift ret length Nat.ltb Nat.leb]. cbv zeta.
  match goal with |- context [write_debug ?msg st] =>
    change (write_debug msg st) with (inr tt : result unit, logged msg st)
  end.
  cbv iota beta. destruct (check_mode m); cbn [negb].
  { exists []. rewrite app_nil_r. split; [reflexivity|simpl; lia]. }
  rewrite run_command_eq.
  destruct (driver _ _) as [[[rc out] err] w]. cbn [fst snd ret].
  eexists [_]. rewrite calls_ran, calls_logged. split; [reflexivity|simpl; lia].
Qed.

(** With [package_type] unbound, [package_present] leaves the state as it
    found it and reports no change, if it returns at all. *)
Lemma package_present_unbound_cases st :
  package_type = None ->
  (exists e, present st = (inl e, st))
  \/ present st = (inr (0, "", "", false), st).
Proof.
  intros Hpt.
  destruct (present_loop pkgspecs installed_state []) as [e|batch] eqn:H.
  - left. exists e. apply package_present_error, H.
  - destruct batch as [|b batch].
    + right. apply package_present_satisfied, H.
    + left. eexists. eapply package_present_unbound; eauto; discriminate.
Qed.

End Present.

End EngineFacts.

Lemma not_mutation_rpm pkgspecs : is_mutation (rpm_cmd pkgspecs) = false.
Proof. reflexivity. Qed.

Lemma mutations_app a b : mutations (a ++ b) = mutations a ++ mutations b.
Proof. apply List.filter_app. Qed.

Lemma length_mutations_one cmd : (length (mutations [cmd]) <= 1)%nat.
Proof. unfold mutations. simpl. destruct (is_mutation cmd); simpl; lia. Qed.

(** C1, at the input where the code departs from it. The specifier
    [foo=2.0] with [foo] not installed is unsatisfied and makes up the
    install list, yet [package_present] raises [NameError] for
    [package_type]: the state is untouched, so no command was issued, and
    no result tuple is returned. *)
Theorem C1_package_present_failing_input {World}
    (driver : list string -> World -> (Z * string * string) * World)
    (st : state World) :
  PkgSpec_init "foo=2.0" = inr foo_2_0
  /\ present_loop [foo_2_0] {["foo" := None]} [] = inr ["foo=2.0"]
  /\ package_present driver zypper_package_type (mkModule false) [foo_2_0]
       {["foo" := None]} false true false st
     = (inl (NameError "package_type"), st).
Proof.
  split; [reflexivity|]. split; [vm_compute; reflexivity|].
  apply package_present_unbound with (batch := ["foo=2.0"]);
    [reflexivity|vm_compute; reflexivity|discriminate].
Qed.

(** With [package_type] bound, the scenario of C1 runs one [zypper install]
    that carries the raw specifier, and reports a change for exit code 0. *)
Example package_present_when_bound :
  package_present scripted (Some "package") (mkModule false) [foo_2_0]
    {["foo" := None]} false true false (initial [(0, "", "")])
  = (inr (0, "", "", true),
     mkState [] [install_cmd "package" ["foo=2.0"] false true false] false
       [DebugCmd "zypper install command: %s"
          (install_cmd "package" ["foo=2.0"] false true false)] []).
Proof. vm_compute. reflexivity. Qed.

(** With [package_type] bound, [package_latest] runs its upgrade command
    after the install command of the install phase. *)
Example package_latest_when_bound :
  mutations (calls (package_latest scripted (Some "package") (mkModule false)
                      [foo_2_0] {["foo" := None]} false true false
                      (initial [(0, "", ""); (0, "", "")])).2)
  = [install_cmd "package" ["foo=2.0"] false true false;
     latest_cmd (mkModule false) [foo_2_0] false false].
Proof. vm_compute. reflexivity. Qed.

(** C2. Whenever the install list that [package_present] collects is not
    empty, the function raises [NameError] for the name [package_type],
    which the module never binds: it stops while building the command, the
    state is as before, so no command was run, and no
    [(rc, stdout, stderr, changed)] is returned. *)
Theorem C2_install_batch_raises_NameError {World}
    (driver : list string -> World -> (Z * string * string) * World)
    (m : AnsibleModule) (pkgspecs : list PkgSpec) (installed_state : installed)
    (disable_gpg_check disable_recommends old_zypper : bool)
    (batch : list string) (st : state World) :
  present_loop pkgspecs installed_state [] = inr batch -> batch <> [] ->
  package_present driver zypper_package_type m pkgspecs installed_state
    disable_gpg_check disable_recommends old_zypper st
  = (inl (NameError "package_type"), st).
Proof. intros H Hne. eapply package_present_unbound; eauto. Qed.

Lemma C2_install_batch_raises_NameError_witness :
  package_present scripted zypper_package_type (mkModule false) [foo_2_0]
    {["foo" := None]} false true false (initial [(0, "", "")])
  = (inl (NameError "package_type"), initial [(0, "", "")]).
Proof.
  apply (C2_install_batch_raises_NameError scripted (mkModule false) [foo_2_0]
           {["foo" := None]} false true false ["foo=2.0"]).
  - vm_compute. reflexivity.
  - discriminate.
Defined.

(** C10, as the code has it. Let the install phase of [package_latest]
    report no change. Outside check mode the call reports a change exactly
    when the installed versions queried before the upgrade command differ
    from those queried after it. In check mode no second query is made and
    the call reports a change exactly when the output of the dry run
    contains "is going to be upgraded". When the install phase reported a
    change, the upgrade command is run without any query and the call
    reports a change. With A at 1.0-1 before and 1.1-1 after, outside check
    mode, the call reports a change. *)
Theorem C10_latest_changed {World}
    (driver : list string -> World -> (Z * string * string) * World)
    (package_type : option string)
    (m : AnsibleModule) (pkgspecs : list PkgSpec) (installed_state : installed)
    (disable_gpg_check disable_recommends old_zypper : bool) :
  let present := package_present driver package_type m pkgspecs installed_state
                   disable_gpg_check disable_recommends old_zypper in
  let latest := package_latest driver package_type m pkgspecs installed_state
                  disable_gpg_check disable_recommends old_zypper in
  let query := get_installed_versions driver m pkgspecs in
  let cmd := latest_cmd m pkgspecs disable_gpg_check old_zypper in
  let upgrade st :=
    ran driver cmd (logged (DebugCmd "zypper latest command: %s" cmd) st) in
  (forall st st1 st2 st4 rc0 out0 err0 pre post,
      check_mode m = false ->
      present st = (inr (rc0, out0, err0, false), st1) ->
      query st1 = (inr pre, st2) ->
      query (upgrade st2) = (inr post, st4) ->
      exists rc out err,
        latest st = (inr (rc, out, err, bool_decide (pre ≠ post)), st4))
  /\ (forall st st1 st2 rc0 out0 err0 pre,
         check_mode m = true ->
         present st = (inr (rc0, out0, err0, false), st1) ->
         query st1 = (inr pre, st2) ->
         exists rc out err,
           (driver cmd (world st2)).1 = (rc, out, err)
           /\ latest st
              = (inr (rc, out, err,
                      bool_decide (str_find out "is going to be upgraded" >= 0)),
                 upgrade st2))
  /\ (forall st st1 rc0 out0 err0,
         present st = (inr (rc0, out0, err0, true), st1) ->
         exists rc out err,
           latest st = (inr (rc, out, err, true), upgrade st1)
           /\ calls (upgrade st1) = calls st1 ++ [cmd])
  /\ (package_latest scripted zypper_package_type (mkModule false) [spec_A]
        A_1_0 false true false
        (initial [rpm_says "1.0"; (0, "", ""); rpm_says "1.1"])).1
     = inr (0, "", "", true).
Proof.
  intros present latest query cmd upgrade. split; [|split; [|split]].
  - intros st st1 st2 st4 rc0 out0 err0 pre post Hm Hp Hq1 Hq2.
    unfold latest. rewrite (package_latest_unchanged _ _ _ _ _ _ _ _ _ _ _ _ _ Hp).
    fold query. rewrite Hq1. cbv zeta. rewrite Hm. fold cmd. fold (upgrade st2).
    rewrite Hq2. eauto.
  - intros st st1 st2 rc0 out0 err0 pre Hm Hp Hq1.
    unfold latest. rewrite (package_latest_unchanged _ _ _ _ _ _ _ _ _ _ _ _ _ Hp).
    fold query. rewrite Hq1. cbv zeta. rewrite Hm. fold cmd. fold (upgrade st2).
    destruct (driver cmd (world st2)) as [[[rc out] err] w]. simpl. eauto 6.
  - intros st st1 rc0 out0 err0 Hp.
    unfold latest. rewrite (package_latest_changed _ _ _ _ _ _ _ _ _ _ _ _ _ Hp).
    cbv zeta. fold cmd. fold (upgrade st1). do 3 eexists. split; [reflexivity|].
    unfold upgrade. rewrite calls_ran, calls_logged. reflexivity.
  - vm_compute. reflexivity.
Qed.

Lemma C10_latest_changed_witness :
  (exists rc out err st4,
      package_latest scripted zypper_package_type (mkModule false) [spec_A]
        A_1_0 false true false
        (initial [rpm_says "1.0"; (0, "", ""); rpm_says "1.1"])
      = (inr (rc, out, err, bool_decide (A_1_0 ≠ A_1_1)), st4))
  /\ (exists rc out err st3,
         package_latest scripted zypper_package_type (mkModule true) [spec_A]
           A_1_0 false true false
           (initial [rpm_says "1.0"; (0, "A is going to be upgraded", "")])
         = (inr (rc, out, err,
                 bool_decide (str_find out "is going to be upgraded" >= 0)),
            st3))
  /\ (exists rc out err st3,
         package_latest scripted (Some "package") (mkModule false) [foo_2_0]
           {["foo" := None]} false true false
           (initial [(0, "", ""); (0, "", "")])
         = (inr (rc, out, err, true), st3)).
Proof.
  split; [|split].
  - pose proof (C10_latest_changed scripted zypper_package_type (mkModule false)
                  [spec_A] A_1_0 false true false) as (H & _).
    edestruct (H (initial [rpm_says "1.0"; (0, "", ""); rpm_says "1.1"]))
      as (rc & out & err & E);
      [reflexivity|vm_compute; reflexivity|vm_compute; reflexivity
      |vm_compute; reflexivity|].
    exists rc, out, err. eexists. exact E.
  - pose proof (C10_latest_changed scripted zypper_package_type (mkModule true)
                  [spec_A] A_1_0 false true false) as (_ & H & _).
    edestruct (H (initial [rpm_says "1.0"; (0, "A is going to be upgraded", "")]))
      as (rc & out & err & _ & E);
      [reflexivity|vm_compute; reflexivity|vm_compute; reflexivity|].
    exists rc, out, err. eexists. exact E.
  - pose proof (C10_latest_changed scripted (Some "package") (mkModule false)
                  [foo_2_0] {["foo" := None]} false true false) as (_ & _ & H & _).
    edestruct (H (initial [(0, "", ""); (0, "", "")]))
      as (rc & out & err & E & _); [vm_compute; reflexivity|].
    exists rc, out, err. eexists. exact E.
Defined.

(** C10 as stated fails in check mode: the install phase reports no change,
    the installed versions are the same before and after the call, and yet
    the call reports a change, read off the output of the dry run. *)
Lemma C10_counterexample :
  let m := mkModule true in
  let st0 :=
    initial [rpm_says "1.0"; (0, "A is going to be upgraded", "");
             rpm_says "1.0"] in
  let latest :=
    package_latest scripted zypper_package_type m [spec_A] A_1_0
                   false true false st0 in
  package_present scripted zypper_package_type m [spec_A] A_1_0
                  false true false st0
  = (inr (0, "", "", false), st0)
  /\ (get_installed_versions scripted m [spec_A] st0).1 = inr A_1_0
  /\ latest.1 = inr (0, "A is going to be upgraded", "", true)
  /\ (get_installed_versions scripted m [spec_A] latest.2).1 = inr A_1_0
  /\ true <> bool_decide (A_1_0 ≠ A_1_0).
Proof.
  repeat split; try (vm_compute; reflexivity).
  rewrite bool_decide_eq_false_2; [discriminate|]. intros H. apply H. reflexivity.
Qed.

(** ** Querying the installed state *)

(** One round of the loop of [get_installed_versions], in terms of
    [rpm_line]. *)
Lemma current_versions_loop_cons line spec rest cv :
  current_versions_loop ((line, spec) :: rest) cv
  = match rpm_line line with
    | None => current_versions_loop rest (<[pkg spec := None]> cv)
    | Some (n, vr) =>
        if bool_decide (pkg spec ≠ n) then
          inl (Exception ("package mismatch (expected " +:+ pkg spec
                          +:+ ", got " +:+ n +:+ ")"))
        else current_versions_loop rest (<[pkg spec := Some vr]> cv)
    end.
Proof.
  simpl. unfold rpm_line. destruct (Re.re_match rpmoutput_re line); reflexivity.
Qed.

(** A line that names another package than the specifier at its position
    stops the loop with an exception. *)
Lemma current_versions_loop_mismatch (lines : list string) :
  forall (specs : list PkgSpec) cv i line spec n vr,
    lines !! i = Some line -> specs !! i = Some spec ->
    rpm_line line = Some (n, vr) -> n <> pkg spec ->
    exists msg, current_versions_loop (zip lines specs) cv = inl (Exception msg).
Proof.
  induction lines as [|l ls IH]; intros specs cv i line spec n vr Hl Hs Hr Hn.
  { destruct i; discriminate. }
  destruct specs as [|s ss]; [destruct i; discriminate|].
  change (zip (l :: ls) (s :: ss)) with ((l, s) :: zip ls ss).
  rewrite current_versions_loop_cons.
  destruct i as [|i]; simpl in Hl, Hs.
  - injection Hl as ->. injection Hs as ->. rewrite Hr.
    rewrite bool_decide_eq_true_2 by congruence. eauto.
  - destruct (rpm_line l) as [[n' vr']|]; [|eapply IH; eauto].
    destruct (bool_decide (pkg s ≠ n')); [eauto|eapply IH; eauto].
Qed.

(** When every line agrees with the specifier at its position, the loop
    returns a mapping. *)
Lemma current_versions_loop_agree (lines : list string) :
  forall (specs : list PkgSpec) cv,
    (forall i line spec n vr,
        lines !! i = Some line -> specs !! i = Some spec ->
        rpm_line line = Some (n, vr) -> n = pkg spec) ->
    exists result, current_versions_loop (zip lines specs) cv = inr result.
Proof.
  induction lines as [|l ls IH]; intros specs cv H; [simpl; eauto|].
  destruct specs as [|s ss]; [simpl; eauto|].
  change (zip (l :: ls) (s :: ss)) with ((l, s) :: zip ls ss).
  rewrite current_versions_loop_cons.
  assert (Hrest : forall i line spec n vr,
             ls !! i = Some line -> ss !! i = Some spec ->
             rpm_line line = Some (n, vr) -> n = pkg spec).
  { intros i. apply (H (S i)). }
  destruct (rpm_line l) as [[n vr]|] eqn:Hr; [|apply IH, Hrest].
  rewrite bool_decide_eq_false_2; [apply IH, Hrest|].
  intros Hne. apply Hne. symmetry. eapply (H 0%nat); eauto.
Qed.

(** The mapping holds, for the specifier at each position that has a line,
    what that line says; names of no specifier are left as they were. *)
Lemma current_versions_loop_lookup (lines : list string) :
  forall (specs : list PkgSpec) (cv result : installed),
    current_versions_loop (zip lines specs) cv = inr result ->
    (forall k, k ∉ map pkg specs -> result !! k = cv !! k)
    /\ (NoDup (map pkg specs) ->
        forall i line spec,
          lines !! i = Some line -> specs !! i = Some spec ->
          result !! pkg spec = Some (snd <$> rpm_line line)).
Proof.
  induction lines as [|l ls IH]; intros specs cv result H.
  { simpl in H. injection H as <-. split; [auto|]. intros _ [|i]; discriminate. }
  destruct specs as [|s ss].
  { simpl in H. injection H as <-. split; [auto|]. intros _ [|i]; discriminate. }
  change (zip (l :: ls) (s :: ss)) with ((l, s) :: zip ls ss) in H.
  rewrite current_versions_loop_cons in H.
  assert (exists cv', current_versions_loop (zip ls ss) cv' = inr result
                      /\ cv' = <[pkg s := snd <$> rpm_line l]> cv)
    as (cv' & H' & Hcv).
  { destruct (rpm_line l) as [[n vr]|]; [|eauto].
    destruct (bool_decide (pkg s ≠ n)); [discriminate|eauto]. }
  destruct (IH ss cv' result H') as [IH1 IH2]. split.
  - intros k Hk. simpl in Hk. apply not_elem_of_cons in Hk as [Hk1 Hk2].
    rewrite IH1, Hcv by exact Hk2. apply lookup_insert_ne. congruence.
  - intros Hnd [|i] line spec Hl Hs; simpl in Hl, Hs.
    + injection Hl as ->. injection Hs as ->.
      simpl in Hnd. apply NoDup_cons in Hnd as [Hnotin _].
      rewrite IH1, Hcv by exact Hnotin. apply lookup_insert_eq.
    + simpl in Hnd. apply NoDup_cons in Hnd as [_ Hnd]. eapply IH2; eauto.
Qed.

(** C4, as the code has it. [get_installed_versions] pairs the lines of
    the query output with the requested specifiers by position. A line that
    reports an installed package under another name than the specifier at
    its position raises an exception. Otherwise a mapping is returned, and
    (the requested names being distinct) each requested name that has a
    line at its position is mapped to the version and release of that line,
    or to "not installed" when the line reports no installed package. *)
Theorem C4_positional_correlation {World}
    (driver : list string -> World -> (Z * string * string) * World)
    (m : AnsibleModule) (pkgspecs : list PkgSpec) (st : state World) :
  let lines := splitlines (driver (rpm_cmd pkgspecs) (world st)).1.1.2 in
  let answer := (get_installed_versions driver m pkgspecs st).1 in
  (forall i line spec n vr,
      lines !! i = Some line -> pkgspecs !! i = Some spec ->
      rpm_line line = Some (n, vr) -> n <> pkg spec ->
      exists msg, answer = inl (Exception msg))
  /\ ((forall i line spec n vr,
          lines !! i = Some line -> pkgspecs !! i = Some spec ->
          rpm_line line = Some (n, vr) -> n = pkg spec) ->
      exists result : installed,
        answer = inr result
        /\ (NoDup (map pkg pkgspecs) ->
            forall i line spec,
              lines !! i = Some line -> pkgspecs !! i = Some spec ->
              result !! pkg spec = Some (snd <$> rpm_line line))).
Proof.
  intros lines answer. unfold answer. rewrite get_installed_versions_eq.
  cbv zeta. cbn [fst]. fold lines. split.
  - intros i line spec n vr. apply current_versions_loop_mismatch.
  - intros H.
    destruct (current_versions_loop_agree lines pkgspecs ∅ H) as [result Hr].
    exists result. split; [exact Hr|].
    apply (current_versions_loop_lookup lines pkgspecs ∅ result Hr).
Qed.

Lemma C4_positional_correlation_witness :
  (exists msg,
      (get_installed_versions scripted (mkModule false) [spec_a; spec_b]
         (initial [(0, out_b_only, "")])).1 = inl (Exception msg))
  /\ (exists result : installed,
         (get_installed_versions scripted (mkModule false) [spec_a; spec_b]
            (initial [(0, out_a_missing_b_installed, "")])).1 = inr result
         /\ result !! "a" = Some None
         /\ result !! "b" = Some (Some ("1", "1"))).
Proof.
  split.
  - pose proof (C4_positional_correlation scripted (mkModule false)
                  [spec_a; spec_b] (initial [(0, out_b_only, "")])) as [H _].
    apply (H 0%nat "package b is installed version 1 release 1" spec_a
             "b" ("1", "1")); [reflexivity|reflexivity|reflexivity|discriminate].
  - pose proof (C4_positional_correlation scripted (mkModule false)
                  [spec_a; spec_b]
                  (initial [(0, out_a_missing_b_installed, "")])) as [_ H].
    destruct H as (result & Hr & Hl).
    { intros [|[|i]] line spec n vr Hi Hs Hn; vm_compute in Hi, Hs;
        try discriminate; injection Hi as <-; injection Hs as <-;
        vm_compute in Hn; [discriminate|]. injection Hn as <- _. reflexivity. }
    exists result. split; [exact Hr|].
    assert (Hnd : NoDup (map pkg [spec_a; spec_b])).
    { compute_done. }
    split.
    + apply (Hl Hnd 0%nat "package a is not installed" spec_a); reflexivity.
    + apply (Hl Hnd 1%nat "package b is installed version 1 release 1" spec_b);
        reflexivity.
Defined.

(** C4 as stated fails. The only output line names [b], which was
    requested, yet the call raises, because the line stands at the position
    of [a]; and with no output line at all, [a] is missing from the
    mapping. *)
Lemma C4_counterexample :
  rpm_line "package b is installed version 1 release 1" = Some ("b", ("1", "1"))
  /\ In "b" (map pkg [spec_a; spec_b])
  /\ (get_installed_versions scripted (mkModule false) [spec_a; spec_b]
        (initial [(0, out_b_only, "")])).1
     = inl (Exception "package mismatch (expected a, got b)")
  /\ (get_installed_versions scripted (mkModule false) [spec_a]
        (initial [(0, "", "")])).1 = inr ∅
  /\ (∅ : installed) !! "a" <> Some None.
Proof.
  split; [vm_compute; reflexivity|]. split; [simpl; auto|].
  split; [vm_compute; reflexivity|]. split; [vm_compute; reflexivity|].
  rewrite lookup_empty. discriminate.
Qed.

(** * Further properties *)

(** ** Parsing: what every accepted specifier looks like *)

Lemma re_match_spec_sound (s : string) m :
  Re.re_match _spec_parse_re s = Some m ->
  exists n o v d r e,
    s = n +:+ default "" o +:+ default "" v +:+ d +:+ default "" r +:+ e
    /\ n <> "" /\ all_chars Re.not_operator n = true
    /\ (o = None \/ exists x, o = Some x /\ In x operators)
    /\ (v = None \/ exists x, v = Some x /\ x <> "" /\ all_chars Re.not_dash x = true)
    /\ (d = "" \/ d = "-")
    /\ (r = None \/ exists x, r = Some x /\ x <> "" /\ all_chars Re.dot x = true)
    /\ Re.at_eol e = true
    /\ Re.group m "pkg" = Some n /\ Re.group m "op" = o
    /\ Re.group m "ver" = v /\ Re.group m "rel" = r.
Proof.
  intros H. unfold Re.re_match in H.
  apply ReFacts.rmatch_sound in H as (c & s' & g' & -> & M & Hk).
  injection Hk as <-. simpl in M.
  destruct M as (c1 & c2 & g1 & -> & (_ & -> & ->) & c3 & c4 & g2 & -> & Mp
                 & c5 & c6 & g3 & -> & Mo & c7 & c8 & g4 & -> & Mv
                 & c9 & c10 & g5 & -> & Md & c11 & c12 & g6 & -> & Mr
                 & He & -> & ->).
  destruct Mp as (? & (Hn1 & Hn2 & ->) & ->).
  assert (exists o, c5 = default "" o
                    /\ g3 = match o with
                            | Some x => ("op", x) :: [("pkg", c3)]
                            | None => [("pkg", c3)]
                            end
                    /\ (o = None \/ exists x, o = Some x /\ In x operators))
    as (o & -> & -> & Ho).
  { destruct Mo as [(? & Ho & ->)|[-> ->]].
    - exists (Some c5). split; [reflexivity|].
      assert (In c5 operators /\ x = [("pkg", c3)]) as [Hin ->].
      { unfold operators. simpl.
        destruct Ho as [[<- ->]|[[<- ->]|[[<- ->]|[[<- ->]|[<- ->]]]]]; tauto. }
      split; [reflexivity|]. right. eauto.
    - exists None. auto. }
  set (g3 := match o with Some x => _ | None => _ end) in *.
  assert (exists v, c7 = default "" v
                    /\ g4 = match v with
                            | Some x => ("ver", x) :: g3
                            | None => g3
                            end
                    /\ (v = None \/ exists x, v = Some x /\ x <> ""
                                              /\ all_chars Re.not_dash x = true))
    as (v & -> & -> & Hv).
  { destruct Mv as [(? & (? & ? & ->) & ->)|[-> ->]].
    - exists (Some c7). split; [reflexivity|]. split; [reflexivity|].
      right. eauto.
    - exists None. auto. }
  set (g4 := match v with Some x => _ | None => _ end) in *.
  assert (Hd : (c9 = "" \/ c9 = "-") /\ g5 = g4).
  { destruct Md as [[-> ->]|[-> ->]]; auto. }
  destruct Hd as [Hd ->].
  assert (exists r, c11 = default "" r
                    /\ g6 = match r with
                            | Some x => ("rel", x) :: g4
                            | None => g4
                            end
                    /\ (r = None \/ exists x, r = Some x /\ x <> ""
                                              /\ all_chars Re.dot x = true))
    as (r & -> & -> & Hr).
  { destruct Mr as [(? & (? & ? & ->) & ->)|[-> ->]].
    - exists (Some c11). split; [reflexivity|]. split; [reflexivity|].
      right. eauto.
    - exists None. auto. }
  exists c3, o, v, c9, r, s'.
  split. { rewrite !app_empty_l, !app_empty_r, !app_assoc_s. reflexivity. }
  do 7 (split; [assumption|]).
  subst g3 g4. destruct o, v, r; simpl; auto.
Qed.

(** X1. Whatever [PkgSpec_init] accepts, it keeps whole and takes apart
    without loss: the raw string is the name, the operator, the version, an
    optional dash, the release and at most a final line feed, in this
    order. The name is never empty and holds no operator character, the
    operator is [=] if there is one, a version holds no dash and a release
    no line feed, and neither is ever the empty string. *)
Theorem PkgSpec_init_sound (s : string) (p : PkgSpec) :
  PkgSpec_init s = inr p ->
  rawspec p = s
  /\ pkg p <> "" /\ all_chars Re.not_operator (pkg p) = true
  /\ (op p = None \/ op p = Some "=")
  /\ (forall v, version p = Some v -> v <> "" /\ all_chars Re.not_dash v = true)
  /\ (forall r, release p = Some r -> r <> "" /\ all_chars Re.dot r = true)
  /\ exists d e, (d = "" \/ d = "-") /\ Re.at_eol e = true
       /\ s = pkg p +:+ default "" (op p) +:+ default "" (version p) +:+ d
              +:+ default "" (release p) +:+ e.
Proof.
  unfold PkgSpec_init. intros H.
  destruct (Re.re_match _spec_parse_re s) as [m|] eqn:Hm; [|discriminate].
  apply re_match_spec_sound in Hm
    as (n & o & v & d & r & e & Hs & Hn1 & Hn2 & Ho & Hv & Hd & Hr & He
        & Gp & Go & Gv & Gr).
  rewrite Gp, Go, Gv, Gr in H. simpl in H.
  assert (Hop : o = None \/ o = Some "=").
  { destruct Ho as [->|(x & -> & Hin)]; [auto|]. right.
    unfold operators in Hin. simpl in Hin.
    destruct Hin as [<-|[<-|[<-|[<-|[<-|[]]]]]]; try discriminate H.
    reflexivity. }
  assert (Hp : p = mkPkgSpec s n o v r).
  { destruct Hop as [-> | ->]; simpl in H; congruence. }
  subst p. simpl. repeat (split; [solve [auto]|]). split; [|split].
  - intros x ->. destruct Hv as [?|(y & [= <-] & ? & ?)]; [discriminate|auto].
  - intros x ->. destruct Hr as [?|(y & [= <-] & ? & ?)]; [discriminate|auto].
  - exists d, e. auto.
Qed.

Lemma PkgSpec_init_sound_witness :
  exists d e, (d = "" \/ d = "-") /\ Re.at_eol e = true
    /\ "nmap=4.75-1.30" = "nmap" +:+ "=" +:+ "4.75" +:+ d +:+ "1.30" +:+ e.
Proof.
  destruct (PkgSpec_init_sound "nmap=4.75-1.30"
              (mkPkgSpec "nmap=4.75-1.30" "nmap" (Some "=") (Some "4.75")
                         (Some "1.30")) eq_refl)
    as (_ & _ & _ & _ & _ & _ & H).
  exact H.
Defined.

(** A string splits into its longest prefix inside a class and a rest that
    is empty or starts outside the class. *)
Lemma class_span p (s : string) :
  exists a b, s = a +:+ b /\ all_chars p a = true /\ head_fails p b = true.
Proof.
  induction s as [|c s (a & b & -> & Ha & Hb)].
  - exists "", "". auto.
  - destruct (p c) eqn:Hc.
    + exists (String c a), b. simpl. rewrite Hc, Ha. auto.
    + exists "", (String c (a +:+ b)). simpl. rewrite Hc. auto.
Qed.

Lemma not_operator_false o :
  Re.not_operator o = false -> o = "="%char \/ o = ">"%char \/ o = "<"%char.
Proof.
  unfold Re.not_operator. intros H. apply negb_false_iff in H.
  apply orb_prop in H as [H|H]; [apply orb_prop in H as [H|H]|];
    apply Ascii.eqb_eq in H; auto.
Qed.

Lemma op_branch_complete_any st st2 o (rest : string) g :
  Re.not_operator o = false -> tail_lang rest ->
  is_Some (Re.rmatch (Re.Group "op" op_alts) st (String o rest) g (tail_k st2)).
Proof.
  intros Ho Ht. change (String o rest) with (String o "" +:+ rest).
  apply (ReFacts.rmatch_complete _ st _ rest g (("op", String o "") :: g)).
  - exists g. split; [|reflexivity]. unfold op_alts. simpl.
    destruct (not_operator_false o Ho) as [->|[->| ->]]; tauto.
  - unfold tail_k. apply tail_part_complete; [exact Ht|]. intros; eauto.
Qed.

Lemma all_chars_app_r p (a b : string) :
  all_chars p (a +:+ b) = true -> all_chars p b = true.
Proof. rewrite all_chars_app. intros H. apply andb_prop in H. tauto. Qed.

(** The pattern matches every string without line feed that starts with a
    character of a name. *)
Lemma re_match_spec_complete (s : string) :
  head_fails Re.not_operator s = false -> all_chars Re.dot s = true ->
  is_Some (Re.re_match _spec_parse_re s).
Proof.
  intros Hh Hs. rewrite re_match_spec_unfold.
  destruct (class_span Re.not_operator s) as (a & b & -> & Ha & Hb).
  assert (Hne : a <> "").
  { intros ->. rewrite app_empty_l in Hh. congruence. }
  apply ReFacts.plus_class_complete; auto.
  unfold after_pkg. apply ReFacts.orelse_is_Some.
  apply all_chars_app_r in Hs.
  destruct b as [|o rest].
  - right. unfold tail_k. apply tail_part_complete; [|intros; eauto].
    apply tail_lang_no_newline. reflexivity.
  - left. simpl in Hb. apply negb_true_iff in Hb.
    apply op_branch_complete_any; [exact Hb|].
    apply tail_lang_no_newline. simpl in Hs. apply andb_prop in Hs. tauto.
Qed.

(** X2. Among the strings without line feed, [PkgSpec_init] rejects as
    "invalid package spec" exactly those with an empty name: the empty
    string and the strings that start with [=], [>] or [<]. A string with
    an empty name is rejected so even when it holds line feeds. *)
Theorem PkgSpec_init_invalid :
  (forall s : string,
      head_fails Re.not_operator s = true ->
      PkgSpec_init s = inl (Exception ("invalid package spec: " +:+ s)))
  /\ (forall s : string,
         all_chars Re.dot s = true ->
         PkgSpec_init s = inl (Exception ("invalid package spec: " +:+ s)) ->
         head_fails Re.not_operator s = true).
Proof.
  split.
  - intros s Hs. unfold PkgSpec_init. rewrite re_match_spec_unfold.
    destruct s as [|c s]; [reflexivity|]. simpl in Hs. simpl.
    apply negb_true_iff in Hs. rewrite Hs. reflexivity.
  - intros s Hs H. destruct (head_fails Re.not_operator s) eqn:Hh; [reflexivity|].
    destruct (re_match_spec_complete s Hh Hs) as [m Hm].
    unfold PkgSpec_init in H. rewrite Hm in H.
    destruct (truthy (Re.group m "op") && _); discriminate.
Qed.

Lemma PkgSpec_init_invalid_witness :
  PkgSpec_init "=1.0" = inl (Exception ("invalid package spec: " +:+ "=1.0"))
  /\ head_fails Re.not_operator "" = true.
Proof.
  destruct PkgSpec_init_invalid as [H1 H2]. split.
  - apply H1. reflexivity.
  - apply (H2 ""); reflexivity.
Defined.

Lemma re_match_name_version (name V : string) :
  name <> "" -> all_chars Re.not_operator name = true ->
  V <> "" -> all_chars Re.not_dash V = true ->
  Re.re_match _spec_parse_re (name +:+ String "=" (V +:+ ""))
  = Some [("ver", V); ("op", "="); ("pkg", name)].
Proof.
  intros Hn1 Hn2 HV1 HV2. unfold Re.re_match, _spec_parse_re. simpl.
  apply ReFacts.plus_class_greedy; auto. simpl.
  erewrite ReFacts.plus_class_greedy; [reflexivity|auto..].
Qed.

(** X3. A specifier [name=V] with a non-empty name free of operator
    characters and a non-empty [V] free of dashes parses to the name, the
    operator [=] and the version [V], without release. *)
Theorem PkgSpec_init_name_version (name V : string) :
  name <> "" -> all_chars Re.not_operator name = true ->
  V <> "" -> all_chars Re.not_dash V = true ->
  PkgSpec_init (name +:+ "=" +:+ V)
  = inr (mkPkgSpec (name +:+ "=" +:+ V) name (Some "=") (Some V) None).
Proof.
  intros Hn1 Hn2 HV1 HV2. unfold PkgSpec_init.
  replace (name +:+ "=" +:+ V) with (name +:+ String "=" (V +:+ ""))
    by (rewrite app_empty_r; reflexivity).
  rewrite re_match_name_version by assumption. reflexivity.
Qed.

Lemma PkgSpec_init_name_version_witness :
  PkgSpec_init "wireshark=1.10.13"
  = inr (mkPkgSpec "wireshark=1.10.13" "wireshark" (Some "=")
                   (Some "1.10.13") None).
Proof.
  apply (PkgSpec_init_name_version "wireshark" "1.10.13");
    solve [discriminate | reflexivity].
Defined.

(** ** Reading the query output *)

Lemma token_spec (s : string) :
  token s = true -> s <> "" /\ all_chars Re.non_space s = true.
Proof.
  unfold token. intros H. apply andb_prop in H as [H1 H2]. split; [|exact H2].
  intros ->. discriminate.
Qed.

Lemma re_match_installed_line (n v r : string) :
  token n = true -> token v = true -> token r = true ->
  Re.re_match rpmoutput_re
    ("package " +:+ (n +:+ (" is installed version " +:+ (v +:+ (" release "
       +:+ (r +:+ ""))))))
  = Some [("rel", r); ("ver", v); ("pkg", n)].
Proof.
  intros [Hn1 Hn2]%token_spec [Hv1 Hv2]%token_spec [Hr1 Hr2]%token_spec.
  unfold Re.re_match, rpmoutput_re. cbn [Re.rmatch].
  rewrite ReFacts.strip_prefix_app.
  apply ReFacts.plus_class_greedy; auto.
  rewrite ReFacts.strip_prefix_app.
  erewrite ReFacts.plus_class_greedy; [reflexivity|auto..].
  rewrite ReFacts.strip_prefix_app.
  erewrite ReFacts.plus_class_greedy; [reflexivity|auto..].
Qed.

Lemma rpm_line_installed (n v r : string) :
  token n = true -> token v = true -> token r = true ->
  rpm_line (installed_line n v r) = Some (n, (v, r)).
Proof.
  intros Hn Hv Hr. unfold rpm_line, installed_line.
  replace ("package " +:+ n +:+ " is installed version " +:+ v +:+ " release " +:+ r)
    with ("package " +:+ (n +:+ (" is installed version " +:+ (v +:+ (" release "
            +:+ (r +:+ ""))))))
    by (rewrite app_empty_r; reflexivity).
  rewrite re_match_installed_line by assumption. reflexivity.
Qed.

Lemma rpm_line_missing (n : string) :
  token n = true -> rpm_line (missing_line n) = None.
Proof.
  intros [Hn1 Hn2]%token_spec. unfold rpm_line.
  destruct (Re.re_match rpmoutput_re (missing_line n)) as [m|] eqn:H;
    [|reflexivity].
  exfalso. unfold Re.re_match in H.
  apply ReFacts.rmatch_sound in H as (c & s' & g' & Hs & M & _).
  simpl in M.
  destruct M as (c1 & c2 & g1 & -> & (_ & -> & ->) & c3 & c4 & g2 & -> & (-> & ->)
                 & c5 & c6 & g3 & -> & (? & (Hc1 & Hc2 & ->) & ->)
                 & c7 & c8 & g4 & -> & (-> & ->) & _).
  unfold missing_line in Hs. rewrite !app_empty_l, !app_assoc_s in Hs.
  apply String.app_inj in Hs.
  change (" is not installed") with (String " " "is not installed") in Hs.
  symmetry in Hs.
  destruct (class_prefix_split Re.non_space c5 _ n "is not installed" " "%char
              Hc2 Hn2 eq_refl Hs) as (a2 & -> & Hb).
  destruct a2 as [|x a2].
  - rewrite app_empty_l in Hb. discriminate Hb.
  - change (" is installed version " +:+ c8 +:+ s')
      with (String " " ("is installed version " +:+ c8 +:+ s')) in Hb.
    rewrite app_cons in Hb. injection Hb as <- _.
    rewrite all_chars_app in Hn2. apply andb_prop in Hn2 as [_ Hn2].
    discriminate Hn2.
Qed.

(** X4. The format that [get_installed_versions] asks [rpm] for and the
    pattern it reads the answer with fit together: a line "package N is
    installed version V release R" with N, V and R non-empty and free of
    white space is read back as exactly N, V and R, and the line "package N
    is not installed" is read as no installed package. *)
Theorem rpm_line_round_trip (n v r : string) :
  token n = true -> token v = true -> token r = true ->
  rpm_line (installed_line n v r) = Some (n, (v, r))
  /\ rpm_line (missing_line n) = None.
Proof.
  intros Hn Hv Hr. split; [apply rpm_line_installed|apply rpm_line_missing]; auto.
Qed.

Lemma rpm_line_round_trip_witness :
  rpm_line (installed_line "nmap" "4.75" "1.30") = Some ("nmap", ("4.75", "1.30"))
  /\ rpm_line (missing_line "nmap") = None.
Proof. apply rpm_line_round_trip; reflexivity. Defined.

Lemma splitlines_from_line (l : string) : forall acc rest,
  all_chars no_line_end l = true ->
  splitlines_from acc (l +:+ String "010"%char rest)
  = (acc +:+ l) :: splitlines_from "" rest.
Proof.
  induction l as [|c l IH]; intros acc rest Hl.
  - rewrite app_empty_l, app_empty_r. reflexivity.
  - simpl in Hl. apply andb_prop in Hl as [Hc Hl].
    unfold no_line_end in Hc. apply negb_true_iff, orb_false_elim in Hc as [H1 H2].
    rewrite app_cons. simpl. rewrite H1, H2, IH by exact Hl.
    rewrite app_assoc_s. reflexivity.
Qed.

(** Lines without line ends, each followed by a line feed, are what
    [splitlines] gives back. *)
Lemma splitlines_unlines (lines : list string) :
  Forall (fun l => all_chars no_line_end l = true) lines ->
  splitlines (unlines lines) = lines.
Proof.
  unfold splitlines. induction 1 as [|l lines Hl _ IH]; [reflexivity|].
  simpl. rewrite splitlines_from_line by exact Hl. rewrite app_empty_l, IH.
  reflexivity.
Qed.

Lemma non_space_no_line_end (s : string) :
  all_chars Re.non_space s = true -> all_chars no_line_end s = true.
Proof.
  induction s as [|c s IH]; [reflexivity|]. simpl.
  intros [Hc Hs]%andb_prop. rewrite IH by exact Hs. rewrite andb_true_r.
  unfold Re.non_space in Hc. unfold no_line_end.
  apply negb_true_iff in Hc. apply negb_true_iff.
  repeat (apply orb_false_elim in Hc as [Hc ?]).
  apply orb_false_intro; assumption.
Qed.

Lemma query_line_no_line_end (n : string) (pkgstate : option (string * string)) :
  token n = true ->
  (forall v r, pkgstate = Some (v, r) -> token v = true /\ token r = true) ->
  all_chars no_line_end (query_line n pkgstate) = true.
Proof.
  intros [_ Hn]%token_spec Hs. apply non_space_no_line_end in Hn.
  destruct pkgstate as [[v r]|]; simpl.
  - destruct (Hs v r eq_refl) as [[_ Hv]%token_spec [_ Hr]%token_spec].
    apply non_space_no_line_end in Hv, Hr.
    unfold installed_line. rewrite !all_chars_app, Hn, Hv, Hr. reflexivity.
  - unfold missing_line. rewrite !all_chars_app, Hn. reflexivity.
Qed.

Lemma rpm_line_query_line (n : string) (pkgstate : option (string * string)) :
  token n = true ->
  (forall v r, pkgstate = Some (v, r) -> token v = true /\ token r = true) ->
  rpm_line (query_line n pkgstate)
  = match pkgstate with Some vr => Some (n, vr) | None => None end.
Proof.
  intros Hn Hs. destruct pkgstate as [[v r]|]; simpl.
  - destruct (Hs v r eq_refl). apply rpm_line_installed; auto.
  - apply rpm_line_missing, Hn.
Qed.

Section QueryRoundTrip.

(** What is installed on the host, by package name. *)
Variable host : string -> option (string * string).

Let line := host_line host.
Let well_formed := host_well_formed host.

Lemma current_versions_loop_host (pkgspecs : list PkgSpec) :
  forall cv : installed,
    Forall well_formed pkgspecs ->
    exists result : installed,
      current_versions_loop (zip (map line pkgspecs) pkgspecs) cv = inr result
      /\ forall k, result !! k
                   = if bool_decide (k ∈ map pkg pkgspecs) then Some (host k)
                     else cv !! k.
Proof.
  induction pkgspecs as [|s ss IH]; intros cv Hwf.
  { exists cv. split; [reflexivity|]. intros k. reflexivity. }
  apply Forall_cons in Hwf as [[Hn Hs] Hwf].
  change (zip (map line (s :: ss)) (s :: ss))
    with ((line s, s) :: zip (map line ss) ss).
  rewrite current_versions_loop_cons. unfold line at 1, host_line.
  rewrite rpm_line_query_line by assumption.
  assert (Hstep : forall cv' : installed,
             cv' = <[pkg s := host (pkg s)]> cv ->
             (exists result : installed,
                 current_versions_loop (zip (map line ss) ss) cv' = inr result
                 /\ forall k, result !! k
                              = if bool_decide (k ∈ map pkg ss) then Some (host k)
                                else cv' !! k) ->
             exists result : installed,
               current_versions_loop (zip (map line ss) ss) cv' = inr result
               /\ forall k, result !! k
                            = if bool_decide (k ∈ map pkg (s :: ss))
                              then Some (host k) else cv !! k).
  { intros cv' Hcv (result & Hr & Hl). exists result. split; [exact Hr|].
    intros k. rewrite Hl. simpl.
    destruct (decide (k ∈ map pkg ss)) as [Hin|Hnin].
    - rewrite !bool_decide_eq_true_2; [reflexivity| |exact Hin].
      apply elem_of_cons. auto.
    - rewrite (bool_decide_eq_false_2 _ Hnin). subst cv'.
      destruct (decide (k = pkg s)) as [->|Hne].
      + rewrite bool_decide_eq_true_2 by (apply elem_of_cons; auto).
        apply lookup_insert_eq.
      + rewrite bool_decide_eq_false_2.
        * apply lookup_insert_ne. congruence.
        * intros [?|?]%elem_of_cons; auto. }
  destruct (host (pkg s)) as [vr|] eqn:Hh.
  - rewrite bool_decide_eq_false_2 by (intros H; apply H; reflexivity).
    apply Hstep; [reflexivity|]. apply IH, Hwf.
  - apply Hstep; [reflexivity|]. apply IH, Hwf.
Qed.

Lemma get_installed_versions_host {World}
    (driver : list string -> World -> (Z * string * string) * World)
    (m : AnsibleModule) (pkgspecs : list PkgSpec) (st : state World) :
  Forall well_formed pkgspecs ->
  (driver (rpm_cmd pkgspecs) (world st)).1.1.2 = unlines (map line pkgspecs) ->
  exists result : installed,
    get_installed_versions driver m pkgspecs st
    = (inr result, logged (DebugCmd "rpm command: %s" (rpm_cmd pkgspecs))
                          (ran driver (rpm_cmd pkgspecs) st))
    /\ forall k, result !! k
                 = if bool_decide (k ∈ map pkg pkgspecs) then Some (host k)
                   else None.
Proof.
  intros Hwf Hout. rewrite get_installed_versions_eq. cbv zeta.
  rewrite Hout, splitlines_unlines.
  - destruct (current_versions_loop_host pkgspecs ∅ Hwf) as (result & Hr & Hl).
    exists result. rewrite Hr. split; [reflexivity|]. intros k.
    rewrite Hl, lookup_empty. reflexivity.
  - apply Forall_map. eapply Forall_impl; [exact Hwf|].
    intros spec [Hn Hs]. unfold line, host_line.
    apply query_line_no_line_end; assumption.
Qed.

(** X5. When [rpm] answers the query with one line for each requested
    package, in request order and in its own format, then
    [get_installed_versions] returns the state of the host restricted to
    the requested names: each requested name is mapped to the installed
    version and release or to "not installed", and nothing else is in the
    mapping. Names, versions and releases are taken non-empty and free of
    white space. *)
Theorem get_installed_versions_round_trip {World}
    (driver : list string -> World -> (Z * string * string) * World)
    (m : AnsibleModule) (pkgspecs : list PkgSpec) (st : state World) :
  Forall well_formed pkgspecs ->
  (driver (rpm_cmd pkgspecs) (world st)).1.1.2 = unlines (map line pkgspecs) ->
  exists result : installed,
    (get_installed_versions driver m pkgspecs st).1 = inr result
    /\ forall k, result !! k
                 = if bool_decide (k ∈ map pkg pkgspecs) then Some (host k)
                   else None.
Proof.
  intros Hwf Hout.
  destruct (get_installed_versions_host driver m pkgspecs st Hwf Hout)
    as (result & Hr & Hl).
  exists result. rewrite Hr. split; [reflexivity|exact Hl].
Qed.

End QueryRoundTrip.

Lemma get_installed_versions_round_trip_witness :
  exists result : installed,
    (get_installed_versions scripted (mkModule false) [spec_a; spec_b]
       (initial [(0, out_a_missing_b_installed, "")])).1 = inr result
    /\ result !! "a" = Some None
    /\ result !! "b" = Some (Some ("1", "1")).
Proof.
  pose (host := fun n : string =>
                  if String.eqb n "b" then Some ("1", "1") else None).
  destruct (get_installed_versions_round_trip host scripted (mkModule false)
              [spec_a; spec_b] (initial [(0, out_a_missing_b_installed, "")]))
    as (result & Hr & Hl).
  - apply Forall_cons. split; [|apply Forall_cons; split; [|constructor]].
    + split; [reflexivity|]. intros v r H. discriminate H.
    + split; [reflexivity|]. intros v r H. injection H as <- <-.
      split; reflexivity.
  - reflexivity.
  - exists result. split; [exact Hr|]. split; rewrite Hl; reflexivity.
Defined.

(** What [rpmoutput_re] takes for a name, a version or a release is never
    the empty string. *)
Lemma rpm_line_parsed (line n v r : string) :
  rpm_line line = Some (n, (v, r)) -> n <> "" /\ v <> "" /\ r <> "".
Proof.
  unfold rpm_line.
  destruct (Re.re_match rpmoutput_re line) as [m|] eqn:H; [|discriminate].
  unfold Re.re_match in H.
  apply ReFacts.rmatch_sound in H as (c & s' & g' & _ & M & [= <-]).
  cbn [rpmoutput_re Re.Matches] in M.
  destruct M as (? & ? & ? & _ & (_ & _ & ->) & M).
  destruct M as (? & ? & ? & _ & (_ & ->) & M).
  destruct M as (N & ? & ? & _ & (? & (HN & _ & ->) & ->) & M).
  destruct M as (? & ? & ? & _ & (_ & ->) & M).
  destruct M as (V & ? & ? & _ & (? & (HV & _ & ->) & ->) & M).
  destruct M as (? & ? & ? & _ & (_ & ->) & M).
  destruct M as (R & ? & ? & _ & (? & (HR & _ & ->) & ->) & (_ & _ & ->)).
  simpl. intros [= <- <- <-]. auto.
Qed.

(** The loop of [get_installed_versions] puts no empty version into the
    mapping. *)
Lemma current_versions_loop_parsed (pairs : list (string * PkgSpec)) :
  forall cv result : installed,
    (forall k v r, cv !! k = Some (Some (v, r)) -> v <> "") ->
    current_versions_loop pairs cv = inr result ->
    forall k v r, result !! k = Some (Some (v, r)) -> v <> "".
Proof.
  induction pairs as [|[line spec] rest IH]; intros cv result Hcv H.
  { simpl in H. injection H as <-. exact Hcv. }
  rewrite current_versions_loop_cons in H.
  destruct (rpm_line line) as [[n [v r]]|] eqn:Hl.
  - destruct (bool_decide _); [discriminate|]. eapply IH; [|exact H].
    intros k v' r'. destruct (decide (k = pkg spec)) as [->|Hne].
    + rewrite lookup_insert_eq. intros [= <- <-].
      apply rpm_line_parsed in Hl. tauto.
    + rewrite lookup_insert_ne by congruence. apply Hcv.
  - eapply IH; [|exact H].
    intros k v' r'. destruct (decide (k = pkg spec)) as [->|Hne].
    + rewrite lookup_insert_eq. discriminate.
    + rewrite lookup_insert_ne by congruence. apply Hcv.
Qed.

Lemma get_installed_versions_parsed {World}
    (driver : list string -> World -> (Z * string * string) * World)
    (m : AnsibleModule) (pkgspecs : list PkgSpec) (st st' : state World)
    (result : installed) :
  get_installed_versions driver m pkgspecs st = (inr result, st') ->
  forall specs : list PkgSpec,
    Forall (fun s => version_parsed result s = true) specs.
Proof.
  rewrite get_installed_versions_eq. cbv zeta. intros [= H _] specs.
  apply Forall_forall. intros s _. unfold version_parsed.
  destruct (result !! pkg s) as [[[v r]|]|] eqn:E; [|reflexivity|reflexivity].
  assert (Hv : v <> "").
  { refine (current_versions_loop_parsed _ ∅ result _ H (pkg s) v r E).
    intros k v' r'. rewrite lookup_empty. discriminate. }
  destruct v; [done|reflexivity].
Qed.

(** ** The install list and the removal list *)

Lemma truthy_dashed (a b : string) : truthy (Some (a +:+ "-" +:+ b)) = true.
Proof. destruct a; reflexivity. Qed.

(** [satisfies_spec] raises only when it has to compare the version alone
    and is given [None] or the empty string for it. *)
Lemma satisfies_spec_strings (spec : PkgSpec) (n : option string) (v r : string) :
  v <> "" -> exists b, satisfies_spec spec n (Some v) (Some r) = inr b.
Proof.
  intros Hv. unfold satisfies_spec. destruct (bool_decide _); [eauto|].
  destruct (truthy (version spec) && truthy (release spec)).
  { unfold LooseVersion_eq. rewrite !truthy_dashed. simpl. eauto. }
  destruct (truthy (version spec)) eqn:Hs; [|eauto].
  unfold LooseVersion_eq. rewrite Hs. destruct v; [done|]. simpl. eauto.
Qed.

Lemma version_parsed_entry (installed_state : installed) (spec : PkgSpec) v r :
  version_parsed installed_state spec = true ->
  installed_state !! pkg spec = Some (Some (v, r)) -> v <> "".
Proof.
  unfold version_parsed. intros H E. rewrite E in H. intros ->. discriminate.
Qed.

Lemma present_loop_spec (installed_state : installed) (pkgspecs : list PkgSpec) :
  Forall (fun s => version_parsed installed_state s = true) pkgspecs ->
  forall acc,
    present_loop pkgspecs installed_state acc
    = match List.find (fun s => negb (installed_in_keys installed_state s))
                      pkgspecs with
      | Some s => inl (KeyError (pkg s))
      | None =>
          inr (acc ++ map rawspec
                        (List.filter
                           (fun s => negb (satisfied_in installed_state s))
                           pkgspecs))
      end.
Proof.
  induction 1 as [|s ss Hp _ IH]; intros acc.
  { simpl. rewrite app_nil_r. reflexivity. }
  simpl. unfold installed_in_keys at 1, satisfied_in at 1.
  destruct (installed_state !! pkg s) as [[[v r]|]|] eqn:Hs; simpl.
  - destruct (satisfies_spec_strings s (Some (pkg s)) v r
                (version_parsed_entry _ _ _ _ Hp Hs)) as [[|] ->].
    + apply IH.
    + rewrite IH. destruct (List.find _ ss); [reflexivity|].
      simpl. rewrite <- app_assoc. reflexivity.
  - replace (satisfies_spec s None None None) with (inr false : result bool).
    2:{ unfold satisfies_spec. rewrite bool_decide_eq_true_2 by discriminate.
        reflexivity. }
    rewrite IH. destruct (List.find _ ss); [reflexivity|].
    simpl. rewrite <- app_assoc. reflexivity.
  - reflexivity.
Qed.

(** Whatever the loop of [package_present] returns is what it was given
    followed by raw specifiers of the request, in request order. *)
Lemma present_loop_sublist (installed_state : installed)
    (pkgspecs : list PkgSpec) :
  forall acc batch,
    present_loop pkgspecs installed_state acc = inr batch ->
    exists more, batch = acc ++ more /\ sublist more (map rawspec pkgspecs).
Proof.
  induction pkgspecs as [|s ss IH]; intros acc batch; simpl.
  { intros [= <-]. exists []. rewrite app_nil_r. split; [reflexivity|constructor]. }
  destruct (installed_state !! pkg s) as [pkgstate|]; [|discriminate].
  destruct (satisfies_spec s _ _ _) as [e|[|]]; [discriminate| |]; intros H.
  - destruct (IH _ _ H) as (more & -> & Hsub).
    exists more. split; [reflexivity|apply sublist_cons, Hsub].
  - destruct (IH _ _ H) as (more & -> & Hsub).
    exists (rawspec s :: more). rewrite <- app_assoc. split; [reflexivity|].
    apply sublist_skip, Hsub.
Qed.

(** With an entry missing, the loop of [package_present] raises. *)
Lemma present_loop_raises (installed_state : installed)
    (pkgspecs : list PkgSpec) spec :
  In spec pkgspecs -> installed_state !! pkg spec = None ->
  forall acc, exists e, present_loop pkgspecs installed_state acc = inl e.
Proof.
  induction pkgspecs as [|s ss IH]; intros Hin Hs acc; [destruct Hin|].
  simpl. destruct (installed_state !! pkg s) as [pkgstate|] eqn:E; [|eauto].
  destruct Hin as [->|Hin]; [congruence|].
  destruct (satisfies_spec s _ _ _) as [e|[|]]; [eauto| |]; apply IH; assumption.
Qed.

Lemma absent_loop_spec (installed_state : installed) (pkgspecs : list PkgSpec) :
  forall acc,
    absent_loop pkgspecs installed_state acc
    = match List.find (fun s => negb (installed_in_keys installed_state s))
                      pkgspecs with
      | Some s => inl (KeyError (pkg s))
      | None =>
          inr (acc ++ map pkg (List.filter (installed_in installed_state)
                                           pkgspecs))
      end.
Proof.
  induction pkgspecs as [|s ss IH]; intros acc.
  { simpl. rewrite app_nil_r. reflexivity. }
  simpl. unfold installed_in_keys at 1, installed_in at 1.
  destruct (installed_state !! pkg s) as [[vr|]|] eqn:Hs; simpl.
  - rewrite IH. destruct (List.find _ ss); [reflexivity|].
    simpl. rewrite <- app_assoc. reflexivity.
  - apply IH.
  - reflexivity.
Qed.

Lemma find_none_keys (installed_state : installed) (pkgspecs : list PkgSpec) :
  Forall (fun s => is_Some (installed_state !! pkg s)) pkgspecs ->
  List.find (fun s => negb (installed_in_keys installed_state s)) pkgspecs = None.
Proof.
  induction 1 as [|s ss [x Hs] _ IH]; [reflexivity|].
  simpl. unfold installed_in_keys at 1. rewrite Hs. exact IH.
Qed.

Lemma find_some_missing (installed_state : installed) (pkgspecs : list PkgSpec) spec :
  In spec pkgspecs -> installed_state !! pkg spec = None ->
  exists s, List.find (fun s => negb (installed_in_keys installed_state s)) pkgspecs
            = Some s
            /\ In s pkgspecs /\ installed_state !! pkg s = None.
Proof.
  intros Hin Hs.
  destruct (List.find _ pkgspecs) as [s|] eqn:Hf.
  - exists s. split; [reflexivity|].
    apply List.find_some in Hf as [Hin' Hk]. split; [exact Hin'|].
    unfold installed_in_keys in Hk.
    destruct (installed_state !! pkg s); [discriminate|reflexivity].
  - exfalso. apply (List.find_none _ _ Hf) in Hin.
    unfold installed_in_keys in Hin. rewrite Hs in Hin. discriminate.
Qed.

Lemma satisfied_has_entry (installed_state : installed) (pkgspecs : list PkgSpec) :
  Forall (fun s => satisfied_in installed_state s = true) pkgspecs ->
  Forall (fun s => is_Some (installed_state !! pkg s)) pkgspecs.
Proof.
  intros H. eapply Forall_impl; [exact H|]. intros s Hs.
  unfold satisfied_in in Hs.
  destruct (installed_state !! pkg s); [eauto|discriminate].
Qed.

Lemma present_loop_all_satisfied (installed_state : installed)
    (pkgspecs : list PkgSpec) :
  Forall (fun s => satisfied_in installed_state s = true) pkgspecs ->
  present_loop pkgspecs installed_state [] = inr [].
Proof.
  generalize (@nil string).
  intros acc H. induction H as [|s ss Hs _ IH]; [reflexivity|].
  simpl. unfold satisfied_in in Hs.
  destruct (installed_state !! pkg s) as [[[v r]|]|]; try discriminate.
  simpl. destruct (satisfies_spec s _ _ _) as [e|[|]]; try discriminate.
  exact IH.
Qed.

Lemma present_loop_some_unsatisfied (installed_state : installed)
    (pkgspecs : list PkgSpec) :
  Forall (fun s => is_Some (installed_state !! pkg s)) pkgspecs ->
  Forall (fun s => version_parsed installed_state s = true) pkgspecs ->
  Exists (fun s => satisfied_in installed_state s = false) pkgspecs ->
  exists batch, present_loop pkgspecs installed_state [] = inr batch
                /\ batch <> [].
Proof.
  intros Hk Hp Hex. eexists. split.
  { rewrite present_loop_spec, find_none_keys by assumption. reflexivity. }
  apply Exists_exists in Hex as (s & Hin & Hs). intros Hnil.
  apply map_eq_nil in Hnil.
  assert (Hf : In s (List.filter
                       (fun s => negb (satisfied_in installed_state s))
                       pkgspecs)).
  { apply List.filter_In. split; [apply list_elem_of_In, Hin|].
    rewrite Hs. reflexivity. }
  rewrite Hnil in Hf. destruct Hf.
Qed.

Lemma absent_loop_entries (installed_state : installed) (pkgspecs : list PkgSpec) :
  Forall (fun s => is_Some (installed_state !! pkg s)) pkgspecs ->
  absent_loop pkgspecs installed_state []
  = inr (map pkg (List.filter (installed_in installed_state) pkgspecs)).
Proof.
  intros Hk. rewrite absent_loop_spec, find_none_keys by exact Hk. reflexivity.
Qed.

Lemma removal_list_not_empty (installed_state : installed)
    (pkgspecs : list PkgSpec) :
  Exists (fun s => installed_in installed_state s = true) pkgspecs ->
  map pkg (List.filter (installed_in installed_state) pkgspecs) <> [].
Proof.
  intros Hex. apply Exists_exists in Hex as (s & Hin & Hs). intros Hnil.
  apply map_eq_nil in Hnil.
  assert (Hf : In s (List.filter (installed_in installed_state) pkgspecs)).
  { apply List.filter_In. split; [apply list_elem_of_In, Hin|exact Hs]. }
  rewrite Hnil in Hf. destruct Hf.
Qed.

Lemma removal_list_empty (installed_state : installed) (pkgspecs : list PkgSpec) :
  Forall (fun s => installed_in installed_state s = false) pkgspecs ->
  map pkg (List.filter (installed_in installed_state) pkgspecs) = [].
Proof.
  induction 1 as [|s ss Hs _ IH]; [reflexivity|]. simpl. rewrite Hs. exact IH.
Qed.

(** X6. When the mapping has an entry for every requested package, and
    no version in these entries is the empty string, the loop of
    [package_present] does not raise, and the install list it collects is
    made of the raw specifiers of exactly the specifiers that are not
    satisfied (package not installed, or installed in another version), in
    request order. *)
Theorem present_loop_install_list (installed_state : installed)
    (pkgspecs : list PkgSpec) :
  Forall (fun s => is_Some (installed_state !! pkg s)) pkgspecs ->
  Forall (fun s => version_parsed installed_state s = true) pkgspecs ->
  present_loop pkgspecs installed_state []
  = inr (map rawspec
           (List.filter (fun s => negb (satisfied_in installed_state s))
                        pkgspecs)).
Proof.
  intros Hk Hp.
  rewrite present_loop_spec, find_none_keys by assumption. reflexivity.
Qed.

Lemma present_loop_install_list_witness :
  present_loop [foo_2_0; spec_a] {["foo" := None; "a" := Some ("1", "1")]} []
  = inr ["foo=2.0"].
Proof.
  rewrite present_loop_install_list; [reflexivity| |].
  - apply Forall_cons. split; [eexists; reflexivity|].
    apply Forall_cons. split; [eexists; reflexivity|constructor].
  - apply Forall_cons. split; [reflexivity|].
    apply Forall_cons. split; [reflexivity|constructor].
Defined.

Section Operations.

Context {World : Type}.
Variable driver : list string -> World -> (Z * string * string) * World.
Variable package_type : option string.
Variables (m : AnsibleModule) (pkgspecs : list PkgSpec)
          (installed_state : installed)
          (disable_gpg_check disable_recommends old_zypper : bool).
Implicit Types (st : state World).

Lemma package_absent_KeyError st s :
  List.find (fun s => negb (installed_in_keys installed_state s)) pkgspecs
  = Some s ->
  package_absent driver m pkgspecs installed_state old_zypper st
  = (inl (KeyError (pkg s)), st).
Proof.
  intros Hf. unfold package_absent, bind. rewrite absent_loop_spec, Hf.
  reflexivity.
Qed.

Lemma operations_KeyError st s :
  Forall (fun s => version_parsed installed_state s = true) pkgspecs ->
  List.find (fun s => negb (installed_in_keys installed_state s)) pkgspecs
  = Some s ->
  package_present driver package_type m pkgspecs installed_state
    disable_gpg_check disable_recommends old_zypper st
  = (inl (KeyError (pkg s)), st)
  /\ package_latest driver package_type m pkgspecs installed_state
       disable_gpg_check disable_recommends old_zypper st
     = (inl (KeyError (pkg s)), st)
  /\ package_absent driver m pkgspecs installed_state old_zypper st
     = (inl (KeyError (pkg s)), st).
Proof.
  intros Hp Hf.
  assert (H : package_present driver package_type m pkgspecs installed_state
                disable_gpg_check disable_recommends old_zypper st
              = (inl (KeyError (pkg s)), st)).
  { apply package_present_error. rewrite present_loop_spec, Hf by exact Hp.
    reflexivity. }
  split; [exact H|]. split.
  - apply package_latest_error, H.
  - apply package_absent_KeyError, Hf.
Qed.

Lemma package_absent_nothing st :
  absent_loop pkgspecs installed_state [] = inr [] ->
  package_absent driver m pkgspecs installed_state old_zypper st
  = (inr (0, "", "", false), st).
Proof. intros H. unfold package_absent, bind. rewrite H. reflexivity. Qed.

Lemma package_absent_some st names :
  absent_loop pkgspecs installed_state [] = inr names -> names <> [] ->
  let cmd := remove_cmd names in
  let st1 := logged (DebugCmd "zypper remove command: %s" cmd) st in
  package_absent driver m pkgspecs installed_state old_zypper st
  = if check_mode m then (inr (0, "", "", true), st1)
    else let r := (driver cmd (world st)).1 in
         (inr (r.1.1, r.1.2, r.2, bool_decide (r.1.1 = 0)), ran driver cmd st1).
Proof.
  intros H Hne. unfold package_absent, bind. rewrite H.
  destruct names as [|b batch]; [done|].
  cbn [lift ret length Nat.ltb Nat.leb]. cbv zeta. unfold remove_cmd.
  match goal with |- context [write_debug ?msg st] =>
    change (write_debug msg st) with (inr tt : result unit, logged msg st)
  end.
  cbv iota beta. destruct (check_mode m); cbn [negb]; [reflexivity|].
  rewrite run_command_eq.
  match goal with |- context [world (logged ?msg st)] =>
    change (world (logged msg st)) with (world st)
  end.
  destruct (driver _ (world st)) as [[[rc out] err] w]. reflexivity.
Qed.

(** X7. When every requested specifier is satisfied by the mapping,
    [package_present] runs no command, logs nothing and returns rc 0 with
    empty output and [changed] false, whatever [package_type] is bound
    to. *)
Theorem package_present_all_satisfied st :
  Forall (fun s => satisfied_in installed_state s = true) pkgspecs ->
  package_present driver package_type m pkgspecs installed_state
    disable_gpg_check disable_recommends old_zypper st
  = (inr (0, "", "", false), st).
Proof.
  intros H. apply package_present_satisfied.
  apply present_loop_all_satisfied, H.
Qed.

(** X8. When the mapping has no entry for a requested package,
    [package_absent] raises [KeyError] for a requested package without
    entry, and [package_present] and [package_latest] raise too, each
    before it logs or runs anything. What these two raise is that
    [KeyError] when no version in the mapping is the empty string; with
    such a version [satisfies_spec] may raise at an earlier specifier. *)
Theorem missing_entry_raises_KeyError st spec :
  In spec pkgspecs -> installed_state !! pkg spec = None ->
  (exists s, In s pkgspecs /\ installed_state !! pkg s = None
     /\ package_absent driver m pkgspecs installed_state old_zypper st
        = (inl (KeyError (pkg s)), st)
     /\ (Forall (fun s => version_parsed installed_state s = true) pkgspecs ->
         package_present driver package_type m pkgspecs installed_state
           disable_gpg_check disable_recommends old_zypper st
         = (inl (KeyError (pkg s)), st)
         /\ package_latest driver package_type m pkgspecs installed_state
              disable_gpg_check disable_recommends old_zypper st
            = (inl (KeyError (pkg s)), st)))
  /\ (exists e,
         package_present driver package_type m pkgspecs installed_state
           disable_gpg_check disable_recommends old_zypper st
         = (inl e, st)
         /\ package_latest driver package_type m pkgspecs installed_state
              disable_gpg_check disable_recommends old_zypper st
            = (inl e, st)).
Proof.
  intros Hin Hs. split.
  - destruct (find_some_missing installed_state pkgspecs spec Hin Hs)
      as (s & Hf & Hin' & Hs').
    exists s. split; [exact Hin'|]. split; [exact Hs'|]. split.
    + apply package_absent_KeyError, Hf.
    + intros Hp. destruct (operations_KeyError st s Hp Hf) as (H1 & H2 & _).
      split; assumption.
  - destruct (present_loop_raises installed_state pkgspecs spec Hin Hs [])
      as [e He].
    pose proof (package_present_error driver package_type m pkgspecs
                  installed_state disable_gpg_check disable_recommends
                  old_zypper e st He) as H.
    exists e. split; [exact H|]. apply package_latest_error, H.
Qed.

(** X9. Outside check mode, when the mapping has an entry for every
    requested package and at least one of them is installed,
    [package_absent] runs exactly one command, [zypper --non-interactive
    remove] followed by the names of the installed ones in request order,
    after logging it; it returns the exit code and the output of that
    command, and [changed] is true exactly when the exit code is 0. *)
Theorem package_absent_removes_installed st :
  check_mode m = false ->
  Forall (fun s => is_Some (installed_state !! pkg s)) pkgspecs ->
  Exists (fun s => installed_in installed_state s = true) pkgspecs ->
  let cmd := remove_cmd (map pkg (List.filter (installed_in installed_state)
                                              pkgspecs)) in
  let r := (driver cmd (world st)).1 in
  package_absent driver m pkgspecs installed_state old_zypper st
  = (inr (r.1.1, r.1.2, r.2, bool_decide (r.1.1 = 0)),
     ran driver cmd (logged (DebugCmd "zypper remove command: %s" cmd) st)).
Proof.
  intros Hm Hk Hex.
  rewrite (package_absent_some st _ (absent_loop_entries _ _ Hk)
             (removal_list_not_empty _ _ Hex)).
  rewrite Hm. reflexivity.
Qed.

(** X10. [package_absent] runs no command when none of the requested
    packages is installed, and then changes nothing at all and reports no
    change; in check mode it runs no command either, and when a requested
    package is installed it only logs the removal command and reports a
    change with exit code 0. *)
Theorem package_absent_runs_nothing st :
  Forall (fun s => is_Some (installed_state !! pkg s)) pkgspecs ->
  (Forall (fun s => installed_in installed_state s = false) pkgspecs ->
   package_absent driver m pkgspecs installed_state old_zypper st
   = (inr (0, "", "", false), st))
  /\ (check_mode m = true ->
      Exists (fun s => installed_in installed_state s = true) pkgspecs ->
      let cmd := remove_cmd (map pkg (List.filter (installed_in installed_state)
                                                  pkgspecs)) in
      package_absent driver m pkgspecs installed_state old_zypper st
      = (inr (0, "", "", true),
         logged (DebugCmd "zypper remove command: %s" cmd) st)).
Proof.
  intros Hk. split.
  - intros Hnone. apply package_absent_nothing.
    rewrite absent_loop_entries by exact Hk.
    rewrite removal_list_empty by exact Hnone. reflexivity.
  - intros Hm Hex.
    rewrite (package_absent_some st _ (absent_loop_entries _ _ Hk)
               (removal_list_not_empty _ _ Hex)).
    rewrite Hm. reflexivity.
Qed.

End Operations.

Lemma package_present_all_satisfied_witness :
  package_present scripted zypper_package_type (mkModule false) [spec_A] A_1_0
    false true false (initial [])
  = (inr (0, "", "", false), initial []).
Proof.
  apply package_present_all_satisfied.
  apply Forall_cons. split; [vm_compute; reflexivity|constructor].
Defined.

Lemma missing_entry_raises_KeyError_witness :
  package_absent scripted (mkModule false) [spec_a] ∅ false (initial [])
  = (inl (KeyError "a"), initial [])
  /\ package_present scripted zypper_package_type (mkModule false) [spec_a] ∅
       false true false (initial [])
     = (inl (KeyError "a"), initial []).
Proof.
  destruct (missing_entry_raises_KeyError scripted zypper_package_type
              (mkModule false) [spec_a] ∅ false true false (initial []) spec_a)
    as [(s & Hin & _ & Ha & Hp) _].
  - left. reflexivity.
  - reflexivity.
  - destruct Hin as [<-|[]]. split; [exact Ha|]. apply Hp.
    apply Forall_cons. split; [reflexivity|constructor].
Defined.

Lemma package_absent_removes_installed_witness :
  package_absent scripted (mkModule false) [spec_bar] bar_3_0 false
    (initial [(0, "", "")])
  = (inr (0, "", "", true),
     ran scripted (remove_cmd ["bar"])
       (logged (DebugCmd "zypper remove command: %s" (remove_cmd ["bar"]))
               (initial [(0, "", "")]))).
Proof.
  apply (package_absent_removes_installed scripted (mkModule false) [spec_bar]
           bar_3_0 false (initial [(0, "", "")])).
  - reflexivity.
  - apply Forall_cons. split; [eexists; reflexivity|constructor].
  - apply Exists_cons_hd. vm_compute. reflexivity.
Defined.

Lemma package_absent_runs_nothing_witness :
  package_absent scripted (mkModule false) [spec_bar] {["bar" := None]} false
    (initial [(0, "", "")])
  = (inr (0, "", "", false), initial [(0, "", "")])
  /\ package_absent scripted (mkModule true) [spec_bar] bar_3_0 false
       (initial [(0, "", "")])
     = (inr (0, "", "", true),
        logged (DebugCmd "zypper remove command: %s" (remove_cmd ["bar"]))
               (initial [(0, "", "")])).
Proof.
  split.
  - apply (package_absent_runs_nothing scripted (mkModule false) [spec_bar]
             {["bar" := None]} false (initial [(0, "", "")])).
    + apply Forall_cons. split; [eexists; reflexivity|constructor].
    + apply Forall_cons. split; [vm_compute; reflexivity|constructor].
  - apply (package_absent_runs_nothing scripted (mkModule true) [spec_bar]
             bar_3_0 false (initial [(0, "", "")])).
    + apply Forall_cons. split; [eexists; reflexivity|constructor].
    + reflexivity.
    + apply Exists_cons_hd. vm_compute. reflexivity.
Defined.

(** X26. A version that is the empty string in the mapping makes the
    comparison of versions raise: when the first requested specifier has a
    version and no release, and the mapping holds the empty string as the
    version of its package, [package_present] and [package_latest] raise
    [AttributeError] before anything is logged or run, whatever follows in
    the request. *)
Theorem empty_version_raises_AttributeError {World}
    (driver : list string -> World -> (Z * string * string) * World)
    (package_type : option string)
    (m : AnsibleModule) (spec : PkgSpec) (rest : list PkgSpec)
    (installed_state : installed) (r : string)
    (disable_gpg_check disable_recommends old_zypper : bool)
    (st : state World) :
  truthy (version spec) = true -> truthy (release spec) = false ->
  installed_state !! pkg spec = Some (Some ("", r)) ->
  package_present driver package_type m (spec :: rest) installed_state
    disable_gpg_check disable_recommends old_zypper st
  = (inl (AttributeError "version"), st)
  /\ package_latest driver package_type m (spec :: rest) installed_state
       disable_gpg_check disable_recommends old_zypper st
     = (inl (AttributeError "version"), st).
Proof.
  intros Hv Hr Hs.
  assert (H : package_present driver package_type m (spec :: rest)
                installed_state disable_gpg_check disable_recommends
                old_zypper st
              = (inl (AttributeError "version"), st)).
  { apply package_present_error. simpl. rewrite Hs. simpl.
    unfold satisfies_spec.
    rewrite bool_decide_eq_false_2 by (intros Hx; apply Hx; reflexivity).
    rewrite Hv, Hr. simpl. unfold LooseVersion_eq. rewrite Hv. reflexivity. }
  split; [exact H|]. apply package_latest_error, H.
Qed.

Lemma empty_version_raises_AttributeError_witness :
  package_present scripted zypper_package_type (mkModule false) [foo_2_0]
    {["foo" := Some ("", "1")]} false true false (initial [])
  = (inl (AttributeError "version"), initial []).
Proof.
  apply (empty_version_raises_AttributeError scripted zypper_package_type
           (mkModule false) foo_2_0 [] {["foo" := Some ("", "1")]} "1");
    reflexivity.
Defined.

(** ** The entry point *)

Section MainFacts.

Context {World : Type}.
Variable driver : list string -> World -> (Z * string * string) * World.
Variable package_type : option string.
Variable show_versions : installed -> list string.
Variables (module : AnsibleModule) (params : params).
Implicit Types (st : state World).

Let run := main driver package_type show_versions module params.
Let query := get_installed_versions driver module.

(** [main], stage by stage. *)
Lemma main_eq st :
  run st =
  let st0 := flagged (p_debug_in_stderr params) st in
  match parse_all (p_name params) with
  | inl e => (inl e, st0)
  | inr pkgspecs =>
      let st1 := ran driver probe_cmd st0 in
      let old_zypper :=
        old_zypper_of (probe_text (driver probe_cmd (world st0)).1) in
      match query pkgspecs st1 with
      | (inl e, st2) => (inl e, st2)
      | (inr installed_versions, st2) =>
          let st3 := logged (pre_msg (show_versions installed_versions)) st2 in
          match operation driver package_type module (p_state params) pkgspecs
                  installed_versions (p_disable_gpg_check params)
                  (p_disable_recommends params) old_zypper st3 with
          | (inl e, st4) => (inl e, st4)
          | (inr (rc, stdout, stderr, changed), st4) =>
              if bool_decide (rc = 0) then
                match query pkgspecs st4 with
                | (inl e, st5) => (inl e, st5)
                | (inr after, st5) =>
                    let st6 := logged (post_msg (show_versions after)) st5 in
                    (inr (exit_json
                            (mkResult (p_name params) (p_state params) changed
                               (if p_debug_in_result params
                                then Some (debug_messages st6) else None))),
                     st6)
                end
              else
                (inr (fail_json (if Re.is_empty stderr then stdout else stderr)),
                 st4)
          end
      end
  end.
Proof.
  unfold run, main, bind. cbn [set_debug_to_stderr]. fold (flagged (p_debug_in_stderr params) st).
  cbv zeta. destruct (parse_all (p_name params)) as [e|pkgspecs]; [reflexivity|].
  cbn [lift ret]. unfold zypper_version, bind. fold probe_cmd.
  rewrite run_command_eq. unfold probe_text.
  destruct (driver probe_cmd (world (flagged (p_debug_in_stderr params) st)))
    as [[[rc0 out0] err0] w0] eqn:Hd. cbn [fst snd].
  assert (Hprobe : forall k : Z * string -> state World -> result outcome * state World,
             (let (r, st') :=
                (if bool_decide (rc0 = 0) then ret World (rc0, out0)
                 else ret World (rc0, err0))
                  (ran driver probe_cmd (flagged (p_debug_in_stderr params) st)) in
              match r with inl e => (inl e, st') | inr a => k a st' end)
             = k (rc0, if bool_decide (rc0 = 0) then out0 else err0)
                 (ran driver probe_cmd (flagged (p_debug_in_stderr params) st))).
  { intros k. destruct (bool_decide (rc0 = 0)); reflexivity. }
  rewrite Hprobe. clear Hprobe. fold query.
  destruct (query pkgspecs _) as [[e|iv] st2]; [reflexivity|].
  change (write_debug ?m st2) with (inr tt : result unit, logged m st2).
  cbv iota beta. fold (pre_msg (show_versions iv)).
  change (write_debug (pre_msg (show_versions iv)) st2)
    with (inr tt : result unit, logged (pre_msg (show_versions iv)) st2).
  cbv iota beta.
  match goal with |- context [match p_state params with St_absent => _ | _ => _ end ?s] =>
    change (match p_state params with St_absent => _ | _ => _ end s)
      with (operation driver package_type module (p_state params) pkgspecs iv
              (p_disable_gpg_check params) (p_disable_recommends params)
              (old_zypper_of (if bool_decide (rc0 = 0) then out0 else err0)) s)
  end.
  destruct (operation _ _ _ _ _ _ _ _ _ _) as [[e|[[[rc out] err] changed]] st4];
    [reflexivity|].
  destruct (bool_decide (rc = 0)); cbn [negb].
  - destruct (query pkgspecs st4) as [[e|after] st5]; [reflexivity|].
    fold (post_msg (show_versions after)).
    change (write_debug (post_msg (show_versions after)) st5)
      with (inr tt : result unit, logged (post_msg (show_versions after)) st5).
    cbv iota beta. destruct (p_debug_in_result params); reflexivity.
  - destruct (Re.is_empty err); reflexivity.
Qed.

Lemma parse_all_error (names : list string) p e :
  In p names -> PkgSpec_init p = inl e -> exists e', parse_all names = inl e'.
Proof.
  induction names as [|q names IH]; intros Hin Hp; [destruct Hin|].
  simpl. destruct (PkgSpec_init q) as [e1|spec] eqn:Hq; [eauto|].
  destruct Hin as [->|Hin]; [congruence|].
  destruct (IH Hin Hp) as [e' ->]. eauto.
Qed.

(** X11. A specifier that [PkgSpec] rejects ends [main] with the exception
    before any command is run: the host and the list of commands are as
    they were, and only the flag [debug_to_stderr] has been set. *)
Theorem main_rejects_before_running st p e :
  In p (p_name params) -> PkgSpec_init p = inl e ->
  exists e', run st = (inl e', flagged (p_debug_in_stderr params) st)
             /\ calls (run st).2 = calls st /\ world (run st).2 = world st.
Proof.
  intros Hin Hp. destruct (parse_all_error _ _ _ Hin Hp) as [e' He].
  exists e'. rewrite main_eq. cbv zeta. rewrite He. auto.
Qed.

Section Run.

(** A run in which the specifiers parse and the first query answers. *)
Variables (pkgspecs : list PkgSpec) (installed_versions : installed).
Variable st : state World.
Variable st2 : state World.
Hypothesis Hparse : parse_all (p_name params) = inr pkgspecs.
Hypothesis Hquery :
  query pkgspecs (ran driver probe_cmd (flagged (p_debug_in_stderr params) st))
  = (inr installed_versions, st2).

Let st3 := logged (pre_msg (show_versions installed_versions)) st2.
Let old_zypper :=
  old_zypper_of
    (probe_text (driver probe_cmd (world (flagged (p_debug_in_stderr params) st))).1).

Lemma calls_st3 : calls st3 = calls st ++ [probe_cmd; rpm_cmd pkgspecs].
Proof.
  unfold st3. rewrite calls_logged.
  pose proof (calls_get_installed_versions driver module pkgspecs
                (ran driver probe_cmd (flagged (p_debug_in_stderr params) st)))
    as H.
  fold query in H. rewrite Hquery in H. simpl in H. rewrite H, calls_ran.
  rewrite <- app_assoc. reflexivity.
Qed.

Lemma run_eq :
  run st =
  match operation driver package_type module (p_state params) pkgspecs
          installed_versions (p_disable_gpg_check params)
          (p_disable_recommends params) old_zypper st3 with
  | (inl e, st4) => (inl e, st4)
  | (inr (rc, stdout, stderr, changed), st4) =>
      if bool_decide (rc = 0) then
        match query pkgspecs st4 with
        | (inl e, st5) => (inl e, st5)
        | (inr after, st5) =>
            let st6 := logged (post_msg (show_versions after)) st5 in
            (inr (exit_json
                    (mkResult (p_name params) (p_state params) changed
                       (if p_debug_in_result params
                        then Some (debug_messages st6) else None))),
             st6)
        end
      else
        (inr (fail_json (if Re.is_empty stderr then stdout else stderr)), st4)
  end.
Proof. rewrite main_eq. cbv zeta. rewrite Hparse, Hquery. reflexivity. Qed.

(** Where [package_type] is not bound, an operation that has to install
    raises [NameError] and leaves the state as it was. *)
Lemma operation_unbound state disable_gpg_check disable_recommends old st' :
  package_type = None ->
  state = St_present \/ state = St_installed \/ state = St_latest ->
  Forall (fun s => is_Some (installed_versions !! pkg s)) pkgspecs ->
  Forall (fun s => version_parsed installed_versions s = true) pkgspecs ->
  Exists (fun s => satisfied_in installed_versions s = false) pkgspecs ->
  operation driver package_type module state pkgspecs installed_versions
    disable_gpg_check disable_recommends old st'
  = (inl (NameError "package_type"), st').
Proof.
  intros Hpt Hstate Hk Hv Hex.
  destruct (present_loop_some_unsatisfied installed_versions pkgspecs Hk Hv Hex)
    as (batch & Hb & Hne).
  pose proof (package_present_unbound driver package_type module pkgspecs
                installed_versions disable_gpg_check disable_recommends old
                batch st' Hpt Hb Hne) as Hp.
  unfold operation. destruct Hstate as [->|[->| ->]]; try exact Hp.
  apply package_latest_error, Hp.
Qed.

(** X12. In the module's own namespace, a run that asks for [present],
    [installed] or [latest] while a requested specifier is not satisfied
    (its package is not installed, or not in the requested version) ends
    with [NameError] for [package_type]. The only commands run are the
    version probe and the query: nothing is installed or upgraded. *)
Theorem main_cannot_install :
  package_type = zypper_package_type ->
  p_state params = St_present \/ p_state params = St_installed
  \/ p_state params = St_latest ->
  Forall (fun s => is_Some (installed_versions !! pkg s)) pkgspecs ->
  Exists (fun s => satisfied_in installed_versions s = false) pkgspecs ->
  run st = (inl (NameError "package_type"), st3)
  /\ calls (run st).2 = calls st ++ [probe_cmd; rpm_cmd pkgspecs].
Proof.
  intros Hpt Hstate Hk Hex.
  assert (Hrun : run st = (inl (NameError "package_type"), st3)).
  { pose proof (get_installed_versions_parsed driver module pkgspecs _ _ _
                  Hquery pkgspecs) as Hv.
    rewrite run_eq, (operation_unbound _ _ _ _ _ Hpt Hstate Hk Hv Hex).
    reflexivity. }
  split; [exact Hrun|]. rewrite Hrun. apply calls_st3.
Qed.

(** Outside check mode, a removal with something to remove. *)
Lemma operation_removes state disable_gpg_check disable_recommends old st' :
  state = St_absent \/ state = St_removed ->
  check_mode module = false ->
  Forall (fun s => is_Some (installed_versions !! pkg s)) pkgspecs ->
  Exists (fun s => installed_in installed_versions s = true) pkgspecs ->
  let cmd := remove_cmd (map pkg (List.filter (installed_in installed_versions)
                                              pkgspecs)) in
  let r := (driver cmd (world st')).1 in
  operation driver package_type module state pkgspecs installed_versions
    disable_gpg_check disable_recommends old st'
  = (inr (r.1.1, r.1.2, r.2, bool_decide (r.1.1 = 0)),
     ran driver cmd (logged (DebugCmd "zypper remove command: %s" cmd) st')).
Proof.
  intros Hstate Hm Hk Hex. unfold operation.
  pose proof (package_absent_some driver module pkgspecs installed_versions
                old st' _ (absent_loop_entries _ _ Hk)
                (removal_list_not_empty _ _ Hex)) as H.
  cbv zeta in H. rewrite Hm in H. destruct Hstate as [-> | ->]; exact H.
Qed.

(** X13. A run that asks for [absent] or [removed] outside check mode,
    with every requested package in the mapping and at least one of them
    installed, runs the removal of the installed ones. If that command
    exits with another code than 0, the run ends with [fail_json], with
    the error output of the command as message, or its output when the
    error output is empty, and no command follows the removal. *)
Theorem main_removal_failure :
  p_state params = St_absent \/ p_state params = St_removed ->
  check_mode module = false ->
  Forall (fun s => is_Some (installed_versions !! pkg s)) pkgspecs ->
  Exists (fun s => installed_in installed_versions s = true) pkgspecs ->
  let cmd := remove_cmd (map pkg (List.filter (installed_in installed_versions)
                                              pkgspecs)) in
  let r := (driver cmd (world st2)).1 in
  r.1.1 <> 0 ->
  (run st).1 = inr (fail_json (if Re.is_empty r.2 then r.1.2 else r.2))
  /\ calls (run st).2 = calls st ++ [probe_cmd; rpm_cmd pkgspecs; cmd].
Proof.
  intros Hstate Hm Hk Hex cmd r Hrc.
  pose proof (operation_removes (p_state params) (p_disable_gpg_check params)
                (p_disable_recommends params) old_zypper st3 Hstate Hm Hk Hex)
    as Ha.
  cbv zeta in Ha. fold cmd in Ha. change (world st3) with (world st2) in Ha.
  fold r in Ha.
  rewrite run_eq, Ha. rewrite (bool_decide_eq_false_2 _ Hrc). cbn [fst snd].
  split; [reflexivity|].
  rewrite calls_ran, calls_logged, calls_st3, <- app_assoc. reflexivity.
Qed.

(** X14. In the same situation, when the removal exits with code 0 and
    the query after it answers, the run ends with [exit_json], reports a
    change, and has run four commands: the probe, the query, the removal
    and the query again. *)
Theorem main_removal_success after st5 :
  p_state params = St_absent \/ p_state params = St_removed ->
  check_mode module = false ->
  Forall (fun s => is_Some (installed_versions !! pkg s)) pkgspecs ->
  Exists (fun s => installed_in installed_versions s = true) pkgspecs ->
  let cmd := remove_cmd (map pkg (List.filter (installed_in installed_versions)
                                              pkgspecs)) in
  let r := (driver cmd (world st2)).1 in
  r.1.1 = 0 ->
  query pkgspecs
    (ran driver cmd (logged (DebugCmd "zypper remove command: %s" cmd) st3))
  = (inr after, st5) ->
  (exists debug_output,
      (run st).1 = inr (exit_json (mkResult (p_name params) (p_state params)
                                            true debug_output)))
  /\ calls (run st).2
     = calls st ++ [probe_cmd; rpm_cmd pkgspecs; cmd; rpm_cmd pkgspecs].
Proof.
  intros Hstate Hm Hk Hex cmd r Hrc Hq.
  pose proof (operation_removes (p_state params) (p_disable_gpg_check params)
                (p_disable_recommends params) old_zypper st3 Hstate Hm Hk Hex)
    as Ha.
  cbv zeta in Ha. fold cmd in Ha. change (world st3) with (world st2) in Ha.
  fold r in Ha.
  rewrite run_eq, Ha. rewrite (bool_decide_eq_true_2 _ Hrc), Hq. cbn [fst snd].
  split; [eauto|]. rewrite calls_logged.
  pose proof (calls_get_installed_versions driver module pkgspecs
                (ran driver cmd
                   (logged (DebugCmd "zypper remove command: %s" cmd) st3)))
    as H.
  fold query in H. rewrite Hq in H. simpl in H.
  rewrite H, calls_ran, calls_logged, calls_st3, <- !app_assoc. reflexivity.
Qed.

(** The operation has nothing to do. *)
Lemma operation_nothing_to_do state disable_gpg_check disable_recommends
    old st' :
  ((state = St_present \/ state = St_installed)
   /\ Forall (fun s => satisfied_in installed_versions s = true) pkgspecs)
  \/ ((state = St_absent \/ state = St_removed)
      /\ Forall (fun s => is_Some (installed_versions !! pkg s)) pkgspecs
      /\ Forall (fun s => installed_in installed_versions s = false) pkgspecs) ->
  operation driver package_type module state pkgspecs installed_versions
    disable_gpg_check disable_recommends old st'
  = (inr (0, "", "", false), st').
Proof.
  unfold operation. intros [[Hs Hall]|[Hs [Hk Hnone]]].
  - destruct Hs as [-> | ->];
      apply package_present_satisfied, present_loop_all_satisfied, Hall.
  - destruct Hs as [-> | ->]; apply package_absent_nothing;
      rewrite absent_loop_entries by exact Hk;
      rewrite removal_list_empty by exact Hnone; reflexivity.
Qed.

(** A run whose operation does nothing and reports no change. *)
Lemma run_unchanged after st5 :
  operation driver package_type module (p_state params) pkgspecs
    installed_versions (p_disable_gpg_check params)
    (p_disable_recommends params) old_zypper st3
  = (inr (0, "", "", false), st3) ->
  query pkgspecs st3 = (inr after, st5) ->
  (exists debug_output,
      (run st).1 = inr (exit_json (mkResult (p_name params) (p_state params)
                                            false debug_output)))
  /\ calls (run st).2
     = calls st ++ [probe_cmd; rpm_cmd pkgspecs; rpm_cmd pkgspecs].
Proof.
  intros Ha Hq.
  rewrite run_eq, Ha. rewrite bool_decide_eq_true_2 by reflexivity.
  rewrite Hq. cbn [fst snd]. split; [eauto|]. rewrite calls_logged.
  pose proof (calls_get_installed_versions driver module pkgspecs st3) as H.
  fold query in H. rewrite Hq in H. cbn [snd] in H.
  rewrite H, calls_st3, <- !app_assoc. reflexivity.
Qed.

(** X15. A run changes nothing when nothing needs to change: for
    [present] or [installed] with every specifier satisfied, and for
    [absent] or [removed] with none of the packages installed, the only
    commands run are the probe and the two queries, and the run ends with
    [exit_json] and [changed] false, provided the second query answers. *)
Theorem main_nothing_to_do after st5 :
  ((p_state params = St_present \/ p_state params = St_installed)
   /\ Forall (fun s => satisfied_in installed_versions s = true) pkgspecs)
  \/ ((p_state params = St_absent \/ p_state params = St_removed)
      /\ Forall (fun s => is_Some (installed_versions !! pkg s)) pkgspecs
      /\ Forall (fun s => installed_in installed_versions s = false) pkgspecs) ->
  query pkgspecs st3 = (inr after, st5) ->
  (exists debug_output,
      (run st).1 = inr (exit_json (mkResult (p_name params) (p_state params)
                                            false debug_output)))
  /\ calls (run st).2
     = calls st ++ [probe_cmd; rpm_cmd pkgspecs; rpm_cmd pkgspecs].
Proof.
  intros Hcase Hq. apply (run_unchanged after st5); [|exact Hq].
  apply operation_nothing_to_do, Hcase.
Qed.

End Run.

End MainFacts.

Lemma main_rejects_before_running_witness :
  exists e',
    main scripted zypper_package_type show_nothing (mkModule false)
         (run_params ["bar"; "pkg>=1.0"] St_present) (initial [probe_says])
    = (inl e', flagged false (initial [probe_says])).
Proof.
  destruct (main_rejects_before_running scripted zypper_package_type
              show_nothing (mkModule false)
              (run_params ["bar"; "pkg>=1.0"] St_present)
              (initial [probe_says]) "pkg>=1.0"
              (Exception "unsupported package spec operator >="))
    as (e' & H & _).
  - right. left. reflexivity.
  - reflexivity.
  - exists e'. exact H.
Defined.

Lemma main_cannot_install_witness :
  (main scripted zypper_package_type show_nothing (mkModule false)
        (run_params ["foo=2.0"] St_present)
        (initial [probe_says; foo_missing])).1
  = inl (NameError "package_type").
Proof.
  edestruct (main_cannot_install scripted zypper_package_type show_nothing
               (mkModule false) (run_params ["foo=2.0"] St_present)
               [foo_2_0] {["foo" := None]}
               (initial [probe_says; foo_missing])) as [H _].
  - reflexivity.
  - vm_compute. reflexivity.
  - reflexivity.
  - left. reflexivity.
  - apply Forall_cons. split; [eexists; reflexivity|constructor].
  - apply Exists_cons_hd. vm_compute. reflexivity.
  - rewrite H. reflexivity.
Defined.

Lemma main_removal_failure_witness :
  (main scripted zypper_package_type show_nothing (mkModule false)
        (run_params ["bar"] St_absent)
        (initial [probe_says; bar_installed; (4, "", "not found")])).1
  = inr (fail_json "not found").
Proof.
  edestruct (main_removal_failure scripted zypper_package_type show_nothing
               (mkModule false) (run_params ["bar"] St_absent)
               [spec_bar] bar_3_0
               (initial [probe_says; bar_installed; (4, "", "not found")]))
    as [H _].
  - reflexivity.
  - vm_compute. reflexivity.
  - left. reflexivity.
  - reflexivity.
  - apply Forall_cons. split; [eexists; reflexivity|constructor].
  - apply Exists_cons_hd. vm_compute. reflexivity.
  - vm_compute. discriminate.
  - rewrite H. reflexivity.
Defined.

Lemma main_removal_success_witness :
  exists debug_output,
    (main scripted zypper_package_type show_nothing (mkModule false)
          (run_params ["bar"] St_absent)
          (initial [probe_says; bar_installed; (0, "", ""); bar_missing])).1
    = inr (exit_json (mkResult ["bar"] St_absent true debug_output)).
Proof.
  edestruct (main_removal_success scripted zypper_package_type show_nothing
               (mkModule false) (run_params ["bar"] St_absent)
               [spec_bar] bar_3_0
               (initial [probe_says; bar_installed; (0, "", ""); bar_missing]))
    as [H _].
  - reflexivity.
  - vm_compute. reflexivity.
  - left. reflexivity.
  - reflexivity.
  - apply Forall_cons. split; [eexists; reflexivity|constructor].
  - apply Exists_cons_hd. vm_compute. reflexivity.
  - vm_compute. reflexivity.
  - vm_compute. reflexivity.
  - exact H.
Defined.

Lemma main_nothing_to_do_witness :
  exists debug_output,
    (main scripted zypper_package_type show_nothing (mkModule false)
          (run_params ["bar"] St_absent)
          (initial [probe_says; bar_missing; bar_missing])).1
    = inr (exit_json (mkResult ["bar"] St_absent false debug_output)).
Proof.
  edestruct (main_nothing_to_do scripted zypper_package_type show_nothing
               (mkModule false) (run_params ["bar"] St_absent)
               [spec_bar] {["bar" := None]}
               (initial [probe_says; bar_missing; bar_missing]))
    as [H _].
  - reflexivity.
  - vm_compute. reflexivity.
  - right. split; [left; reflexivity|]. split.
    + apply Forall_cons. split; [eexists; reflexivity|constructor].
    + apply Forall_cons. split; [vm_compute; reflexivity|constructor].
  - vm_compute. reflexivity.
  - exact H.
Defined.

(** ** The version probe *)

Lemma decimal_not_white_space c : decimal c = true -> white_space c = false.
Proof.
  destruct c as [[] [] [] [] [] [] [] []]; vm_compute; congruence.
Qed.

Lemma head_fails_app_cons p q (a b : string) :
  a <> "" -> all_chars q a = true ->
  (forall c, q c = true -> p c = false) ->
  head_fails p (a +:+ b) = true.
Proof.
  intros Hne Ha Hpq. destruct a as [|c a]; [done|].
  simpl in Ha. apply andb_prop in Ha as [Hc _].
  rewrite app_cons. simpl. rewrite (Hpq c Hc). reflexivity.
Qed.

Lemma re_match_version (ws major minor patch rest : string) :
  ws <> "" -> all_chars white_space ws = true ->
  major <> "" -> all_chars decimal major = true ->
  minor <> "" -> all_chars decimal minor = true ->
  patch <> "" -> all_chars decimal patch = true ->
  head_fails decimal rest = true ->
  Re.re_match version_re
    ("zypper" +:+ (ws +:+ (major +:+ String "." (minor +:+ String "."
       (patch +:+ rest)))))
  = Some [("3", patch); ("2", minor); ("1", major)].
Proof.
  intros Hw1 Hw2 Ha1 Ha2 Hb1 Hb2 Hc1 Hc2 Hr.
  unfold Re.re_match, version_re. cbn [Re.rmatch].
  rewrite ReFacts.strip_prefix_app.
  apply ReFacts.plus_class_greedy; auto.
  { eapply head_fails_app_cons; eauto using decimal_not_white_space. }
  erewrite ReFacts.plus_class_greedy; [reflexivity|auto..].
  simpl Re.strip_prefix. cbv iota.
  erewrite ReFacts.plus_class_greedy; [reflexivity|auto..].
  simpl Re.strip_prefix. cbv iota.
  erewrite ReFacts.plus_class_greedy; [reflexivity|auto..].
Qed.

(** X16. The probe output "zypper", white space, and a version
    major.minor.patch in decimal digits, whatever follows, selects the
    old-[zypper] mode exactly when the major number is 0. An output that
    does not start with "zypper" never selects it. *)
Theorem old_zypper_of_version :
  (forall ws major minor patch rest : string,
      ws <> "" -> all_chars white_space ws = true ->
      major <> "" -> all_chars decimal major = true ->
      minor <> "" -> all_chars decimal minor = true ->
      patch <> "" -> all_chars decimal patch = true ->
      head_fails decimal rest = true ->
      old_zypper_of ("zypper" +:+ ws +:+ major +:+ "." +:+ minor +:+ "."
                     +:+ patch +:+ rest)
      = (int major =? 0)%N)
  /\ (forall out : string,
         (forall rest, out <> "zypper" +:+ rest) -> old_zypper_of out = false).
Proof.
  split.
  - intros ws major minor patch rest Hw1 Hw2 Ha1 Ha2 Hb1 Hb2 Hc1 Hc2 Hr.
    unfold old_zypper_of.
    change ("zypper" +:+ ws +:+ major +:+ "." +:+ minor +:+ "." +:+ patch +:+ rest)
      with ("zypper" +:+ (ws +:+ (major +:+ String "." (minor +:+ String "."
              (patch +:+ rest))))).
    rewrite re_match_version by assumption.
    rewrite bool_decide_eq_true_2 by eauto. simpl.
    destruct (int major); reflexivity.
  - intros out Hout. unfold old_zypper_of.
    destruct (Re.re_match version_re out) as [m|] eqn:Hm.
    + exfalso. unfold Re.re_match in Hm.
      apply ReFacts.rmatch_sound in Hm as (c & s' & g' & -> & M & _).
      simpl in M. destruct M as (c1 & c2 & g1 & -> & (-> & _) & _).
      apply (Hout (c2 +:+ s')). rewrite app_assoc_s. reflexivity.
    + rewrite bool_decide_eq_false_2; [reflexivity|].
      intros [x Hx]. discriminate.
Qed.

Lemma old_zypper_of_version_witness :
  old_zypper_of ("zypper" +:+ " " +:+ "0" +:+ "." +:+ "12" +:+ "." +:+ "3" +:+ "")
  = (int "0" =? 0)%N
  /\ old_zypper_of "rpm 4.11" = false.
Proof.
  destruct old_zypper_of_version as [H1 H2]. split.
  - apply H1; solve [discriminate | reflexivity].
  - apply H2. intros rest H. discriminate H.
Defined.

(** ** More on the operations *)

Lemma is_mutation_latest_cmd m pkgspecs gpg old :
  is_mutation (latest_cmd m pkgspecs gpg old) = true.
Proof. unfold latest_cmd. destruct gpg; reflexivity. Qed.

(** X17. When every requested specifier is satisfied and the query
    answers, [package_latest] still runs its upgrade command, for the bare
    package names: the commands it runs are the query, the upgrade and,
    outside check mode, the query again; the upgrade is the only mutating
    command, and what the call returns as exit code and output is what the
    upgrade returned. *)
Theorem package_latest_all_satisfied {World}
    (driver : list string -> World -> (Z * string * string) * World)
    (package_type : option string)
    (m : AnsibleModule) (pkgspecs : list PkgSpec) (installed_state : installed)
    (disable_gpg_check disable_recommends old_zypper : bool)
    (st st2 : state World) (pre : installed) :
  Forall (fun s => satisfied_in installed_state s = true) pkgspecs ->
  get_installed_versions driver m pkgspecs st = (inr pre, st2) ->
  let latest :=
    package_latest driver package_type m pkgspecs installed_state
      disable_gpg_check disable_recommends old_zypper st in
  let cmd := latest_cmd m pkgspecs disable_gpg_check old_zypper in
  let r := (driver cmd (world st2)).1 in
  let new := [rpm_cmd pkgspecs; cmd]
             ++ (if check_mode m then [] else [rpm_cmd pkgspecs]) in
  calls latest.2 = calls st ++ new
  /\ mutations new = [cmd]
  /\ ((exists e, latest.1 = inl e)
      \/ exists changed, latest.1 = inr (r.1.1, r.1.2, r.2, changed)).
Proof.
  intros Hall Hq latest cmd r new.
  pose proof (package_present_satisfied driver package_type m pkgspecs
                installed_state disable_gpg_check disable_recommends
                old_zypper st (present_loop_all_satisfied _ _ Hall)) as Hp.
  unfold latest. rewrite (package_latest_unchanged _ _ _ _ _ _ _ _ _ _ _ _ _ Hp).
  rewrite Hq. cbv zeta. fold cmd. fold r.
  pose proof (calls_get_installed_versions driver m pkgspecs st) as H1.
  rewrite Hq in H1. cbn [snd] in H1.
  set (st3 := ran driver cmd _).
  assert (H3 : calls st3 = calls st ++ [rpm_cmd pkgspecs; cmd]).
  { unfold st3. rewrite calls_ran, calls_logged, H1, <- app_assoc. reflexivity. }
  split; [|split].
  - unfold new. destruct (check_mode m); [rewrite app_nil_r; exact H3|].
    pose proof (calls_get_installed_versions driver m pkgspecs st3) as H4.
    destruct (get_installed_versions driver m pkgspecs st3) as [[e|post] st4];
      cbn [snd] in *; rewrite H4, H3, <- app_assoc; reflexivity.
  - pose proof (is_mutation_latest_cmd m pkgspecs disable_gpg_check old_zypper)
      as Hc.
    fold cmd in Hc. unfold new, mutations.
    destruct (check_mode m); cbn [app List.filter];
      rewrite not_mutation_rpm, Hc; reflexivity.
  - destruct (check_mode m); [right; eauto|].
    destruct (get_installed_versions driver m pkgspecs st3) as [[e|post] st4];
      [left|right]; eauto.
Qed.

Lemma package_latest_all_satisfied_witness :
  calls (package_latest scripted zypper_package_type (mkModule false) [spec_A]
           A_1_0 false true false
           (initial [rpm_says "1.0"; (0, "", ""); rpm_says "1.1"])).2
  = [] ++ [rpm_cmd [spec_A]; latest_cmd (mkModule false) [spec_A] false false]
       ++ [rpm_cmd [spec_A]].
Proof.
  edestruct (package_latest_all_satisfied scripted zypper_package_type
               (mkModule false) [spec_A] A_1_0 false true false
               (initial [rpm_says "1.0"; (0, "", ""); rpm_says "1.1"]))
    as (H & _).
  - apply Forall_cons. split; [vm_compute; reflexivity|constructor].
  - vm_compute. reflexivity.
  - exact H.
Defined.

Lemma current_versions_loop_beyond (lines : list string) :
  forall (specs : list PkgSpec) (cv result : installed) spec,
    current_versions_loop (zip lines specs) cv = inr result ->
    specs !! length lines = Some spec -> NoDup (map pkg specs) ->
    result !! pkg spec = cv !! pkg spec.
Proof.
  induction lines as [|l ls IH]; intros specs cv result spec H Hs Hnd.
  { simpl in H. injection H as <-. reflexivity. }
  destruct specs as [|s ss]; [discriminate|].
  change (zip (l :: ls) (s :: ss)) with ((l, s) :: zip ls ss) in H.
  rewrite current_versions_loop_cons in H. simpl in Hs, Hnd.
  apply NoDup_cons in Hnd as [Hnotin Hnd].
  assert (Hne : pkg s <> pkg spec).
  { intros Heq. apply Hnotin. rewrite Heq.
    apply list_elem_of_fmap. exists spec. split; [reflexivity|].
    eapply list_elem_of_lookup_2, Hs. }
  destruct (rpm_line l) as [[n vr]|].
  - destruct (bool_decide (pkg s ≠ n)); [discriminate|].
    rewrite (IH ss _ result spec H Hs Hnd). apply lookup_insert_ne, Hne.
  - rewrite (IH ss _ result spec H Hs Hnd). apply lookup_insert_ne, Hne.
Qed.

(** X18. When the query output has fewer lines than packages were
    requested (the requested names being distinct), the mapping that
    [get_installed_versions] returns lacks a requested package, and each
    of the three operations, given this mapping, raises [KeyError] for a
    requested package before it logs or runs anything. *)
Theorem short_query_output_raises_KeyError {World}
    (driver : list string -> World -> (Z * string * string) * World)
    (package_type : option string)
    (m : AnsibleModule) (pkgspecs : list PkgSpec) (st st' : state World)
    (result : installed) :
  get_installed_versions driver m pkgspecs st = (inr result, st') ->
  (length (splitlines (driver (rpm_cmd pkgspecs) (world st)).1.1.2)
   < length pkgspecs)%nat ->
  NoDup (map pkg pkgspecs) ->
  (exists spec, In spec pkgspecs /\ result !! pkg spec = None)
  /\ forall disable_gpg_check disable_recommends old_zypper (st1 : state World),
      exists s, In s pkgspecs
        /\ package_present driver package_type m pkgspecs result
             disable_gpg_check disable_recommends old_zypper st1
           = (inl (KeyError (pkg s)), st1)
        /\ package_latest driver package_type m pkgspecs result
             disable_gpg_check disable_recommends old_zypper st1
           = (inl (KeyError (pkg s)), st1)
        /\ package_absent driver m pkgspecs result old_zypper st1
           = (inl (KeyError (pkg s)), st1).
Proof.
  intros Hq Hlen Hnd.
  pose proof (get_installed_versions_parsed driver m pkgspecs st st' result Hq
                pkgspecs) as Hv.
  rewrite get_installed_versions_eq in Hq. cbv zeta in Hq.
  injection Hq as Hq _.
  set (lines := splitlines _) in *.
  destruct (lookup_lt_is_Some_2 pkgspecs (length lines) Hlen) as [spec Hs].
  assert (Hr : result !! pkg spec = None).
  { rewrite (current_versions_loop_beyond lines pkgspecs ∅ result spec Hq Hs Hnd).
    apply lookup_empty. }
  assert (Hin : In spec pkgspecs).
  { apply list_elem_of_In. eapply list_elem_of_lookup_2, Hs. }
  split; [eauto|]. intros gpg rec old st1.
  destruct (find_some_missing result pkgspecs spec Hin Hr) as (s & Hf & Hs1 & _).
  exists s. split; [exact Hs1|].
  apply operations_KeyError; [exact Hv|exact Hf].
Qed.

Lemma short_query_output_raises_KeyError_witness :
  exists s, In s [spec_a; spec_b]
    /\ package_absent scripted (mkModule false) [spec_a; spec_b]
         {["a" := None]} false (initial [])
       = (inl (KeyError (pkg s)), initial []).
Proof.
  edestruct (short_query_output_raises_KeyError scripted zypper_package_type
               (mkModule false) [spec_a; spec_b]
               (initial [(0, "package a is not installed", "")]))
    as [_ H].
  - vm_compute. reflexivity.
  - vm_compute. lia.
  - compute_done.
  - destruct (H false true false (initial [])) as (s & Hin & _ & _ & Ha).
    exists s. split; [exact Hin|exact Ha].
Defined.

(** ** What a run adds to the state *)

Section Trace.

Context {World : Type}.
Variable driver : list string -> World -> (Z * string * string) * World.
Implicit Types (st : state World).

Lemma extends_refl st : extends st st [] [].
Proof.
  unfold extends. rewrite !app_nil_r.
  destruct (debug_to_stderr st); rewrite ?app_nil_r; auto.
Qed.

Lemma extends_trans st st' st'' cmds msgs cmds' msgs' :
  extends st st' cmds msgs -> extends st' st'' cmds' msgs' ->
  extends st st'' (cmds ++ cmds') (msgs ++ msgs').
Proof.
  intros (Hc & Hm & Hf & Hw) (Hc' & Hm' & Hf' & Hw'). unfold extends.
  rewrite Hc', Hc, Hm', Hm, Hf', Hf, Hw', Hw, Hf, <- !app_assoc.
  destruct (debug_to_stderr st); rewrite ?app_nil_r; auto.
Qed.

Lemma extends_ran cmd st : extends st (ran driver cmd st) [cmd] [].
Proof.
  unfold extends, ran, run_command. destruct (driver cmd (world st)). simpl.
  destruct (debug_to_stderr st); rewrite ?app_nil_r; auto.
Qed.

Lemma extends_logged msg st : extends st (logged msg st) [] [msg].
Proof.
  unfold extends, logged, write_debug. simpl. rewrite app_nil_r.
  destruct (debug_to_stderr st); rewrite ?app_nil_r; auto.
Qed.

Lemma traced_le {A} n n' (c : M World A) :
  (n <= n')%nat -> traced n c -> traced n' c.
Proof.
  intros Hle H st. destruct (H st) as (cmds & msgs & He & Hl).
  exists cmds, msgs. split; [exact He|lia].
Qed.

Lemma traced_ret {A} n (a : A) : traced n (ret World a).
Proof.
  intros st. exists [], []. split; [apply extends_refl|simpl; lia].
Qed.

Lemma traced_raise {A} n e : traced n (raise World e : M World A).
Proof.
  intros st. exists [], []. split; [apply extends_refl|simpl; lia].
Qed.

Lemma traced_lift {A} n (r : result A) : traced n (lift World r).
Proof. destruct r; [apply traced_raise|apply traced_ret]. Qed.

Lemma traced_bind {A B} n1 n2 n (c : M World A) (k : A -> M World B) :
  (n1 + n2 <= n)%nat ->
  traced n1 c -> (forall a, traced n2 (k a)) -> traced n (bind World c k).
Proof.
  intros Hn Hc Hk st. unfold bind.
  destruct (Hc st) as (cmds & msgs & He & Hl).
  destruct (c st) as [[e|a] st'].
  - exists cmds, msgs. split; [exact He|lia].
  - destruct (Hk a st') as (cmds' & msgs' & He' & Hl').
    exists (cmds ++ cmds'), (msgs ++ msgs'). split.
    + eapply extends_trans; eassumption.
    + rewrite mutations_app, length_app. lia.
Qed.

Lemma traced_run_command cmd :
  traced (length (mutations [cmd])) (run_command driver cmd).
Proof.
  intros st. exists [cmd], []. rewrite run_command_eq.
  split; [apply extends_ran|lia].
Qed.

Lemma traced_write_debug msg : traced 0 (write_debug msg : M World unit).
Proof.
  intros st. exists [], [msg]. split; [apply (extends_logged msg st)|simpl; lia].
Qed.

Lemma traced_get_installed_versions m pkgspecs :
  traced 0 (get_installed_versions driver m pkgspecs).
Proof.
  unfold get_installed_versions. cbv zeta. fold (rpm_cmd pkgspecs).
  apply (traced_bind 0 0); [lia| |].
  - apply (traced_run_command (rpm_cmd pkgspecs)).
  - intros [[rc out] err]. apply (traced_bind 0 0); [lia| |].
    + apply traced_write_debug.
    + intros _. apply traced_lift.
Qed.

Lemma traced_zypper_version module : traced 0 (zypper_version driver module).
Proof.
  unfold zypper_version. cbv zeta. apply (traced_bind 0 0); [lia| |].
  - apply (traced_run_command probe_cmd).
  - intros [[rc out] err]. destruct (bool_decide (rc = 0)); apply traced_ret.
Qed.

Section TraceOperations.

Variable package_type : option string.
Variables (m : AnsibleModule) (pkgspecs : list PkgSpec)
          (installed_state : installed)
          (disable_gpg_check disable_recommends old_zypper : bool).

Lemma traced_package_present :
  traced (match package_type with Some _ => 1 | None => 0 end)
    (package_present driver package_type m pkgspecs installed_state
       disable_gpg_check disable_recommends old_zypper).
Proof.
  unfold package_present. cbv zeta.
  destruct package_type as [type|]; cbn [load_global].
  - apply (traced_bind 0 1); [lia|apply traced_lift|].
    intros batch. destruct (0 <? length batch)%nat; [|apply traced_ret].
    apply (traced_bind 0 1); [lia|apply traced_ret|]. intros type'.
    apply (traced_bind 0 1); [lia|apply traced_write_debug|]. intros _.
    apply (traced_bind 1 0); [lia| |].
    + destruct (negb (check_mode m)); [|apply traced_ret].
      eapply traced_le; [|apply traced_run_command].
      apply length_mutations_one.
    + intros [[rc out] err]. apply traced_ret.
  - apply (traced_bind 0 0); [lia|apply traced_lift|].
    intros batch. destruct (0 <? length batch)%nat; [|apply traced_ret].
    intros st. exists [], []. split; [apply extends_refl|simpl; lia].
Qed.

Lemma traced_package_absent :
  traced 1 (package_absent driver m pkgspecs installed_state old_zypper).
Proof.
  unfold package_absent. cbv zeta.
  apply (traced_bind 0 1); [lia|apply traced_lift|].
  intros batch. destruct (0 <? length batch)%nat; [|apply traced_ret].
  apply (traced_bind 0 1); [lia|apply traced_write_debug|]. intros _.
  apply (traced_bind 1 0); [lia| |].
  - destruct (negb (check_mode m)); [|apply traced_ret].
    eapply traced_le; [|apply traced_run_command].
    apply length_mutations_one.
  - intros [[rc out] err]. apply traced_ret.
Qed.

Lemma traced_package_latest :
  traced (match package_type with Some _ => 2 | None => 1 end)
    (package_latest driver package_type m pkgspecs installed_state
       disable_gpg_check disable_recommends old_zypper).
Proof.
  unfold package_latest. cbv zeta.
  eapply (traced_bind _ 1); [|apply traced_package_present|].
  { destruct package_type; simpl; lia. }
  intros [[[rc out] err] changed].
  apply (traced_bind 0 1); [lia| |].
  { destruct (negb changed); [|apply traced_ret].
    apply (traced_bind 0 0); [lia|apply traced_get_installed_versions|].
    intros v. apply traced_ret. }
  intros pre.
  apply (traced_bind 0 1); [lia|apply traced_write_debug|]. intros _.
  apply (traced_bind 1 0); [lia| |].
  - eapply traced_le; [|apply traced_run_command].
    apply length_mutations_one.
  - intros [[rc' out'] err'].
    destruct (check_mode m && negb changed); [apply traced_ret|].
    destruct (negb changed); [|apply traced_ret].
    apply (traced_bind 0 0); [lia|apply traced_get_installed_versions|].
    intros post. apply traced_ret.
Qed.

End TraceOperations.

Lemma traced_operation package_type module state pkgspecs installed_versions
    disable_gpg_check disable_recommends old_zypper :
  traced (mutation_bound package_type state)
    (operation driver package_type module state pkgspecs installed_versions
       disable_gpg_check disable_recommends old_zypper).
Proof.
  destruct state; unfold operation.
  - eapply traced_le; [|apply traced_package_absent].
    destruct package_type; simpl; lia.
  - eapply traced_le; [|apply traced_package_present].
    destruct package_type; simpl; lia.
  - eapply traced_le; [|apply traced_package_latest].
    destruct package_type; simpl; lia.
  - eapply traced_le; [|apply traced_package_present].
    destruct package_type; simpl; lia.
  - eapply traced_le; [|apply traced_package_absent].
    destruct package_type; simpl; lia.
Qed.

Lemma traced_after_flag {A} n b (k : unit -> M World A) st :
  traced n (k tt) ->
  exists cmds msgs,
    extends (flagged b st) (bind World (set_debug_to_stderr b) k st).2 cmds msgs
    /\ (length (mutations cmds) <= n)%nat.
Proof. intros H. apply (H (flagged b st)). Qed.

(** [main] after the assignment to [debug_to_stderr]. *)
Lemma main_traced package_type show_versions module params st :
  exists cmds msgs,
    extends (flagged (p_debug_in_stderr params) st)
      (main driver package_type show_versions module params st).2 cmds msgs
    /\ (length (mutations cmds)
        <= mutation_bound package_type (p_state params))%nat.
Proof.
  unfold main. apply traced_after_flag. cbv beta zeta.
  set (n := mutation_bound package_type (p_state params)).
  apply (traced_bind 0 n); [lia|apply traced_lift|]. intros pkgspecs.
  apply (traced_bind 0 n); [lia|apply traced_zypper_version|]. intros [rc0 out0].
  apply (traced_bind 0 n); [lia|apply traced_get_installed_versions|].
  intros installed_versions.
  apply (traced_bind 0 n); [lia|apply traced_write_debug|]. intros _.
  apply (traced_bind n 0); [lia| |].
  { apply traced_operation. }
  intros [[[rc out] err] changed].
  destruct (negb (bool_decide (rc = 0))).
  { destruct (negb (Re.is_empty err)); apply traced_ret. }
  apply (traced_bind 0 0); [lia|apply traced_get_installed_versions|].
  intros after.
  apply (traced_bind 0 0); [lia|apply traced_write_debug|]. intros _.
  apply (traced_bind 0 0); [lia| |].
  - destruct (p_debug_in_result params); [|apply traced_ret].
    apply (traced_bind 0 0); [lia| |].
    + intros st'. exists [], []. split; [apply extends_refl|simpl; lia].
    + intros d. apply traced_ret.
  - intros debug_output. apply traced_ret.
Qed.

End Trace.





Lemma main_result {World}
    (driver : list string -> World -> (Z * string * string) * World)
    package_type show_versions module params (st : state World) r :
  (main driver package_type show_versions module params st).1
  = inr (exit_json r) ->
  r_name r = p_name params /\ r_state r = p_state params
  /\ r_debug_output r
     = if p_debug_in_result params
       then Some (debug_messages
                    (main driver package_type show_versions module params st).2)
       else None.
Proof.
  rewrite main_eq. cbv zeta.
  destruct (parse_all (p_name params)) as [e|pkgspecs]; [discriminate|].
  destruct (get_installed_versions driver module pkgspecs _)
    as [[e|installed_versions] st2]; [discriminate|].
  destruct (operation _ _ _ _ _ _ _ _ _ _)
    as [[e|[[[rc out] err] changed]] st4]; [discriminate|].
  destruct (bool_decide (rc = 0)); [|discriminate].
  destruct (get_installed_versions driver module pkgspecs st4)
    as [[e|after] st5]; [discriminate|].
  cbn [fst snd]. intros [= <-]. auto.
Qed.

(** X19. [get_installed_versions] and the three operations only add to
    the state: the commands they run and the messages they log come after
    those that were there, the flag [debug_to_stderr] is as before, and
    [stderr] receives the logged messages when the flag is set and nothing
    otherwise. The query runs no mutating command, [package_absent] at
    most one, [package_present] at most one and none where [package_type]
    is not bound, and [package_latest] at most one more than its install
    phase. *)
Theorem operations_extend_state {World}
    (driver : list string -> World -> (Z * string * string) * World)
    (package_type : option string)
    (m : AnsibleModule) (pkgspecs : list PkgSpec) (installed_state : installed)
    (disable_gpg_check disable_recommends old_zypper : bool) :
  traced 0 (get_installed_versions driver m pkgspecs)
  /\ traced (match package_type with Some _ => 1 | None => 0 end)
       (package_present driver package_type m pkgspecs installed_state
          disable_gpg_check disable_recommends old_zypper)
  /\ traced (match package_type with Some _ => 2 | None => 1 end)
       (package_latest driver package_type m pkgspecs installed_state
          disable_gpg_check disable_recommends old_zypper)
  /\ traced 1 (package_absent driver m pkgspecs installed_state old_zypper).
Proof.
  split; [apply traced_get_installed_versions|].
  split; [apply traced_package_present|].
  split; [apply traced_package_latest|apply traced_package_absent].
Qed.

(** X20. However a run of [main] ends, what was logged and run before it is
    still there, the flag [debug_to_stderr] is what the parameter
    [debug_in_stderr] says, and [stderr] has received the messages of the
    run when the parameter is set and nothing otherwise. A run that ends
    with [exit_json] hands back the requested names and state, and as
    [debug_output] all messages logged so far when the parameter
    [debug_in_result] is set, and no [debug_output] otherwise. *)
Theorem main_log {World}
    (driver : list string -> World -> (Z * string * string) * World)
    (package_type : option string) (show_versions : installed -> list string)
    (module : AnsibleModule) (params : params) (st : state World) :
  let run := main driver package_type show_versions module params st in
  exists cmds msgs,
    calls run.2 = calls st ++ cmds
    /\ debug_messages run.2 = debug_messages st ++ msgs
    /\ debug_to_stderr run.2 = p_debug_in_stderr params
    /\ stderr_written run.2
       = stderr_written st ++ (if p_debug_in_stderr params then msgs else [])
    /\ forall r, run.1 = inr (exit_json r) ->
         r_name r = p_name params /\ r_state r = p_state params
         /\ r_debug_output r
            = if p_debug_in_result params
              then Some (debug_messages st ++ msgs) else None.
Proof.
  intros run.
  destruct (main_traced driver package_type show_versions module params st)
    as (cmds & msgs & (Hc & Hm & Hf & Hw) & _).
  fold run in Hc, Hm, Hf, Hw. exists cmds, msgs.
  split; [exact Hc|]. split; [exact Hm|]. split; [exact Hf|].
  split; [exact Hw|]. intros r Hr.
  apply main_result in Hr. fold run in Hr. rewrite Hm in Hr. exact Hr.
Qed.

(** X21. A run of [main] issues at most one mutating command in the
    module's own namespace, whatever the parameters and the host. Were
    [package_type] bound, a run for [latest] could issue two (the install
    and the upgrade), and every other run at most one. *)
Theorem main_mutation_bound {World}
    (driver : list string -> World -> (Z * string * string) * World)
    (package_type : option string) (show_versions : installed -> list string)
    (module : AnsibleModule) (params : params) (st : state World) :
  (exists new,
      calls (main driver package_type show_versions module params st).2
      = calls st ++ new
      /\ (length (mutations new)
          <= mutation_bound package_type (p_state params))%nat)
  /\ mutation_bound zypper_package_type (p_state params) = 1%nat.
Proof.
  split; [|reflexivity].
  destruct (main_traced driver package_type show_versions module params st)
    as (cmds & msgs & (Hc & _) & Hl).
  exists cmds. split; [exact Hc|exact Hl].
Qed.

(** ** From the request to the command *)

Lemma PkgSpec_init_rawspec (s : string) (p : PkgSpec) :
  PkgSpec_init s = inr p -> rawspec p = s.
Proof.
  unfold PkgSpec_init. destruct (Re.re_match _spec_parse_re s); [|discriminate].
  cbv zeta. destruct (_ && _); [discriminate|]. intros [= <-]. reflexivity.
Qed.

Lemma parse_all_rawspec (names : list string) :
  forall pkgspecs, parse_all names = inr pkgspecs -> map rawspec pkgspecs = names.
Proof.
  induction names as [|n names IH]; intros pkgspecs; simpl.
  { intros [= <-]. reflexivity. }
  destruct (PkgSpec_init n) as [e|spec] eqn:Hn; [discriminate|].
  destruct (parse_all names) as [e|specs]; [discriminate|].
  intros [= <-]. simpl. rewrite (PkgSpec_init_rawspec _ _ Hn), (IH specs eq_refl).
  reflexivity.
Qed.

Lemma sublist_map_filter {A B} (f : A -> B) (p : A -> bool) (l : list A) :
  sublist (map f (List.filter p l)) (map f l).
Proof.
  induction l as [|x l IH]; simpl; [constructor|].
  destruct (p x); simpl; [apply sublist_skip|apply sublist_cons]; exact IH.
Qed.

(** X22. The install list of [package_present] is made of specifiers as
    they were requested, and the removal list of [package_absent] of
    names of requested packages, each in request order: whenever the
    request parses and the loop of the operation returns, its list is a
    sublist of the requested strings, respectively of the names parsed
    from them. *)
Theorem lists_come_from_request (names : list string) (pkgspecs : list PkgSpec)
    (installed_state : installed) :
  parse_all names = inr pkgspecs ->
  (forall packages_to_install,
      present_loop pkgspecs installed_state [] = inr packages_to_install ->
      sublist packages_to_install names)
  /\ (forall packages_to_remove,
         absent_loop pkgspecs installed_state [] = inr packages_to_remove ->
         sublist packages_to_remove (map pkg pkgspecs)).
Proof.
  intros Hparse. split.
  - intros batch H.
    destruct (present_loop_sublist _ _ _ _ H) as (more & -> & Hsub).
    rewrite <- (parse_all_rawspec _ _ Hparse). exact Hsub.
  - intros batch. rewrite absent_loop_spec.
    destruct (List.find _ pkgspecs); [discriminate|]. intros [= <-].
    apply sublist_map_filter.
Qed.

Lemma lists_come_from_request_witness :
  sublist ["foo=2.0"] ["a"; "foo=2.0"].
Proof.
  apply (lists_come_from_request ["a"; "foo=2.0"] [spec_a; foo_2_0]
           {["foo" := None; "a" := Some ("1", "1")]}).
  - reflexivity.
  - vm_compute. reflexivity.
Defined.

(** ** Runs on a host that answers the query *)

Lemma plain_name_spec (n : string) :
  plain_name n = true ->
  token n = true /\ n <> "" /\ all_chars Re.not_operator n = true.
Proof.
  unfold plain_name. intros [Ht Ho]%andb_prop.
  split; [exact Ht|]. split; [apply token_spec, Ht|exact Ho].
Qed.

Lemma parse_all_name_only (names : list string) :
  Forall (fun n => plain_name n = true) names ->
  parse_all names = inr (map name_only names).
Proof.
  induction 1 as [|n names Hn _ IH]; [reflexivity|].
  apply plain_name_spec in Hn as (_ & Hne & Ho).
  simpl. unfold PkgSpec_init at 1.
  rewrite <- (app_empty_r n) at 1. rewrite re_match_name_only by assumption.
  rewrite app_empty_r. cbn. rewrite IH. reflexivity.
Qed.

Lemma map_pkg_name_only (names : list string) :
  map pkg (map name_only names) = names.
Proof. induction names as [|n names IH]; simpl; [|rewrite IH]; reflexivity. Qed.

Lemma satisfied_in_name_only (d : installed) (n v r : string) :
  d !! n = Some (Some (v, r)) -> satisfied_in d (name_only n) = true.
Proof.
  intros H. unfold satisfied_in. cbn [pkg name_only]. rewrite H.
  unfold satisfies_spec. cbn [pkg name_only version release].
  rewrite bool_decide_eq_false_2 by (intros Hx; apply Hx; reflexivity).
  reflexivity.
Qed.

Lemma installed_in_name_only (d : installed) (n : string) :
  d !! n = Some None -> installed_in d (name_only n) = false.
Proof. intros H. unfold installed_in. cbn [pkg name_only]. rewrite H. reflexivity. Qed.

(** X23. A request by plain names changes nothing on a host that needs no
    change. Let every requested name be non-empty and free of white space
    and operator characters, and let the host answer each query in the
    format asked for by what is installed. Then a run for [present] or
    [installed] with every requested package installed, and a run for
    [absent] or [removed] with none of them installed, ends with
    [exit_json] and [changed] false, after the probe and two queries and no
    other command: nothing raises, whatever [package_type] is bound to. *)
Theorem main_changes_nothing_on_host {World}
    (driver : list string -> World -> (Z * string * string) * World)
    (package_type : option string) (show_versions : installed -> list string)
    (module : AnsibleModule) (params : params)
    (host : string -> option (string * string)) (st : state World) :
  let pkgspecs := map name_only (p_name params) in
  let run := main driver package_type show_versions module params st in
  Forall (fun n => plain_name n = true) (p_name params) ->
  (forall n v r, host n = Some (v, r) -> token v = true /\ token r = true) ->
  (forall w, (driver (rpm_cmd pkgspecs) w).1.1.2
             = unlines (map (host_line host) pkgspecs)) ->
  ((p_state params = St_present \/ p_state params = St_installed)
   /\ Forall (fun n => is_Some (host n)) (p_name params))
  \/ ((p_state params = St_absent \/ p_state params = St_removed)
      /\ Forall (fun n => host n = None) (p_name params)) ->
  (exists debug_output,
      run.1 = inr (exit_json (mkResult (p_name params) (p_state params)
                                       false debug_output)))
  /\ calls run.2 = calls st ++ [probe_cmd; rpm_cmd pkgspecs; rpm_cmd pkgspecs].
Proof.
  intros pkgspecs run Hnames Hhost Hdriver Hcase.
  assert (Hwf : Forall (host_well_formed host) pkgspecs).
  { apply Forall_map. eapply Forall_impl; [exact Hnames|].
    intros n Hn. apply plain_name_spec in Hn as [Ht _].
    split; [exact Ht|]. intros v r. apply Hhost. }
  destruct (get_installed_versions_host host driver module pkgspecs
              (ran driver probe_cmd (flagged (p_debug_in_stderr params) st))
              Hwf (Hdriver _)) as (before & Hq & Hb).
  set (st2 := logged _ _) in Hq.
  destruct (get_installed_versions_host host driver module pkgspecs
              (logged (pre_msg (show_versions before)) st2)
              Hwf (Hdriver _)) as (after & Hq' & _).
  assert (Hlook : forall n, n ∈ p_name params -> before !! n = Some (host n)).
  { intros n Hn. rewrite Hb. unfold pkgspecs. rewrite map_pkg_name_only.
    rewrite bool_decide_eq_true_2 by exact Hn. reflexivity. }
  eapply (run_unchanged driver package_type show_versions module params
            pkgspecs before st st2 (parse_all_name_only _ Hnames) Hq after);
    [|exact Hq'].
  apply operation_nothing_to_do.
  destruct Hcase as [[Hs Hall]|[Hs Hnone]]; [left|right]; (split; [exact Hs|]).
  - apply Forall_map. apply Forall_forall. intros n Hn.
    rewrite Forall_forall in Hall. destruct (Hall n Hn) as [[v r] Hvr].
    apply (satisfied_in_name_only _ n v r). rewrite (Hlook n Hn), Hvr.
    reflexivity.
  - split; apply Forall_map; apply Forall_forall; intros n Hn;
      rewrite Forall_forall in Hnone; pose proof (Hlook n Hn) as Hl;
      rewrite (Hnone n Hn) in Hl.
    + cbn [pkg name_only]. rewrite Hl. eauto.
    + apply installed_in_name_only, Hl.
Qed.

Lemma main_changes_nothing_on_host_witness :
  exists debug_output,
    (main (answering only_bar) zypper_package_type show_nothing (mkModule false)
          (run_params ["bar"] St_present) (initial tt)).1
    = inr (exit_json (mkResult ["bar"] St_present false debug_output)).
Proof.
  edestruct (main_changes_nothing_on_host (answering only_bar)
               zypper_package_type show_nothing (mkModule false)
               (run_params ["bar"] St_present) only_bar (initial tt))
    as [H _].
  - apply Forall_cons. split; [reflexivity|constructor].
  - intros n v r. unfold only_bar. destruct (String.eqb n "bar"); [|discriminate].
    intros [= <- <-]. split; reflexivity.
  - intros w. reflexivity.
  - left. split; [left; reflexivity|].
    apply Forall_cons. split; [eexists; reflexivity|constructor].
  - exact H.
Defined.

Lemma unsatisfied_in_name_only (d : installed) (n : string) :
  d !! n = Some None -> satisfied_in d (name_only n) = false.
Proof. intros H. unfold satisfied_in. cbn [pkg name_only]. rewrite H. reflexivity. Qed.

(** X24. The module as it stands cannot install or upgrade on such a host:
    as soon as one of the requested packages is not installed, a run for
    [present], [installed] or [latest] ends with [NameError] for
    [package_type], after the probe and the query and no other command. *)
Theorem main_cannot_install_on_host {World}
    (driver : list string -> World -> (Z * string * string) * World)
    (show_versions : installed -> list string)
    (module : AnsibleModule) (params : params)
    (host : string -> option (string * string)) (st : state World) :
  let pkgspecs := map name_only (p_name params) in
  let run := main driver zypper_package_type show_versions module params st in
  Forall (fun n => plain_name n = true) (p_name params) ->
  (forall n v r, host n = Some (v, r) -> token v = true /\ token r = true) ->
  (forall w, (driver (rpm_cmd pkgspecs) w).1.1.2
             = unlines (map (host_line host) pkgspecs)) ->
  p_state params = St_present \/ p_state params = St_installed
  \/ p_state params = St_latest ->
  Exists (fun n => host n = None) (p_name params) ->
  run.1 = inl (NameError "package_type")
  /\ calls run.2 = calls st ++ [probe_cmd; rpm_cmd pkgspecs].
Proof.
  intros pkgspecs run Hnames Hhost Hdriver Hstate Hex.
  assert (Hwf : Forall (host_well_formed host) pkgspecs).
  { apply Forall_map. eapply Forall_impl; [exact Hnames|].
    intros n Hn. apply plain_name_spec in Hn as [Ht _].
    split; [exact Ht|]. intros v r. apply Hhost. }
  destruct (get_installed_versions_host host driver module pkgspecs
              (ran driver probe_cmd (flagged (p_debug_in_stderr params) st))
              Hwf (Hdriver _)) as (before & Hq & Hb).
  set (st2 := logged _ _) in Hq.
  assert (Hlook : forall n, n ∈ p_name params -> before !! n = Some (host n)).
  { intros n Hn. rewrite Hb. unfold pkgspecs. rewrite map_pkg_name_only.
    rewrite bool_decide_eq_true_2 by exact Hn. reflexivity. }
  assert (Hrun : run = (inl (NameError "package_type"),
                        logged (pre_msg (show_versions before)) st2)).
  { unfold run.
    rewrite (run_eq driver zypper_package_type show_versions module params
               pkgspecs before st st2 (parse_all_name_only _ Hnames) Hq).
    rewrite (operation_unbound driver zypper_package_type module pkgspecs
               before); [reflexivity|reflexivity|exact Hstate| | |].
    2:{ apply (get_installed_versions_parsed _ _ _ _ _ _ Hq). }
    - apply Forall_map. apply Forall_forall. intros n Hn.
      cbn [pkg name_only]. rewrite (Hlook n Hn). eauto.
    - apply Exists_exists in Hex as (n & Hn & Hnone).
      apply Exists_exists. exists (name_only n). split.
      + apply list_elem_of_fmap. exists n. auto.
      + apply unsatisfied_in_name_only. rewrite (Hlook n Hn), Hnone.
        reflexivity. }
  rewrite Hrun. split; [reflexivity|].
  apply (calls_st3 driver show_versions module params pkgspecs before st st2 Hq).
Qed.

Lemma main_cannot_install_on_host_witness :
  (main (answering only_bar) zypper_package_type show_nothing (mkModule false)
        (run_params ["bar"; "foo"] St_latest) (initial tt)).1
  = inl (NameError "package_type").
Proof.
  edestruct (main_cannot_install_on_host (answering only_bar) show_nothing
               (mkModule false) (run_params ["bar"; "foo"] St_latest)
               only_bar (initial tt)) as [H _].
  - apply Forall_cons. split; [reflexivity|].
    apply Forall_cons. split; [reflexivity|constructor].
  - intros n v r. unfold only_bar. destruct (String.eqb n "bar"); [|discriminate].
    intros [= <- <-]. split; reflexivity.
  - intros w. reflexivity.
  - right. right. reflexivity.
  - apply Exists_cons_tl, Exists_cons_hd. reflexivity.
  - exact H.
Defined.

Lemma world_ran {World}
    (driver : list string -> World -> (Z * string * string) * World)
    cmd (st : state World) :
  world (ran driver cmd st) = (driver cmd (world st)).2.
Proof. unfold ran, run_command. destruct (driver cmd (world st)). reflexivity. Qed.

Lemma removal_list_name_only (before : installed)
    (host : string -> option (string * string)) (names : list string) :
  (forall n, n ∈ names -> before !! n = Some (host n)) ->
  map pkg (List.filter (installed_in before) (map name_only names))
  = List.filter (fun n => bool_decide (is_Some (host n))) names.
Proof.
  induction names as [|n names IH]; intros H; [reflexivity|].
  simpl. unfold installed_in at 1. cbn [pkg name_only].
  rewrite (H n) by (apply elem_of_cons; auto).
  rewrite <- IH by (intros k Hk; apply H, elem_of_cons; auto).
  destruct (host n) as [vr|].
  - rewrite bool_decide_eq_true_2 by eauto. reflexivity.
  - rewrite bool_decide_eq_false_2 by (intros [x Hx]; discriminate).
    reflexivity.
Qed.

(** X25. Outside check mode, on a host that answers the first query, a
    run for [absent] or [removed] with at least one requested package
    installed runs, after the probe and the query, one [zypper
    --non-interactive remove] for exactly the requested names that are
    installed, in request order, and then at most the second query. *)
Theorem main_removes_on_host {World}
    (driver : list string -> World -> (Z * string * string) * World)
    (package_type : option string) (show_versions : installed -> list string)
    (module : AnsibleModule) (params : params)
    (host : string -> option (string * string)) (st : state World) :
  let pkgspecs := map name_only (p_name params) in
  let run := main driver package_type show_versions module params st in
  let cmd := remove_cmd (List.filter (fun n => bool_decide (is_Some (host n)))
                                     (p_name params)) in
  Forall (fun n => plain_name n = true) (p_name params) ->
  (forall n v r, host n = Some (v, r) -> token v = true /\ token r = true) ->
  (driver (rpm_cmd pkgspecs) (driver probe_cmd (world st)).2).1.1.2
  = unlines (map (host_line host) pkgspecs) ->
  p_state params = St_absent \/ p_state params = St_removed ->
  check_mode module = false ->
  Exists (fun n => is_Some (host n)) (p_name params) ->
  calls run.2 = calls st ++ [probe_cmd; rpm_cmd pkgspecs; cmd]
  \/ calls run.2 = calls st ++ [probe_cmd; rpm_cmd pkgspecs; cmd; rpm_cmd pkgspecs].
Proof.
  intros pkgspecs run cmd Hnames Hhost Hdriver Hstate Hm Hex.
  assert (Hwf : Forall (host_well_formed host) pkgspecs).
  { apply Forall_map. eapply Forall_impl; [exact Hnames|].
    intros n Hn. apply plain_name_spec in Hn as [Ht _].
    split; [exact Ht|]. intros v r. apply Hhost. }
  destruct (get_installed_versions_host host driver module pkgspecs
              (ran driver probe_cmd (flagged (p_debug_in_stderr params) st)) Hwf)
    as (before & Hq & Hb).
  { rewrite world_ran. exact Hdriver. }
  set (st2 := logged _ _) in Hq.
  assert (Hlook : forall n, n ∈ p_name params -> before !! n = Some (host n)).
  { intros n Hn. rewrite Hb. unfold pkgspecs. rewrite map_pkg_name_only.
    rewrite bool_decide_eq_true_2 by exact Hn. reflexivity. }
  pose proof (calls_st3 driver show_versions module params pkgspecs before st
                st2 Hq) as Hc3.
  set (st3 := logged (pre_msg (show_versions before)) st2) in *.
  assert (Hk : Forall (fun s => is_Some (before !! pkg s)) pkgspecs).
  { apply Forall_map. apply Forall_forall. intros n Hn.
    cbn [pkg name_only]. rewrite (Hlook n Hn). eauto. }
  assert (Hex' : Exists (fun s => installed_in before s = true) pkgspecs).
  { apply Exists_exists in Hex as (n & Hn & [vr Hvr]).
    apply Exists_exists. exists (name_only n). split.
    - apply list_elem_of_fmap. exists n. auto.
    - unfold installed_in. cbn [pkg name_only]. rewrite (Hlook n Hn), Hvr.
      reflexivity. }
  assert (Hcmd : remove_cmd (map pkg (List.filter (installed_in before)
                                                   pkgspecs)) = cmd).
  { unfold cmd, pkgspecs. rewrite (removal_list_name_only before host _ Hlook).
    reflexivity. }
  pose proof (operation_removes driver package_type module pkgspecs before
                (p_state params) (p_disable_gpg_check params)
                (p_disable_recommends params)
                (old_zypper_of
                   (probe_text
                      (driver probe_cmd
                         (world (flagged (p_debug_in_stderr params) st))).1))
                st3 Hstate Hm Hk Hex') as Ha.
  cbv zeta in Ha. rewrite Hcmd in Ha.
  unfold run.
  rewrite (run_eq driver package_type show_versions module params
             pkgspecs before st st2 (parse_all_name_only _ Hnames) Hq).
  fold st3. rewrite Ha.
  set (st4 := ran driver cmd _).
  assert (Hc4 : calls st4 = calls st ++ [probe_cmd; rpm_cmd pkgspecs; cmd]).
  { unfold st4. rewrite calls_ran, calls_logged, Hc3, <- app_assoc. reflexivity. }
  destruct (bool_decide _); [|left; exact Hc4].
  right. pose proof (calls_get_installed_versions driver module pkgspecs st4) as H5.
  destruct (get_installed_versions driver module pkgspecs st4) as [[e|after] st5];
    cbn [snd] in *; rewrite ?calls_logged, H5, Hc4, <- app_assoc; reflexivity.
Qed.

Lemma main_removes_on_host_witness :
  calls (main (answering only_bar) zypper_package_type show_nothing
              (mkModule false) (run_params ["foo"; "bar"] St_absent)
              (initial tt)).2
  = [probe_cmd; rpm_cmd [name_only "foo"; name_only "bar"]; remove_cmd ["bar"];
     rpm_cmd [name_only "foo"; name_only "bar"]].
Proof.
  edestruct (main_removes_on_host (answering only_bar) zypper_package_type
               show_nothing (mkModule false)
               (run_params ["foo"; "bar"] St_absent) only_bar (initial tt))
    as [H|H].
  - apply Forall_cons. split; [reflexivity|].
    apply Forall_cons. split; [reflexivity|constructor].
  - intros n v r. unfold only_bar. destruct (String.eqb n "bar"); [|discriminate].
    intros [= <- <-]. split; reflexivity.
  - reflexivity.
  - left. reflexivity.
  - reflexivity.
  - apply Exists_cons_tl, Exists_cons_hd. eexists. reflexivity.
  - vm_compute in H. discriminate H.
  - exact H.
Defined.
